(** * Document projections of the memoir platform

    A shallow embedding of [memoir/core/projections.py] and of the update
    engine of [memoir/services/projection.py], and the properties of the
    projection engine proved (or refuted) on it.

    Conventions of the embedding.
    - A Python class becomes a module: its record is [t], its methods are
      functions that take the receiver last and return the mutated receiver.
    - Python [int] is [Z], [str] is [string], [float] is the kernel's
      binary64 [float] (the same IEEE 754 format CPython uses), [list] is
      [list], [dict] is [gmap], [set(...)] is [gset].
    - A [str] is a string of code points below 256 (the Latin-1 range), one
      character of [string] per code point: on these, [lower] and the white
      space of [split] are CPython's.
    - A section object held by a projection is named by its position in the
      section list; the one place where an object can come to stand at two
      positions, [reorder_sections], keeps the objects in a store of their
      own.
    - [utc_now()] and the calls to the language model are effects: they live
      in the monad [M], whose state counts the clock readings made so far and
      logs every call sent to the model.  The model's answers are not
      specified: they are given by an arbitrary oracle, which may fail. *)

From Stdlib Require Import ZArith List String Ascii Bool Lia Floats.
From stdpp Require Import base option list gmap sets strings pretty.

Local Open Scope Z_scope.
Local Open Scope string_scope.
Local Open Scope list_scope.

(** ** Python built-ins used by the code *)

(** [datetime]: an instant, as a number of microseconds. *)
Definition datetime := Z.

(** Truth value of a [str]: the empty string is false. *)
Definition str_truthy (s : string) : bool :=
  match s with
  | EmptyString => false
  | String _ _ => true
  end.

(** [len(l)] as a Python [int]. *)
Definition len {A : Type} (l : list A) : Z := Z.of_nat (length l).

(** [l[-n:]] for a positive [n]: the last [n] elements, all of [l] when it
    is shorter. *)
Definition last_n {A : Type} (n : nat) (l : list A) : list A :=
  drop (length l - n) l.

(** [min(a, b)] on floats: CPython keeps [a] unless [b < a]. *)
Definition py_min (a b : float) : float :=
  if PrimFloat.ltb b a then b else a.

(** The line feed of ["\n"]. *)
Definition nl : string := String (ascii_of_nat 10) EmptyString.

(** [sep.join(parts)]. *)
Definition join (sep : string) (parts : list string) : string :=
  String.concat sep parts.

(** [s[:n]] on a string. *)
Definition str_prefix (n : nat) (s : string) : string :=
  String.substring 0 n s.

(** [x or default] for an optional string: [None] and [""] give the
    default. *)
Definition str_or (x : option string) (default : string) : string :=
  match x with
  | Some s => if str_truthy s then s else default
  | None => default
  end.

(** White space as [str.split()] sees it, among the code points below 256:
    tab, line feed, vertical tab, form feed, carriage return, the four
    separators 28..31, the space, the next-line control U+0085 and the
    no-break space U+00A0. *)
Definition is_space (c : ascii) : bool :=
  let n := nat_of_ascii c in
  ((9 <=? n)%nat && (n <=? 13)%nat) || ((28 <=? n)%nat && (n <=? 32)%nat)
  || (n =? 133)%nat || (n =? 160)%nat.

(** [len(s.split())]: the number of maximal runs of non-space characters.
    [in_word] tells whether the previous character belonged to a word. *)
Fixpoint count_words_from (in_word : bool) (s : string) : Z :=
  match s with
  | EmptyString => 0
  | String c rest =>
      if is_space c then count_words_from false rest
      else (if in_word then 0 else 1) + count_words_from true rest
  end.

Definition count_words (s : string) : Z := count_words_from false s.

(** ** Effects: the clock and the language model *)

(** A call sent to the language model ([MemoirAI]). *)
Inductive AICall : Type :=
| GenerateSectionCall (title content style context length : string)
| RegenerateSectionCall (title existing_content new_content style : string)
| ExtractThemesCall (content : string) (existing_themes : option (list string)).

(** One entry of the ["themes"] list returned by [extract_themes]: a bare
    string, a dict (its ["theme"] and ["description"] keys, when present) or
    a value of another type. *)
Inductive ThemeData : Type :=
| ThemeStr (name : string)
| ThemeDict (theme description : option string)
| ThemeOther.

(** The dict returned by [extract_themes]; an absent key is [None]. *)
Record ExtractResult : Type := mkExtractResult {
  r_themes : option (list ThemeData);
  r_key_facts : option (gmap string string);
  r_suggested_topics : option (list string);
  r_emotional_tone : option string;
}.

(** What the model answers: a text, an extraction result, or an exception. *)
Inductive AIReply : Type :=
| ReplyText (text : string)
| ReplyThemes (result : ExtractResult)
| ReplyError.

(** The model itself is outside the program: its answer may depend on the
    call and on everything it was asked before. *)
Definition Oracle := list AICall -> AICall -> AIReply.

(** The state threaded through the effectful code. *)
Record World : Type := mkWorld {
  clock : nat -> datetime;   (* the successive values of utc_now() *)
  ticks : nat;               (* how many of them were read *)
  calls : list AICall;       (* the calls made to the model, oldest first *)
}.

Definition M (A : Type) : Type := World -> A * World.

Definition ret {A : Type} (a : A) : M A := fun w => (a, w).

Definition bind {A B : Type} (c : M A) (k : A -> M B) : M B :=
  fun w => let (a, w') := c w in k a w'.

Notation "x <- c ;; k" := (bind c (fun x => k))
  (at level 100, c at next level, right associativity).

(** [utc_now()]. *)
Definition utc_now : M datetime :=
  fun w => (clock w (ticks w), mkWorld (clock w) (S (ticks w)) (calls w)).

(** Send one call to the model and log it. *)
Definition ask (oracle : Oracle) (call : AICall) : M AIReply :=
  fun w => (oracle (calls w) call,
            mkWorld (clock w) (ticks w) (calls w ++ [call])).

(** A [for] loop that mutates an accumulator. *)
Fixpoint for_each {A S : Type} (xs : list A) (body : A -> S -> M S) (s : S) : M S :=
  match xs with
  | [] => ret s
  | x :: rest => s' <- body x s ;; for_each rest body s'
  end.

(** ** Enumerations *)

Inductive SectionState : Type := GENERATED | LOCKED | DRAFT | EMPTY.

Inductive UpdateMode : Type := REGENERATE | EVOLVE | APPEND | REFRESH.

Inductive ProjectionStyle : Type :=
| CHRONOLOGICAL | THEMATIC | BY_CONTRIBUTOR | QUESTIONS | FREEFORM.

Inductive ProjectionLength : Type := SUMMARY | STANDARD | COMPREHENSIVE.

Inductive MergeStrategy : Type :=
| WEAVE | SEPARATE_VOICES | SUBJECT_PRIMARY | EQUAL_VOICES | ANNOTATED.

#[global] Instance SectionState_eq_dec : EqDecision SectionState.
Proof. solve_decision. Defined.

#[global] Instance UpdateMode_eq_dec : EqDecision UpdateMode.
Proof. solve_decision. Defined.

(** [mode.value]. *)
Definition UpdateMode_value (m : UpdateMode) : string :=
  match m with
  | REGENERATE => "regenerate"
  | EVOLVE => "evolve"
  | APPEND => "append"
  | REFRESH => "refresh"
  end.

(** [UpdateMode(s)]: [None] stands for the [ValueError] of an unknown value. *)
Definition UpdateMode_of_value (s : string) : option UpdateMode :=
  if String.eqb s "regenerate" then Some REGENERATE
  else if String.eqb s "evolve" then Some EVOLVE
  else if String.eqb s "append" then Some APPEND
  else if String.eqb s "refresh" then Some REFRESH
  else None.

Definition ProjectionStyle_of_value (s : string) : option ProjectionStyle :=
  if String.eqb s "chronological" then Some CHRONOLOGICAL
  else if String.eqb s "thematic" then Some THEMATIC
  else if String.eqb s "by_contributor" then Some BY_CONTRIBUTOR
  else if String.eqb s "questions" then Some QUESTIONS
  else if String.eqb s "freeform" then Some FREEFORM
  else None.

Definition ProjectionLength_of_value (s : string) : option ProjectionLength :=
  if String.eqb s "summary" then Some SUMMARY
  else if String.eqb s "standard" then Some STANDARD
  else if String.eqb s "comprehensive" then Some COMPREHENSIVE
  else None.

(** [style.value] and [length.value]. *)
Definition ProjectionStyle_value (s : ProjectionStyle) : string :=
  match s with
  | CHRONOLOGICAL => "chronological"
  | THEMATIC => "thematic"
  | BY_CONTRIBUTOR => "by_contributor"
  | QUESTIONS => "questions"
  | FREEFORM => "freeform"
  end.

Definition ProjectionLength_value (l : ProjectionLength) : string :=
  match l with
  | SUMMARY => "summary"
  | STANDARD => "standard"
  | COMPREHENSIVE => "comprehensive"
  end.

(** ** Section version history ([SectionVersion]) *)

Module SectionVersion.

Record t : Type := mk {
  version : Z;
  content : string;
  summary : string;
  trigger : string;
  source_content_ids : list string;
  created_at : datetime;
  created_by : option string;   (* user id if manual, None if AI *)
}.

End SectionVersion.

(** ** Projected section ([ProjectedSection]) *)

Module ProjectedSection.

Record t : Type := mk {
  id : string;
  title : string;
  content : string;
  summary : string;
  source_content_ids : list string;
  contributor_ids : list string;
  primary_contributor_id : option string;
  state : SectionState;
  generated_at : option datetime;
  generation_prompt : option string;
  generation_config : gmap string string;
  locked_at : option datetime;
  locked_by : option string;
  lock_reason : option string;
  order : Z;
  version : Z;
  history : list SectionVersion.t;
  last_content_snapshot : list string;
}.

(** Attribute assignments [self.f = v]. *)
Definition set_content (v : string) (s : t) : t :=
  mk (id s) (title s) v (summary s) (source_content_ids s) (contributor_ids s) (primary_contributor_id s) (state s) (generated_at s) (generation_prompt s) (generation_config s) (locked_at s) (locked_by s) (lock_reason s) (order s) (version s) (history s) (last_content_snapshot s).

Definition set_summary (v : string) (s : t) : t :=
  mk (id s) (title s) (content s) v (source_content_ids s) (contributor_ids s) (primary_contributor_id s) (state s) (generated_at s) (generation_prompt s) (generation_config s) (locked_at s) (locked_by s) (lock_reason s) (order s) (version s) (history s) (last_content_snapshot s).

Definition set_source_content_ids (v : list string) (s : t) : t :=
  mk (id s) (title s) (content s) (summary s) v (contributor_ids s) (primary_contributor_id s) (state s) (generated_at s) (generation_prompt s) (generation_config s) (locked_at s) (locked_by s) (lock_reason s) (order s) (version s) (history s) (last_content_snapshot s).

Definition set_state (v : SectionState) (s : t) : t :=
  mk (id s) (title s) (content s) (summary s) (source_content_ids s) (contributor_ids s) (primary_contributor_id s) v (generated_at s) (generation_prompt s) (generation_config s) (locked_at s) (locked_by s) (lock_reason s) (order s) (version s) (history s) (last_content_snapshot s).

Definition set_generated_at (v : option datetime) (s : t) : t :=
  mk (id s) (title s) (content s) (summary s) (source_content_ids s) (contributor_ids s) (primary_contributor_id s) (state s) v (generation_prompt s) (generation_config s) (locked_at s) (locked_by s) (lock_reason s) (order s) (version s) (history s) (last_content_snapshot s).

Definition set_locked_at (v : option datetime) (s : t) : t :=
  mk (id s) (title s) (content s) (summary s) (source_content_ids s) (contributor_ids s) (primary_contributor_id s) (state s) (generated_at s) (generation_prompt s) (generation_config s) v (locked_by s) (lock_reason s) (order s) (version s) (history s) (last_content_snapshot s).

Definition set_locked_by (v : option string) (s : t) : t :=
  mk (id s) (title s) (content s) (summary s) (source_content_ids s) (contributor_ids s) (primary_contributor_id s) (state s) (generated_at s) (generation_prompt s) (generation_config s) (locked_at s) v (lock_reason s) (order s) (version s) (history s) (last_content_snapshot s).

Definition set_lock_reason (v : option string) (s : t) : t :=
  mk (id s) (title s) (content s) (summary s) (source_content_ids s) (contributor_ids s) (primary_contributor_id s) (state s) (generated_at s) (generation_prompt s) (generation_config s) (locked_at s) (locked_by s) v (order s) (version s) (history s) (last_content_snapshot s).

Definition set_order (v : Z) (s : t) : t :=
  mk (id s) (title s) (content s) (summary s) (source_content_ids s) (contributor_ids s) (primary_contributor_id s) (state s) (generated_at s) (generation_prompt s) (generation_config s) (locked_at s) (locked_by s) (lock_reason s) v (version s) (history s) (last_content_snapshot s).

Definition set_version (v : Z) (s : t) : t :=
  mk (id s) (title s) (content s) (summary s) (source_content_ids s) (contributor_ids s) (primary_contributor_id s) (state s) (generated_at s) (generation_prompt s) (generation_config s) (locked_at s) (locked_by s) (lock_reason s) (order s) v (history s) (last_content_snapshot s).

Definition set_history (v : list SectionVersion.t) (s : t) : t :=
  mk (id s) (title s) (content s) (summary s) (source_content_ids s) (contributor_ids s) (primary_contributor_id s) (state s) (generated_at s) (generation_prompt s) (generation_config s) (locked_at s) (locked_by s) (lock_reason s) (order s) (version s) v (last_content_snapshot s).

Definition set_last_content_snapshot (v : list string) (s : t) : t :=
  mk (id s) (title s) (content s) (summary s) (source_content_ids s) (contributor_ids s) (primary_contributor_id s) (state s) (generated_at s) (generation_prompt s) (generation_config s) (locked_at s) (locked_by s) (lock_reason s) (order s) (version s) (history s) v.

(** [lock(user_id, reason)]. *)
Definition lock (user_id reason : string) (s : t) : M t :=
  now <- utc_now ;;
  ret (set_lock_reason (Some reason)
        (set_locked_by (Some user_id)
          (set_locked_at (Some now)
            (set_state LOCKED s)))).

(** [unlock()]. *)
Definition unlock (s : t) : t :=
  set_lock_reason None
    (set_locked_by None
      (set_locked_at None
        (set_state GENERATED s))).

(** [start_editing()]. *)
Definition start_editing (s : t) : t := set_state DRAFT s.

(** [_save_to_history(trigger, user_id)]: nothing is saved for an empty
    content; otherwise the current state is appended and the list is cut
    back to its last 10 entries. *)
Definition _save_to_history (trigger : string) (user_id : option string) (s : t) : M t :=
  if negb (str_truthy (content s)) then ret s
  else
    now <- utc_now ;;
    let entry := SectionVersion.mk (version s) (content s) (summary s) trigger
                   (source_content_ids s) now user_id in
    let h := history s ++ [entry] in
    ret (set_history (if len h >? 10 then last_n 10 h else h) s).

(** [finish_editing(new_content, lock, user_id)]. *)
Definition finish_editing (new_content : string) (lock : bool)
    (user_id : option string) (s : t) : M t :=
  s1 <- _save_to_history "manual_edit" user_id s ;;
  let s2 := set_version (version s1 + 1) (set_content new_content s1) in
  if lock then
    now <- utc_now ;;
    ret (set_lock_reason (Some "manually edited")
          (set_locked_by user_id
            (set_locked_at (Some now)
              (set_state LOCKED s2))))
  else ret (set_state GENERATED s2).

(** [update_content(new_content, source_content_ids, trigger)]. *)
Definition update_content (new_content : string) (ids : list string)
    (trigger : string) (s : t) : M t :=
  s1 <- (if str_truthy (content s) then _save_to_history trigger None s else ret s) ;;
  now <- utc_now ;;
  ret (set_version (version s1 + 1)
        (set_state GENERATED
          (set_generated_at (Some now)
            (set_last_content_snapshot ids
              (set_source_content_ids ids
                (set_content new_content s1)))))).

(** [revert_to_version(version)]: the loop stops at the first history entry
    with the requested number; the boolean is the method's result. *)
Definition revert_to_version (v : Z) (s : t) : M (bool * t) :=
  match List.find (fun h => Z.eqb (SectionVersion.version h) v) (history s) with
  | Some hist =>
      s1 <- _save_to_history "revert" None s ;;
      ret (true,
           set_version (version s1 + 1)
             (set_source_content_ids (SectionVersion.source_content_ids hist)
               (set_summary (SectionVersion.summary hist)
                 (set_content (SectionVersion.content hist) s1))))
  | None => ret (false, s)
  end.

(** [is_stale(current_content_ids)]: the two lists differ as sets. *)
Definition is_stale (current_content_ids : list string) (s : t) : bool :=
  bool_decide ((list_to_set current_content_ids : gset string)
               ≠ list_to_set (last_content_snapshot s)).

(** The [is_locked] property. *)
Definition is_locked (s : t) : bool := bool_decide (state s = LOCKED).

(** The [can_regenerate] property. *)
Definition can_regenerate (s : t) : bool :=
  bool_decide (state s = GENERATED) || bool_decide (state s = EMPTY).

End ProjectedSection.

(** ** Narrative context ([DiscoveredTheme], [NarrativeContext]) *)

(** [c.lower()] on one character.  Below 256 the cased letters are A..Z
    (65..90) and the Latin-1 capitals U+00C0..U+00D6 and U+00D8..U+00DE
    (192..214, 216..222; 215 is the multiplication sign); the small letter
    of each is 32 code points further. *)
Definition lower_char (c : ascii) : ascii :=
  let n := nat_of_ascii c in
  if (((65 <=? n)%nat && (n <=? 90)%nat)
      || ((192 <=? n)%nat && (n <=? 214)%nat)
      || ((216 <=? n)%nat && (n <=? 222)%nat))%bool
  then ascii_of_nat (n + 32) else c.

(** [s.lower()]. *)
Fixpoint lower (s : string) : string :=
  match s with
  | EmptyString => EmptyString
  | String c rest => String (lower_char c) (lower rest)
  end.

Module DiscoveredTheme.

Record t : Type := mk {
  theme : string;
  description : string;
  evidence : list string;
  strength : float;             (* how strongly this theme appears (0-1) *)
  source_content_ids : list string;
}.

(** [DiscoveredTheme(theme=..., description=..., source_content_ids=...)]
    with the defaults of the other fields. *)
Definition make (theme description : string) (source_content_ids : list string) : t :=
  mk theme description [] 1%float source_content_ids.

End DiscoveredTheme.

Module NarrativeContext.

Record t : Type := mk {
  summary : string;
  key_facts : gmap string string;
  themes : list DiscoveredTheme.t;
  suggested_topics : list string;
  covered_topics : list string;
  emotional_tone : string;
  voice_notes : string;
  updated_at : datetime;
}.

Definition set_themes (v : list DiscoveredTheme.t) (c : t) : t :=
  mk (summary c) (key_facts c) v (suggested_topics c) (covered_topics c)
     (emotional_tone c) (voice_notes c) (updated_at c).

Definition set_key_facts (v : gmap string string) (c : t) : t :=
  mk (summary c) v (themes c) (suggested_topics c) (covered_topics c)
     (emotional_tone c) (voice_notes c) (updated_at c).

Definition set_suggested_topics (v : list string) (c : t) : t :=
  mk (summary c) (key_facts c) (themes c) v (covered_topics c)
     (emotional_tone c) (voice_notes c) (updated_at c).

Definition set_updated_at (v : datetime) (c : t) : t :=
  mk (summary c) (key_facts c) (themes c) (suggested_topics c) (covered_topics c)
     (emotional_tone c) (voice_notes c) v.

(** Does [existing] carry the name of [theme], letter case apart? *)
Definition same_theme (existing theme : DiscoveredTheme.t) : bool :=
  String.eqb (lower (DiscoveredTheme.theme existing)) (lower (DiscoveredTheme.theme theme)).

(** The literal [0.1] of the source: the binary64 value nearest to one
    tenth. *)
Definition strength_step : float := 0x1.999999999999ap-4%float.

(** The body of the merge branch of [add_theme]: evidence and content ids
    are extended, the strength grows by 0.1 up to 1.0. *)
Definition merge_theme (existing theme : DiscoveredTheme.t) : DiscoveredTheme.t :=
  DiscoveredTheme.mk
    (DiscoveredTheme.theme existing)
    (DiscoveredTheme.description existing)
    (DiscoveredTheme.evidence existing ++ DiscoveredTheme.evidence theme)
    (py_min 1%float (DiscoveredTheme.strength existing + strength_step)%float)
    (DiscoveredTheme.source_content_ids existing ++ DiscoveredTheme.source_content_ids theme).

(** The loop of [add_theme]: the first theme of the same name is merged and
    the method returns; [None] when the loop ends without a match. *)
Fixpoint merge_first (theme : DiscoveredTheme.t) (existing : list DiscoveredTheme.t)
    : option (list DiscoveredTheme.t) :=
  match existing with
  | [] => None
  | e :: rest =>
      if same_theme e theme then Some (merge_theme e theme :: rest)
      else match merge_first theme rest with
           | Some rest' => Some (e :: rest')
           | None => None
           end
  end.

(** [add_theme(theme)].  (Without a match the candidate object itself
    joins the list; the context that results reads the same.) *)
Definition add_theme (theme : DiscoveredTheme.t) (c : t) : t :=
  match merge_first theme (themes c) with
  | Some merged => set_themes merged c
  | None => set_themes (themes c ++ [theme]) c
  end.

(** [update()]. *)
Definition update (c : t) : M t :=
  now <- utc_now ;;
  ret (set_updated_at now c).

End NarrativeContext.

(** ** Projection configuration and versions *)

Module ProjectionConfig.

Record t : Type := mk {
  style : ProjectionStyle;
  length : ProjectionLength;
  default_update_mode : UpdateMode;
  auto_update_on_content : bool;
  contributor_filter : option (list string);
  date_range : option (datetime * datetime);
  tag_filter : option (list string);
  exclude_tags : option (list string);
  suggested_sections : option (list string);
  min_sections : Z;
  max_sections : Z;
  prompt_template : option string;
  voice_guidance : option string;
  include_empty_sections : bool;
  merge_similar : bool;
  merge_strategy : MergeStrategy;
  show_attributions : bool;
  subject_contributor_id : option string;
}.

End ProjectionConfig.

Module ProjectionVersion.

Record t : Type := mk {
  version : Z;
  created_at : datetime;
  trigger : string;
  update_mode : option UpdateMode;
  section_count : Z;
  word_count : Z;
  content_item_count : Z;
  change_summary : string;
}.

End ProjectionVersion.

(** ** Document projection ([DocumentProjection]) *)

Module DocumentProjection.

Record t : Type := mk {
  id : string;
  project_id : string;
  name : string;
  description : string;
  sections : list ProjectedSection.t;
  config : ProjectionConfig.t;
  context : NarrativeContext.t;
  version : Z;
  version_history : list ProjectionVersion.t;
  created_at : datetime;
  updated_at : datetime;
  last_regenerated : option datetime;
  content_snapshot_ids : list string;
  contributor_ids : list string;
  contributor_summary : gmap string (gmap string string);
  word_count : Z;
}.

(** Attribute assignments [self.f = v]. *)
Definition set_sections (v : list ProjectedSection.t) (p : t) : t :=
  mk (id p) (project_id p) (name p) (description p) v (config p) (context p) (version p) (version_history p) (created_at p) (updated_at p) (last_regenerated p) (content_snapshot_ids p) (contributor_ids p) (contributor_summary p) (word_count p).

Definition set_context (v : NarrativeContext.t) (p : t) : t :=
  mk (id p) (project_id p) (name p) (description p) (sections p) (config p) v (version p) (version_history p) (created_at p) (updated_at p) (last_regenerated p) (content_snapshot_ids p) (contributor_ids p) (contributor_summary p) (word_count p).

Definition set_version (v : Z) (p : t) : t :=
  mk (id p) (project_id p) (name p) (description p) (sections p) (config p) (context p) v (version_history p) (created_at p) (updated_at p) (last_regenerated p) (content_snapshot_ids p) (contributor_ids p) (contributor_summary p) (word_count p).

Definition set_version_history (v : list ProjectionVersion.t) (p : t) : t :=
  mk (id p) (project_id p) (name p) (description p) (sections p) (config p) (context p) (version p) v (created_at p) (updated_at p) (last_regenerated p) (content_snapshot_ids p) (contributor_ids p) (contributor_summary p) (word_count p).

Definition set_updated_at (v : datetime) (p : t) : t :=
  mk (id p) (project_id p) (name p) (description p) (sections p) (config p) (context p) (version p) (version_history p) (created_at p) v (last_regenerated p) (content_snapshot_ids p) (contributor_ids p) (contributor_summary p) (word_count p).

Definition set_last_regenerated (v : option datetime) (p : t) : t :=
  mk (id p) (project_id p) (name p) (description p) (sections p) (config p) (context p) (version p) (version_history p) (created_at p) (updated_at p) v (content_snapshot_ids p) (contributor_ids p) (contributor_summary p) (word_count p).

Definition set_content_snapshot_ids (v : list string) (p : t) : t :=
  mk (id p) (project_id p) (name p) (description p) (sections p) (config p) (context p) (version p) (version_history p) (created_at p) (updated_at p) (last_regenerated p) v (contributor_ids p) (contributor_summary p) (word_count p).

Definition set_word_count (v : Z) (p : t) : t :=
  mk (id p) (project_id p) (name p) (description p) (sections p) (config p) (context p) (version p) (version_history p) (created_at p) (updated_at p) (last_regenerated p) (content_snapshot_ids p) (contributor_ids p) (contributor_summary p) v.

(** A section object held by the projection is named by its position in
    [sections]: the methods that return section objects return positions,
    and a mutation of the object is an update at that position. *)
Definition section_ref := nat.

(** Position of the first section that satisfies [test]. *)
Fixpoint find_index (test : ProjectedSection.t -> bool) (l : list ProjectedSection.t)
    : option section_ref :=
  match l with
  | [] => None
  | s :: rest => if test s then Some O else option_map S (find_index test rest)
  end.

(** The positions of the sections that satisfy [test], in order: the list
    comprehension [[s for s in self.sections if test(s)]]. *)
Fixpoint select_from (i : section_ref) (test : ProjectedSection.t -> bool)
    (l : list ProjectedSection.t) : list section_ref :=
  match l with
  | [] => []
  | s :: rest => if test s then i :: select_from (S i) test rest
                 else select_from (S i) test rest
  end.

Definition select (test : ProjectedSection.t -> bool) (p : t) : list section_ref :=
  select_from O test (sections p).

(** [get_section(section_id)]. *)
Definition get_section (section_id : string) (p : t) : option section_ref :=
  find_index (fun s => String.eqb (ProjectedSection.id s) section_id) (sections p).

(** [get_section_by_title(title)]. *)
Definition get_section_by_title (title : string) (p : t) : option section_ref :=
  find_index (fun s => String.eqb (lower (ProjectedSection.title s)) (lower title))
             (sections p).

(** [_update_stats()]. *)
Definition _update_stats (p : t) : M t :=
  let total :=
    foldr Z.add 0
      (map (fun s => count_words (ProjectedSection.content s))
           (filter (fun s => str_truthy (ProjectedSection.content s) = true) (sections p))) in
  now <- utc_now ;;
  ret (set_updated_at now (set_word_count total p)).

(** [add_section(section)]. *)
Definition add_section (section : ProjectedSection.t) (p : t) : M t :=
  let section' := ProjectedSection.set_order (len (sections p)) section in
  _update_stats (set_sections (sections p ++ [section']) p).

(** [for i, section in enumerate(sections): section.order = i], counting
    from [i]. *)
Fixpoint renumber_from (i : Z) (l : list ProjectedSection.t) : list ProjectedSection.t :=
  match l with
  | [] => []
  | s :: rest => ProjectedSection.set_order i s :: renumber_from (i + 1) rest
  end.

(** [_reorder_sections()]. *)
Definition _reorder_sections (p : t) : t :=
  set_sections (renumber_from 0 (sections p)) p.

(** [remove_section(section_id)]. *)
Definition remove_section (section_id : string) (p : t) : M (bool * t) :=
  match get_section section_id p with
  | Some i =>
      p' <- _update_stats (_reorder_sections (set_sections (delete i (sections p)) p)) ;;
      ret (true, p')
  | None => ret (false, p)
  end.

(** [{s.id: s for s in self.sections}]: a later section replaces an earlier
    one of the same id. *)
Definition id_to_section (l : list ProjectedSection.t) : gmap string ProjectedSection.t :=
  foldl (fun m s => <[ProjectedSection.id s := s]> m) ∅ l.

(** The loop of [reorder_sections].  The section objects live in the dict
    [objs]; [new_order] holds references to them (their keys), so that an
    object listed twice is the same object twice, and [section.order = i]
    shows in both places. *)
Fixpoint reorder_loop (i : Z) (section_ids : list string)
    (objs : gmap string ProjectedSection.t) (new_order : list string)
    : gmap string ProjectedSection.t * list string :=
  match section_ids with
  | [] => (objs, new_order)
  | sid :: rest =>
      match objs !! sid with
      | Some section =>
          reorder_loop (i + 1) rest
            (<[sid := ProjectedSection.set_order i section]> objs)
            (new_order ++ [sid])
      | None => reorder_loop (i + 1) rest objs new_order
      end
  end.

(** [reorder_sections(section_ids)]. *)
Definition reorder_sections (section_ids : list string) (p : t) : t :=
  let '(objs, new_order) := reorder_loop 0 section_ids (id_to_section (sections p)) [] in
  set_sections (omap (fun sid => objs !! sid) new_order) p.

(** Mutate the section object at position [i]. *)
Definition update_section_at (i : section_ref) (f : ProjectedSection.t -> M ProjectedSection.t)
    (p : t) : M t :=
  match sections p !! i with
  | Some s => s' <- f s ;; ret (set_sections (<[i := s']> (sections p)) p)
  | None => ret p
  end.

(** [lock_section(section_id, user_id, reason)]. *)
Definition lock_section (section_id user_id reason : string) (p : t) : M (bool * t) :=
  match get_section section_id p with
  | Some i =>
      p' <- update_section_at i (ProjectedSection.lock user_id reason) p ;;
      ret (true, p')
  | None => ret (false, p)
  end.

(** [unlock_section(section_id)]. *)
Definition unlock_section (section_id : string) (p : t) : bool * t :=
  match get_section section_id p with
  | Some i =>
      (true, set_sections (alter ProjectedSection.unlock i (sections p)) p)
  | None => (false, p)
  end.

(** [get_locked_sections()]. *)
Definition get_locked_sections (p : t) : list section_ref :=
  select ProjectedSection.is_locked p.

(** [get_regeneratable_sections()]. *)
Definition get_regeneratable_sections (p : t) : list section_ref :=
  select ProjectedSection.can_regenerate p.

(** [get_stale_sections(current_content_ids)]. *)
Definition get_stale_sections (current_content_ids : list string) (p : t)
    : list section_ref :=
  select (fun s => ProjectedSection.can_regenerate s
                   && ProjectedSection.is_stale current_content_ids s) p.

(** [_save_version(trigger, update_mode, change_summary)]: the record is
    appended and the list is cut back to its last 20 entries. *)
Definition _save_version (trigger : string) (update_mode : option UpdateMode)
    (change_summary : string) (p : t) : M t :=
  now <- utc_now ;;
  let entry := ProjectionVersion.mk (version p) now trigger update_mode
                 (len (sections p)) (word_count p) (len (content_snapshot_ids p))
                 change_summary in
  let h := version_history p ++ [entry] in
  ret (set_version_history (if len h >? 20 then last_n 20 h else h) p).

(** [mark_updated(content_ids, update_mode, change_summary)].  The method
    stores the list object it is given.  [update_projection] hands it the
    pool's own list, so in CPython a later addition to the pool also shows
    in [content_snapshot_ids]; a projection value here holds the list as it
    reads at that moment, and the properties below are about single calls
    from arbitrary states. *)
Definition mark_updated (content_ids : list string) (update_mode : UpdateMode)
    (change_summary : string) (p : t) : M t :=
  p1 <- _save_version "update" (Some update_mode) change_summary p ;;
  t1 <- utc_now ;;
  t2 <- utc_now ;;
  _update_stats
    (set_content_snapshot_ids content_ids
      (set_last_regenerated (Some t2)
        (set_updated_at t1
          (set_version (version p1 + 1) p1)))).

(** [mark_regenerated(content_ids)]. *)
Definition mark_regenerated (content_ids : list string) (p : t) : M t :=
  mark_updated content_ids REGENERATE "Full regeneration" p.

(** One entry of ["available_modes"] in the dict of [get_update_options]. *)
Record ModeOption : Type := mkModeOption {
  mo_mode : string;
  mo_description : string;
  mo_affects_sections : Z;
}.

(** The dict returned by [get_update_options]. *)
Record UpdateOptions : Type := mkUpdateOptions {
  has_new_content : bool;
  new_content_count : Z;
  stale_section_count : Z;
  stale_section_ids : list string;
  regeneratable_count : Z;
  locked_count : Z;
  available_modes : list ModeOption;
}.

(** [[s.id for s in refs]]. *)
Definition ids_of (refs : list section_ref) (p : t) : list string :=
  omap (fun i => ProjectedSection.id <$> sections p !! i) refs.

(** [get_update_options(current_content_ids)]. *)
Definition get_update_options (current_content_ids : list string) (p : t) : UpdateOptions :=
  let stale_sections := get_stale_sections current_content_ids p in
  let regeneratable := get_regeneratable_sections p in
  let locked := get_locked_sections p in
  let new_content_count :=
    Z.of_nat (size ((list_to_set current_content_ids : gset string)
                    ∖ list_to_set (content_snapshot_ids p))) in
  mkUpdateOptions
    (new_content_count >? 0)
    new_content_count
    (len stale_sections)
    (ids_of stale_sections p)
    (len regeneratable)
    (len locked)
    [mkModeOption (UpdateMode_value EVOLVE)
       "Integrate new content while preserving existing structure" (len stale_sections);
     mkModeOption (UpdateMode_value REGENERATE)
       "Fully regenerate unlocked sections from all content" (len regeneratable);
     mkModeOption (UpdateMode_value REFRESH)
       "Only update sections with new relevant content" (len stale_sections)].

(** [get_contributor_sections(contributor_id)]. *)
Definition get_contributor_sections (contributor_id : string) (p : t) : list section_ref :=
  select (fun s => bool_decide (contributor_id ∈ ProjectedSection.contributor_ids s)) p.

(** [get_contributions_by_contributor()]: the dict of contributor id to
    section titles, filled section by section. *)
Definition get_contributions_by_contributor (p : t) : gmap string (list string) :=
  foldl (fun result section =>
           foldl (fun result contrib_id =>
                    <[contrib_id := default [] (result !! contrib_id)
                                      ++ [ProjectedSection.title section]]> result)
                 result (ProjectedSection.contributor_ids section))
        ∅ (sections p).

(** [[s.title for s in refs]]. *)
Definition titles_of (refs : list section_ref) (p : t) : list string :=
  omap (fun i => ProjectedSection.title <$> sections p !! i) refs.

End DocumentProjection.

(** ** Content pool ([ContentPool]) *)

Module ContentPool.

Record t : Type := mk {
  project_id : string;
  content_ids : list string;
  contributor_ids : gset string;
  tags : gset string;
  total_items : Z;
  last_updated : datetime;
}.

(** [add_content(content_id, contributor_id, tags)]. *)
Definition add_content (content_id contributor_id : string) (new_tags : list string)
    (pool : t) : M t :=
  if bool_decide (content_id ∈ content_ids pool) then ret pool
  else
    let ids := content_ids pool ++ [content_id] in
    now <- utc_now ;;
    ret (mk (project_id pool) ids
            (contributor_ids pool ∪ {[contributor_id]})
            (tags pool ∪ list_to_set new_tags)
            (len ids) now).

(** [get_new_content_ids(since_ids)]. *)
Definition get_new_content_ids (since_ids : list string) (pool : t) : list string :=
  let since_set : gset string := list_to_set since_ids in
  filter (fun cid => cid ∉ since_set) (content_ids pool).

(** [get_filtered_ids(contributor_filter, tag_filter)]: the filters are not
    applied by the code. *)
Definition get_filtered_ids (contributor_filter tag_filter : option (list string))
    (pool : t) : list string :=
  content_ids pool.

End ContentPool.

(** ** Content items ([ContentItem]) *)

Module ContentItem.

(** The fields the projection service reads; [content] is the type-specific
    payload dict. *)
Record t : Type := mk {
  id : string;
  project_id : string;
  contributor_id : string;
  content : gmap string string;
  tags : list string;
}.

End ContentItem.

(** ** The projection service ([ProjectionService]) *)

(** The double quote character, as a string. *)
Definition dq : string := String (ascii_of_nat 34) EmptyString.

(** The payload of a [projection.updated] event, with the event's project
    id; the envelope (event id, time stamp, correlation ids) is left out. *)
Record UpdatedEvent : Type := mkUpdatedEvent {
  ev_project_id : string;
  ev_projection_id : string;
  ev_update_mode : string;
  ev_version : Z;
  ev_sections_updated : Z;
  ev_sections_locked : Z;
  ev_word_count : Z;
}.

(** How a handler ends: it returns its events, or an exception leaves it. *)
Inductive Outcome : Type :=
| Returned (events : list UpdatedEvent)
| Raised (exception : string).

(** The keys of an update event's payload that [_handle_update] reads; an
    absent key is [None]. *)
Record UpdatePayload : Type := mkUpdatePayload {
  pl_projection_id : option string;
  pl_mode : option string;
  pl_section_ids : option (list string);
}.

(** The keys of a configuration dict that [_parse_config] reads; an absent
    key is [None]. *)
Record ConfigDict : Type := mkConfigDict {
  cd_style : option string;
  cd_length : option string;
  cd_default_update_mode : option string;
  cd_auto_update_on_content : option bool;
  cd_contributor_filter : option (list string);
  cd_tag_filter : option (list string);
  cd_suggested_sections : option (list string);
  cd_voice_guidance : option string;
}.

(** The payload of a [projection.section_updated] event. *)
Record SectionUpdatedEvent : Type := mkSectionUpdatedEvent {
  sev_project_id : string;
  sev_projection_id : string;
  sev_section_id : string;
  sev_section_title : string;
  sev_update_mode : string;
  sev_version : Z;
}.

(** How [_handle_regenerate_section] ends. *)
Inductive SectionOutcome : Type :=
| SectionReturned (events : list SectionUpdatedEvent)
| SectionRaised (exception : string).

(** The keys of the payload that [_handle_regenerate_section] reads. *)
Record RegenerateSectionPayload : Type := mkRegenerateSectionPayload {
  rs_projection_id : option string;
  rs_section_id : option string;
  rs_mode : option string;
}.

(** The payload of a [projection.regenerated] event. *)
Record RegeneratedEvent : Type := mkRegeneratedEvent {
  rev_project_id : string;
  rev_projection_id : string;
  rev_version : Z;
  rev_sections_regenerated : Z;
  rev_sections_locked : Z;
  rev_word_count : Z;
}.

Module ProjectionService.

Record t : Type := mk {
  _content_pools : gmap string ContentPool.t;          (* project_id -> pool *)
  _projections : gmap string DocumentProjection.t;     (* projection_id -> projection *)
  _project_projections : gmap string (list string);    (* project_id -> projection_ids *)
  _content_items : gmap string ContentItem.t;          (* content_id -> item *)
  _ai : option Oracle;                                 (* None: stub generation *)
}.

Definition set_projections (v : gmap string DocumentProjection.t) (svc : t) : t :=
  mk (_content_pools svc) v (_project_projections svc) (_content_items svc) (_ai svc).

(** [[self._content_items[cid] for cid in ids if cid in self._content_items]]. *)
Definition items_of (svc : t) (ids : list string) : list ContentItem.t :=
  omap (fun cid => _content_items svc !! cid) ids.

(** [_extract_texts(content_items)]. *)
Fixpoint _extract_texts (content_items : list ContentItem.t) : list string :=
  match content_items with
  | [] => []
  | item :: rest =>
      let content := ContentItem.content item in
      match content !! "answer_text" with
      | Some a =>
          let q := default "" (content !! "question_text") in
          (if str_truthy q then "Q: " +:+ q +:+ nl +:+ "A: " +:+ a else a)
            :: _extract_texts rest
      | None =>
          match content !! "text" with
          | Some text => text :: _extract_texts rest
          | None => _extract_texts rest
          end
      end
  end.

(** [_stub_generate_section(section_topic, texts, config)]. *)
Definition _stub_generate_section (section_topic : string) (texts : list string)
    (config : ProjectionConfig.t) : string :=
  let n_items := len texts in
  let preview :=
    match texts with
    | first :: _ =>
        if len (list_ascii_of_string first) >? 200
        then str_prefix 200 first +:+ "..."
        else first
    | [] => ""
    end in
  let length_desc :=
    match ProjectionConfig.length config with
    | SUMMARY => "brief"
    | STANDARD => "standard"
    | COMPREHENSIVE => "comprehensive"
    end in
  "*[AI-generated " +:+ length_desc +:+ " section about " +:+ dq +:+ section_topic
    +:+ dq +:+ "]*" +:+ nl +:+ nl
    +:+ "Based on " +:+ pretty n_items +:+ " content items." +:+ nl +:+ nl
    +:+ preview +:+ nl +:+ nl
    +:+ "---" +:+ nl +:+ nl
    +:+ "*[Configure GOOGLE_API_KEY in .env to enable real AI generation with Gemini.]*"
    +:+ nl.

(** [_generate_section_content(section_topic, content_items, config, context)]. *)
Definition _generate_section_content (svc : t) (section_topic : string)
    (content_items : list ContentItem.t) (config : ProjectionConfig.t)
    (context : NarrativeContext.t) : M string :=
  match content_items with
  | [] => ret ""
  | _ :: _ =>
      let texts := _extract_texts content_items in
      match texts with
      | [] => ret ""
      | _ :: _ =>
          let raw_content := join (nl +:+ nl) texts in
          let context_str :=
            match NarrativeContext.themes context with
            | [] => NarrativeContext.summary context
            | _ :: _ =>
                NarrativeContext.summary context +:+ nl +:+ nl +:+ "Key themes: "
                  +:+ join ", " (map DiscoveredTheme.theme
                                     (take 3 (NarrativeContext.themes context)))
            end in
          let stub := _stub_generate_section section_topic texts config in
          match _ai svc with
          | Some oracle =>
              let length :=
                match ProjectionConfig.length config with
                | SUMMARY => "brief"
                | STANDARD => "standard"
                | COMPREHENSIVE => "detailed"
                end in
              reply <- ask oracle
                         (GenerateSectionCall section_topic raw_content
                            (str_or (ProjectionConfig.voice_guidance config) "warm and engaging")
                            context_str length) ;;
              match reply with
              | ReplyText text => ret text
              | _ => ret stub
              end
          | None => ret stub
          end
      end
  end.

(** [_evolve_section_content(section_topic, existing_content, content_items,
    config, context)]. *)
Definition _evolve_section_content (svc : t) (section_topic existing_content : string)
    (content_items : list ContentItem.t) (config : ProjectionConfig.t)
    (context : NarrativeContext.t) : M string :=
  match content_items with
  | [] => ret existing_content
  | _ :: _ =>
      let texts := _extract_texts content_items in
      let new_content := join (nl +:+ nl) texts in
      let stub := _stub_generate_section section_topic texts config in
      let fallback :=
        if str_truthy existing_content
        then existing_content +:+ nl +:+ nl +:+ "---" +:+ nl +:+ nl
               +:+ "*[New content integrated:]*" +:+ nl +:+ nl +:+ stub
        else stub in
      match _ai svc with
      | Some oracle =>
          if str_truthy existing_content then
            reply <- ask oracle
                       (RegenerateSectionCall section_topic existing_content new_content
                          (str_or (ProjectionConfig.voice_guidance config) "warm and engaging")) ;;
            match reply with
            | ReplyText text => ret text
            | _ => ret fallback
            end
          else ret fallback
      | None => ret fallback
      end
  end.

(** [_update_section(projection, section, mode, content_items)]: the
    section is the only object it mutates. *)
Definition _update_section (svc : t) (projection : DocumentProjection.t)
    (mode : UpdateMode) (content_items : option (list ContentItem.t))
    (section : ProjectedSection.t) : M ProjectedSection.t :=
  let content_items :=
    match content_items with
    | Some items => items
    | None =>
        match _content_pools svc !! DocumentProjection.project_id projection with
        | Some pool => items_of svc (ContentPool.content_ids pool)
        | None => []
        end
    end in
  let config := DocumentProjection.config projection in
  let context := DocumentProjection.context projection in
  let ids := map ContentItem.id content_items in
  match mode with
  | REGENERATE =>
      new_content <- _generate_section_content svc (ProjectedSection.title section)
                       content_items config context ;;
      ProjectedSection.update_content new_content ids "regeneration" section
  | EVOLVE =>
      new_content <- _evolve_section_content svc (ProjectedSection.title section)
                       (ProjectedSection.content section) content_items config context ;;
      ProjectedSection.update_content new_content ids "evolution" section
  | APPEND =>
      let new_items :=
        filter (fun c => ContentItem.id c ∉ ProjectedSection.last_content_snapshot section)
               content_items in
      match new_items with
      | [] => ret section
      | _ :: _ =>
          appended <- _generate_section_content svc
                        ("additional content for " +:+ ProjectedSection.title section)
                        new_items config context ;;
          ProjectedSection.update_content
            (ProjectedSection.content section +:+ nl +:+ nl +:+ appended) ids "append" section
      end
  | REFRESH =>
      if ProjectedSection.is_stale ids section then
        new_content <- _generate_section_content svc (ProjectedSection.title section)
                         content_items config context ;;
        ProjectedSection.update_content new_content ids "refresh" section
      else ret section
  end.

(** The loop over [result.get("themes", [])] of [_update_narrative_context]. *)
Fixpoint add_extracted_themes (themes : list ThemeData) (ids : list string)
    (context : NarrativeContext.t) : NarrativeContext.t :=
  match themes with
  | [] => context
  | ThemeStr name :: rest =>
      add_extracted_themes rest ids
        (NarrativeContext.add_theme (DiscoveredTheme.make name "" ids) context)
  | ThemeDict theme description :: rest =>
      add_extracted_themes rest ids
        (NarrativeContext.add_theme
           (DiscoveredTheme.make (default "" theme) (default "" description) ids) context)
  | ThemeOther :: rest => add_extracted_themes rest ids context
  end.

(** The loop that appends the suggested topics not yet listed. *)
Fixpoint add_suggested_topics (topics : list string) (existing : list string) : list string :=
  match topics with
  | [] => existing
  | topic :: rest =>
      add_suggested_topics rest
        (if bool_decide (topic ∈ existing) then existing else existing ++ [topic])
  end.

(** [_update_narrative_context(context, new_items)]. *)
Definition _update_narrative_context (svc : t) (context : NarrativeContext.t)
    (new_items : list ContentItem.t) : M NarrativeContext.t :=
  match new_items with
  | [] => ret context
  | _ :: _ =>
      let texts := _extract_texts new_items in
      let all_text := join (nl +:+ nl) texts in
      context' <-
        match _ai svc with
        | Some oracle =>
            let existing_themes := map DiscoveredTheme.theme (NarrativeContext.themes context) in
            reply <- ask oracle (ExtractThemesCall all_text (Some existing_themes)) ;;
            match reply with
            | ReplyThemes result =>
                let c1 := add_extracted_themes (default [] (r_themes result))
                            (map ContentItem.id new_items) context in
                let c2 := NarrativeContext.set_key_facts
                            (default ∅ (r_key_facts result) ∪ NarrativeContext.key_facts c1) c1 in
                ret (NarrativeContext.set_suggested_topics
                       (add_suggested_topics (default [] (r_suggested_topics result))
                          (NarrativeContext.suggested_topics c2)) c2)
            | _ => ret context
            end
        | None => ret context
        end ;;
      NarrativeContext.update context'
  end.

(** The sections an update pass works on. *)
Definition sections_to_update (mode : UpdateMode) (content_ids : list string)
    (projection : DocumentProjection.t) : list DocumentProjection.section_ref :=
  match mode with
  | REGENERATE => DocumentProjection.get_regeneratable_sections projection
  | REFRESH => DocumentProjection.get_stale_sections content_ids projection
  | EVOLVE | APPEND => DocumentProjection.get_stale_sections content_ids projection
  end.

(** [update_projection(projection, mode)]. *)
Definition update_projection (svc : t) (mode : UpdateMode)
    (projection : DocumentProjection.t) : M DocumentProjection.t :=
  match _content_pools svc !! DocumentProjection.project_id projection with
  | None => ret projection
  | Some pool =>
      let config := DocumentProjection.config projection in
      let content_ids :=
        ContentPool.get_filtered_ids (ProjectionConfig.contributor_filter config)
          (ProjectionConfig.tag_filter config) pool in
      let content_items := items_of svc content_ids in
      let new_content_ids :=
        ContentPool.get_new_content_ids
          (DocumentProjection.content_snapshot_ids projection) pool in
      p1 <-
        match new_content_ids with
        | [] => ret projection
        | _ :: _ =>
            context' <- _update_narrative_context svc
                          (DocumentProjection.context projection)
                          (items_of svc new_content_ids) ;;
            ret (DocumentProjection.set_context context' projection)
        end ;;
      let to_update := sections_to_update mode content_ids p1 in
      p2 <- for_each to_update
              (fun i p =>
                 DocumentProjection.update_section_at i
                   (_update_section svc p mode (Some content_items)) p)
              p1 ;;
      let change_summary :=
        UpdateMode_value mode +:+ ": updated " +:+ pretty (len to_update) +:+ " sections"
          +:+ match new_content_ids with
              | [] => ""
              | _ :: _ => " with " +:+ pretty (len new_content_ids) +:+ " new content items"
              end in
      DocumentProjection.mark_updated content_ids mode change_summary p2
  end.

(** [_handle_update(event)], on the payload of the event.  The service is
    returned as the handler leaves it. *)
Definition _handle_update (payload : UpdatePayload) (svc : t) : M (Outcome * t) :=
  let projection_id := default "" (pl_projection_id payload) in
  let mode_str := default "evolve" (pl_mode payload) in
  match _projections svc !! projection_id with
  | None => ret (Returned [], svc)
  | Some projection =>
      match UpdateMode_of_value mode_str with
      | None => ret (Raised "ValueError", svc)
      | Some mode =>
          projection' <-
            match default [] (pl_section_ids payload) with
            | _ :: _ =>
                for_each (default [] (pl_section_ids payload))
                  (fun section_id p =>
                     match DocumentProjection.get_section section_id p with
                     | Some i =>
                         DocumentProjection.update_section_at i
                           (fun s => if ProjectedSection.can_regenerate s
                                     then _update_section svc p mode None s
                                     else ret s) p
                     | None => ret p
                     end)
                  projection
            | [] => update_projection svc mode projection
            end ;;
          ret (Returned
                 [mkUpdatedEvent
                    (DocumentProjection.project_id projection')
                    (DocumentProjection.id projection')
                    (UpdateMode_value mode)
                    (DocumentProjection.version projection')
                    (len (DocumentProjection.get_regeneratable_sections projection'))
                    (len (DocumentProjection.get_locked_sections projection'))
                    (DocumentProjection.word_count projection')],
               set_projections (<[projection_id := projection']> (_projections svc)) svc)
      end
  end.

(** [_parse_config(config_dict)]: a value that is not one of an
    enumeration's values is replaced by the default. *)
Definition _parse_config (config_dict : ConfigDict) : ProjectionConfig.t :=
  let style := default "thematic" (cd_style config_dict) in
  let length := default "standard" (cd_length config_dict) in
  let update_mode := default "evolve" (cd_default_update_mode config_dict) in
  ProjectionConfig.mk
    (default THEMATIC (ProjectionStyle_of_value style))
    (default STANDARD (ProjectionLength_of_value length))
    (default EVOLVE (UpdateMode_of_value update_mode))
    (default false (cd_auto_update_on_content config_dict))
    (cd_contributor_filter config_dict)
    None
    (cd_tag_filter config_dict)
    None
    (cd_suggested_sections config_dict)
    1 20
    None
    (cd_voice_guidance config_dict)
    false true WEAVE false None.

(** Apply a mutation to the stored projection [projection_id]. *)
Definition with_projection {A : Type} (projection_id : string) (absent : A)
    (f : DocumentProjection.t -> M (A * DocumentProjection.t)) (svc : t) : M (A * t) :=
  match _projections svc !! projection_id with
  | Some projection =>
      r <- f projection ;;
      ret (fst r, set_projections (<[projection_id := snd r]> (_projections svc)) svc)
  | None => ret (absent, svc)
  end.

(** [lock_section(projection_id, section_id, user_id, reason)]. *)
Definition lock_section (projection_id section_id user_id reason : string) (svc : t)
    : M (bool * t) :=
  with_projection projection_id false
    (DocumentProjection.lock_section section_id user_id reason) svc.

(** [unlock_section(projection_id, section_id)]. *)
Definition unlock_section (projection_id section_id : string) (svc : t) : M (bool * t) :=
  with_projection projection_id false
    (fun p => ret (DocumentProjection.unlock_section section_id p)) svc.

(** [edit_section(projection_id, section_id, new_content, lock, user_id)]. *)
Definition edit_section (projection_id section_id new_content : string) (lock : bool)
    (user_id : option string) (svc : t) : M (bool * t) :=
  with_projection projection_id false
    (fun p =>
       match DocumentProjection.get_section section_id p with
       | Some i =>
           p1 <- DocumentProjection.update_section_at i
                   (ProjectedSection.finish_editing new_content lock user_id) p ;;
           p2 <- DocumentProjection._update_stats p1 ;;
           ret (true, p2)
       | None => ret (false, p)
       end) svc.

(** [revert_section(projection_id, section_id, version)]. *)
Definition revert_section (projection_id section_id : string) (version : Z) (svc : t)
    : M (bool * t) :=
  with_projection projection_id false
    (fun p =>
       match DocumentProjection.get_section section_id p with
       | Some i =>
           match DocumentProjection.sections p !! i with
           | Some s =>
               r <- ProjectedSection.revert_to_version version s ;;
               ret (fst r, DocumentProjection.set_sections
                             (<[i := snd r]> (DocumentProjection.sections p)) p)
           | None => ret (false, p)
           end
       | None => ret (false, p)
       end) svc.

(** [_handle_regenerate(event)], on the [projection_id] of the payload. *)
Definition _handle_regenerate (projection_id : option string) (svc : t)
    : M (list RegeneratedEvent * t) :=
  let projection_id := default "" projection_id in
  match _projections svc !! projection_id with
  | None => ret ([], svc)
  | Some projection =>
      projection' <- update_projection svc REGENERATE projection ;;
      ret ([mkRegeneratedEvent
              (DocumentProjection.project_id projection')
              (DocumentProjection.id projection')
              (DocumentProjection.version projection')
              (len (DocumentProjection.get_regeneratable_sections projection'))
              (len (DocumentProjection.get_locked_sections projection'))
              (DocumentProjection.word_count projection')],
           set_projections (<[projection_id := projection']> (_projections svc)) svc)
  end.

(** [_handle_regenerate_section(event)], on the payload of the event. *)
Definition _handle_regenerate_section (payload : RegenerateSectionPayload) (svc : t)
    : M (SectionOutcome * t) :=
  let projection_id := default "" (rs_projection_id payload) in
  let section_id := default "" (rs_section_id payload) in
  let mode_str := default "regenerate" (rs_mode payload) in
  match _projections svc !! projection_id with
  | None => ret (SectionReturned [], svc)
  | Some projection =>
      match DocumentProjection.get_section section_id projection with
      | None => ret (SectionReturned [], svc)
      | Some i =>
          match DocumentProjection.sections projection !! i with
          | None => ret (SectionReturned [], svc)
          | Some section =>
              if negb (ProjectedSection.can_regenerate section)
              then ret (SectionReturned [], svc)
              else
                match UpdateMode_of_value mode_str with
                | None => ret (SectionRaised "ValueError", svc)
                | Some mode =>
                    section' <- _update_section svc projection mode None section ;;
                    let projection' :=
                      DocumentProjection.set_sections
                        (<[i := section']> (DocumentProjection.sections projection))
                        projection in
                    ret (SectionReturned
                           [mkSectionUpdatedEvent
                              (DocumentProjection.project_id projection')
                              (DocumentProjection.id projection')
                              (ProjectedSection.id section')
                              (ProjectedSection.title section')
                              (UpdateMode_value mode)
                              (ProjectedSection.version section')],
                         set_projections
                           (<[projection_id := projection']> (_projections svc)) svc)
                end
          end
      end
  end.

(** [get_projection(projection_id)]. *)
Definition get_projection (projection_id : string) (svc : t)
    : option DocumentProjection.t :=
  _projections svc !! projection_id.

(** [get_update_options(projection_id)]. *)
Definition get_update_options (projection_id : string) (svc : t)
    : option DocumentProjection.UpdateOptions :=
  match _projections svc !! projection_id with
  | None => None
  | Some projection =>
      match _content_pools svc !! DocumentProjection.project_id projection with
      | None => Some (DocumentProjection.get_update_options [] projection)
      | Some pool =>
          Some (DocumentProjection.get_update_options (ContentPool.content_ids pool)
                  projection)
      end
  end.

(** [config.to_dict()], on the keys that [_parse_config] reads: the dict
    has no ["auto_update_on_content"], and its ["min_sections"] and
    ["max_sections"] are not read back. *)
Definition to_dict (config : ProjectionConfig.t) : ConfigDict :=
  mkConfigDict
    (Some (ProjectionStyle_value (ProjectionConfig.style config)))
    (Some (ProjectionLength_value (ProjectionConfig.length config)))
    (Some (UpdateMode_value (ProjectionConfig.default_update_mode config)))
    None
    (ProjectionConfig.contributor_filter config)
    (ProjectionConfig.tag_filter config)
    (ProjectionConfig.suggested_sections config)
    (ProjectionConfig.voice_guidance config).

End ProjectionService.

(** * Specification vocabulary *)

(** Short names for the classes. *)
Module PS := ProjectedSection.
Module DP := DocumentProjection.
Module NC := NarrativeContext.
Module Svc := ProjectionService.

(** The world after one more reading of the clock. *)
Definition tick (w : World) : World := mkWorld (clock w) (S (ticks w)) (calls w).

(** The content-mutating calls of a section. *)
Inductive SectionCall : Type :=
| CallUpdateContent (new_content : string) (source_content_ids : list string) (trigger : string)
| CallFinishEditing (new_content : string) (lock : bool) (user_id : option string)
| CallRevertToVersion (version : Z).

Definition run_section_call (call : SectionCall) (s : ProjectedSection.t)
    : M ProjectedSection.t :=
  match call with
  | CallUpdateContent new_content ids trigger =>
      ProjectedSection.update_content new_content ids trigger s
  | CallFinishEditing new_content lock user_id =>
      ProjectedSection.finish_editing new_content lock user_id s
  | CallRevertToVersion v =>
      r <- ProjectedSection.revert_to_version v s ;; ret (snd r)
  end.

Definition run_section_calls (calls : list SectionCall) (s : ProjectedSection.t)
    : M ProjectedSection.t :=
  for_each calls run_section_call s.

(** A [mark_updated] call with its arguments. *)
Record MarkUpdated : Type := mkMarkUpdated {
  mu_content_ids : list string;
  mu_update_mode : UpdateMode;
  mu_change_summary : string;
}.

Definition run_mark_updated (calls : list MarkUpdated) (p : DocumentProjection.t)
    : M DocumentProjection.t :=
  for_each calls
    (fun c => DocumentProjection.mark_updated (mu_content_ids c) (mu_update_mode c)
                (mu_change_summary c))
    p.

(** [new] is [old] with [e] appended and then cut to capacity [cap] from the
    front: the entries dropped are the oldest ones, and as few as needed. *)
Definition fifo_push {A : Type} (cap : nat) (old : list A) (e : A) (new : list A) : Prop :=
  exists evicted : list A,
    old ++ [e] = evicted ++ new
    /\ length evicted = (length (old ++ [e]) - cap)%nat.

(** The snapshot of a section's current state that [_save_to_history]
    builds. *)
Definition snapshot_of (s : ProjectedSection.t) (trigger : string) (now : datetime)
    (user_id : option string) : SectionVersion.t :=
  SectionVersion.mk (ProjectedSection.version s) (ProjectedSection.content s)
    (ProjectedSection.summary s) trigger (ProjectedSection.source_content_ids s)
    now user_id.

(** The first history entry of a section that carries version [v]. *)
Definition history_entry (v : Z) (s : ProjectedSection.t) : option SectionVersion.t :=
  List.find (fun h => Z.eqb (SectionVersion.version h) v) (ProjectedSection.history s).

(** The word count the sections of a projection have now. *)
Definition words_of_sections (l : list ProjectedSection.t) : Z :=
  foldr Z.add 0 (map (fun s => count_words (ProjectedSection.content s)) l).

(** The position of the last occurrence of [sid] in [ids], counting from
    [i]: the value of the loop variable of [reorder_sections] when it last
    met [sid]. *)
Fixpoint last_position_from (i : Z) (ids : list string) (sid : string) : option Z :=
  match ids with
  | [] => None
  | x :: rest =>
      match last_position_from (i + 1) rest sid with
      | Some k => Some k
      | None => if String.eqb x sid then Some i else None
      end
  end.

(** The section [s] with the order that the loop of [reorder_sections]
    leaves in it. *)
Definition relabel (i : Z) (ids : list string) (sid : string)
    (s : ProjectedSection.t) : ProjectedSection.t :=
  match last_position_from i ids sid with
  | Some k => ProjectedSection.set_order k s
  | None => s
  end.

(** A projection with the single section ["a"]. *)
Definition projection_one_section : DocumentProjection.t :=
  DocumentProjection.mk "doc1" "proj1" "Test" "" 
    [ProjectedSection.mk "a" "Chapter" "Text" "" [] [] None GENERATED None None ∅
       None None None 0 1 [] []]
    (ProjectionService._parse_config (mkConfigDict None None None None None None None None))
    (NarrativeContext.mk "" ∅ [] [] [] "neutral" "" 0)
    1 [] 0 0 None [] [] ∅ 1.

(** A projection with the two sections ["a"] and ["b"]. *)
Definition projection_two_sections : DocumentProjection.t :=
  DocumentProjection.mk "doc1" "proj1" "Test" ""
    [ProjectedSection.mk "a" "Chapter 1" "Text" "" [] [] None GENERATED None None ∅
       None None None 0 1 [] [];
     ProjectedSection.mk "b" "Chapter 2" "More text" "" [] [] None GENERATED None None ∅
       None None None 1 1 [] []]
    (ProjectionService._parse_config (mkConfigDict None None None None None None None None))
    (NarrativeContext.mk "" ∅ [] [] [] "neutral" "" 0)
    1 [] 0 0 None [] [] ∅ 3.







(** The orders of the sections are their positions: 0, 1, 2, ... *)
Definition dense_orders (l : list ProjectedSection.t) : Prop :=
  forall (i : nat) s, l !! i = Some s -> ProjectedSection.order s = Z.of_nat i.

(** The numbers of a list grow strictly and stay below [bound]. *)
Definition increasing_below (bound : Z) (l : list Z) : Prop :=
  (forall (i j : nat) x y, (i < j)%nat -> l !! i = Some x -> l !! j = Some y -> x < y)
  /\ (forall x, x ∈ l -> x < bound).

(** A section's history is in order: the versions recorded grow strictly,
    and all lie below the section's current version. *)
Definition history_in_order (s : ProjectedSection.t) : Prop :=
  increasing_below (ProjectedSection.version s)
    (map SectionVersion.version (ProjectedSection.history s)).

(** The same for the version history of a projection. *)
Definition version_history_in_order (p : DocumentProjection.t) : Prop :=
  increasing_below (DocumentProjection.version p)
    (map ProjectionVersion.version (DocumentProjection.version_history p)).

(** What an automated update never changes in a section. *)
Definition same_frame (s s' : ProjectedSection.t) : Prop :=
  ProjectedSection.id s' = ProjectedSection.id s
  /\ ProjectedSection.title s' = ProjectedSection.title s
  /\ ProjectedSection.order s' = ProjectedSection.order s
  /\ ProjectedSection.summary s' = ProjectedSection.summary s
  /\ ProjectedSection.contributor_ids s' = ProjectedSection.contributor_ids s.

(** The content of [s'] starts with the content of [s]. *)
Definition content_extends (s s' : ProjectedSection.t) : Prop :=
  exists rest, ProjectedSection.content s' = ProjectedSection.content s +:+ rest.

(** A language model that is down: every call raises. *)
Definition failing_model : Oracle := fun _ _ => ReplyError.

(** The service with another language model. *)
Definition with_ai (ai : option Oracle) (svc : ProjectionService.t) : ProjectionService.t :=
  ProjectionService.mk (ProjectionService._content_pools svc)
    (ProjectionService._projections svc) (ProjectionService._project_projections svc)
    (ProjectionService._content_items svc) ai.

(** Two worlds with the same clock, read as often: they may differ in the
    calls logged. *)
Definition same_time (w w' : World) : Prop :=
  clock w = clock w' /\ ticks w = ticks w'.

(** Two computations agree when, started at the same time, they give the
    same result and end at the same time: they may differ in the calls they
    make to the model. *)
Definition agree {A : Type} (f g : M A) : Prop :=
  forall w w', same_time w w' ->
    fst (f w) = fst (g w') /\ same_time (snd (f w)) (snd (g w')).

(** Every theme of [l] is still in [l'], at the same place, under the same
    name and description. *)
Definition themes_kept (l l' : list DiscoveredTheme.t) : Prop :=
  forall (i : nat) t, l !! i = Some t ->
    exists t', l' !! i = Some t'
      /\ DiscoveredTheme.theme t' = DiscoveredTheme.theme t
      /\ DiscoveredTheme.description t' = DiscoveredTheme.description t.

(** A computation that sends at most [n] calls to the model, and leaves the
    calls logged before in place. *)
Definition sends_at_most {A : Type} (n : nat) (f : M A) : Prop :=
  forall w, exists sent,
    calls (snd (f w)) = calls w ++ sent /\ (length sent <= n)%nat.

(** What a call to the model may cost the service: nothing without a
    model. *)
Definition call_cost (svc : ProjectionService.t) : nat :=
  match ProjectionService._ai svc with
  | Some _ => 1
  | None => 0
  end.

(** An empty pool, as [ContentPool(project_id=...)] at instant 0. *)
Definition empty_pool (project_id : string) : ContentPool.t :=
  ContentPool.mk project_id [] ∅ ∅ 0 0.

(** * Example states *)

(** A world whose clock shows 0, 1, 2, ... and where no call was made. *)
Definition w0 : World := mkWorld (fun n => Z.of_nat n) 0 [].

(** [ProjectionConfig()]: the configuration with every default. *)
Definition default_config : ProjectionConfig.t :=
  ProjectionService._parse_config (mkConfigDict None None None None None None None None).

(** [NarrativeContext()], created at instant 0. *)
Definition empty_context : NarrativeContext.t :=
  NarrativeContext.mk "" ∅ [] [] [] "neutral" "" 0.

(** [ProjectedSection(id=..., title=..., content=..., state=...)], with a
    given content snapshot. *)
Definition section_with (id title content : string) (state : SectionState)
    (snapshot : list string) : ProjectedSection.t :=
  ProjectedSection.mk id title content "" snapshot [] None state None None ∅
    None None None 0 1 [] snapshot.

(** A projection of project ["proj1"] with the given sections, whose last
    update saw the content ids [seen]. *)
Definition projection_with (sections : list ProjectedSection.t) (seen : list string)
    (word_count : Z) : DocumentProjection.t :=
  DocumentProjection.mk "doc1" "proj1" "Test" "" sections default_config empty_context
    1 [] 0 0 None seen [] ∅ word_count.

(** The content item of the test suite, and a second one. *)
Definition item_c1 : ContentItem.t :=
  ContentItem.mk "c1" "proj1" "contrib1"
    {["answer_text" := "I grew up on a farm in Iowa."]} ["childhood"].

Definition item_c2 : ContentItem.t :=
  ContentItem.mk "c2" "proj1" "contrib1"
    {["answer_text" := "New story about school."]} ["education"].

(** The pool of ["proj1"] holding the ids ["c1"] and ["c2"]. *)
Definition pool_c1_c2 : ContentPool.t :=
  ContentPool.mk "proj1" ["c1"; "c2"] {["contrib1"]} {["childhood"; "education"]} 2 0.

(** A service that knows both ids of the pool but holds the item of ["c1"]
    only: ["c2"] reached the pool through a [content.created] event, which
    adds the id to the pool and nothing to the item cache. *)
Definition service_missing_item : ProjectionService.t :=
  ProjectionService.mk {["proj1" := pool_c1_c2]} ∅ ∅ {["c1" := item_c1]} None.

(** A projection with one generated section, built from ["c1"]. *)
Definition projection_family : DocumentProjection.t :=
  projection_with [section_with "sec1" "Family" "Old prose" GENERATED ["c1"]]
    ["c1"; "c2"] 2.

(** A service for project ["proj1"] that holds both items; [ai] is its
    language model, if any. *)
Definition service_two_items (ai : option Oracle) : ProjectionService.t :=
  ProjectionService.mk {["proj1" := pool_c1_c2]} ∅ ∅
    {["c1" := item_c1; "c2" := item_c2]} ai.

(** A language model that answers every call with the same text. *)
Definition constant_model (text : string) : Oracle := fun _ _ => ReplyText text.

(** A projection with a locked section and a generated one, both built from
    ["c1"]. *)
Definition projection_locked : DocumentProjection.t :=
  projection_with
    [section_with "sec1" "Family" "Approved prose" LOCKED ["c1"];
     section_with "sec2" "Education" "Old prose" GENERATED ["c1"]]
    ["c1"; "c2"] 4.

(** A section at version 2 whose history holds its version 1. *)
Definition section_edited : ProjectedSection.t :=
  ProjectedSection.mk "sec1" "Chapter" "one two three" "" ["c1"] [] None GENERATED
    None None ∅ None None None 0 2
    [SectionVersion.mk 1 "one" "" "generation" ["c1"] 0 None] ["c1"].

(** A service that stores a projection holding [section_edited], with the
    word count of its content. *)
Definition service_edited : ProjectionService.t :=
  ProjectionService.mk {["proj1" := pool_c1_c2]}
    {["doc1" := projection_with [section_edited] ["c1"; "c2"] 3]}
    {["proj1" := ["doc1"]]}
    {["c1" := item_c1; "c2" := item_c2]} None.

(** A section with an empty content, at version 2, whose history holds its
    version 1. *)
Definition section_emptied : ProjectedSection.t :=
  ProjectedSection.mk "sec1" "Chapter" "" "" [] [] None GENERATED
    None None ∅ None None None 0 2
    [SectionVersion.mk 1 "one" "" "manual_edit" ["c1"] 0 None] [].

(** A projection with a section by ["ann"] and ["bob"] and one by ["bob"]. *)
Definition projection_two_contributors : DocumentProjection.t :=
  projection_with
    [ProjectedSection.mk "s1" "Family" "x" "" [] ["ann"; "bob"] None GENERATED
       None None ∅ None None None 0 1 [] [];
     ProjectedSection.mk "s2" "School" "y" "" [] ["bob"] None GENERATED
       None None ∅ None None None 1 1 [] []]
    [] 2.




(** * Properties of sections *)

Section MonadFacts.

Context {A B : Type}.

Lemma bind_run (c : M A) (k : A -> M B) (w : World) :
  bind c k w = k (fst (c w)) (snd (c w)).
Proof. unfold bind. destruct (c w); reflexivity. Qed.

Lemma ret_run (a : A) (w : World) : ret a w = (a, w).
Proof. reflexivity. Qed.

End MonadFacts.

Lemma for_each_cons {A S : Type} (x : A) (xs : list A) (body : A -> S -> M S)
    (s : S) (w : World) :
  for_each (x :: xs) body s w
  = for_each xs body (fst (body x s w)) (snd (body x s w)).
Proof. cbn [for_each]. rewrite bind_run. reflexivity. Qed.

(** Rewrite a monadic run into its steps. *)
Ltac run_monad :=
  repeat (rewrite ?bind_run, ?ret_run; cbn [fst snd]).

Section LastN.

Context {A : Type}.
Implicit Types (l : list A) (n : nat).

Lemma last_n_length n l : length (last_n n l) = Nat.min n (length l).
Proof. unfold last_n. rewrite length_drop. lia. Qed.

Lemma last_n_short n l : (length l <= n)%nat -> last_n n l = l.
Proof.
  intros H. unfold last_n.
  replace (length l - n)%nat with 0%nat by lia. reflexivity.
Qed.

Lemma last_n_split n l : l = take (length l - n) l ++ last_n n l.
Proof. unfold last_n. symmetry. apply take_drop. Qed.

(** The trimming [if len(h) > cap: h = h[-cap:]] is [last_n] in all cases. *)
Lemma trim_last_n n l :
  (if len l >? Z.of_nat n then last_n n l else l) = last_n n l.
Proof.
  unfold len. destruct (Z.gtb_spec (Z.of_nat (length l)) (Z.of_nat n)) as [H | H].
  - reflexivity.
  - symmetry. apply last_n_short. lia.
Qed.

Lemma fifo_push_last_n n l (e : A) : fifo_push n l e (last_n n (l ++ [e])).
Proof.
  exists (take (length (l ++ [e]) - n) (l ++ [e])). split.
  - apply last_n_split.
  - rewrite length_take. lia.
Qed.

End LastN.

(** What [_save_to_history] does, in one equation. *)
Lemma save_to_history_run trigger user_id s w :
  PS._save_to_history trigger user_id s w =
  if str_truthy (PS.content s)
  then (PS.set_history
          (last_n 10 (PS.history s ++ [snapshot_of s trigger (clock w (ticks w)) user_id])) s,
        tick w)
  else (s, w).
Proof.
  unfold PS._save_to_history.
  destruct (str_truthy (PS.content s)); cbn [negb]; [| reflexivity].
  run_monad. unfold utc_now; cbn [fst snd].
  change 10 with (Z.of_nat 10). rewrite trim_last_n. reflexivity.
Qed.

(** [_save_to_history] only ever changes the history. *)
Lemma save_to_history_fields trigger user_id s w :
  let s' := fst (PS._save_to_history trigger user_id s w) in
  PS.content s' = PS.content s /\ PS.summary s' = PS.summary s
  /\ PS.version s' = PS.version s
  /\ PS.source_content_ids s' = PS.source_content_ids s
  /\ PS.state s' = PS.state s
  /\ PS.last_content_snapshot s' = PS.last_content_snapshot s.
Proof.
  rewrite save_to_history_run.
  destruct (str_truthy (PS.content s)); cbn; repeat split; reflexivity.
Qed.

Lemma save_to_history_bound trigger user_id s w :
  (length (PS.history s) <= 10)%nat ->
  (length (PS.history (fst (PS._save_to_history trigger user_id s w))) <= 10)%nat.
Proof.
  intros H. rewrite save_to_history_run.
  destruct (str_truthy (PS.content s)); cbn; [| exact H].
  rewrite last_n_length. lia.
Qed.

(** The history after a content-mutating call is the history that
    [_save_to_history] leaves, or the one before the call. *)
Lemma section_call_history call s w :
  PS.history (fst (run_section_call call s w)) = PS.history s
  \/ exists trigger user_id,
       PS.history (fst (run_section_call call s w))
       = PS.history (fst (PS._save_to_history trigger user_id s w)).
Proof.
  destruct call as [new_content ids trigger | new_content lock user_id | v]; cbn.
  - unfold PS.update_content.
    destruct (str_truthy (PS.content s)) eqn:Hc.
    + right. exists trigger, None. run_monad. reflexivity.
    + left. run_monad. reflexivity.
  - right. exists "manual_edit", user_id. unfold PS.finish_editing. run_monad.
    destruct lock; run_monad; reflexivity.
  - unfold PS.revert_to_version.
    destruct (List.find _ (PS.history s)).
    + right. exists "revert", None. run_monad. reflexivity.
    + left. run_monad. reflexivity.
Qed.

Lemma section_call_bound call s w :
  (length (PS.history s) <= 10)%nat ->
  (length (PS.history (fst (run_section_call call s w))) <= 10)%nat.
Proof.
  intros H.
  destruct (section_call_history call s w) as [-> | (trigger & user_id & ->)].
  - exact H.
  - apply save_to_history_bound, H.
Qed.

Lemma section_calls_bound calls : forall s w,
  (length (PS.history s) <= 10)%nat ->
  (length (PS.history (fst (run_section_calls calls s w))) <= 10)%nat.
Proof.
  unfold run_section_calls.
  induction calls as [| call calls IH]; intros s w H.
  - exact H.
  - rewrite for_each_cons. apply IH, section_call_bound, H.
Qed.

(** What [_save_version] does, in one equation. *)
Lemma save_version_run trigger mode summary p w :
  DP._save_version trigger mode summary p w =
  (DP.set_version_history
     (last_n 20
        (DP.version_history p ++
           [ProjectionVersion.mk (DP.version p) (clock w (ticks w)) trigger mode
              (len (DP.sections p)) (DP.word_count p) (len (DP.content_snapshot_ids p))
              summary])) p,
   tick w).
Proof.
  unfold DP._save_version. run_monad. unfold utc_now; cbn [fst snd].
  change 20 with (Z.of_nat 20). rewrite trim_last_n. reflexivity.
Qed.

(** What [mark_updated] does to the version counter and to the history. *)
Lemma mark_updated_fields content_ids mode summary p w :
  let p' := fst (DP.mark_updated content_ids mode summary p w) in
  DP.version p' = DP.version p + 1
  /\ DP.version_history p' = DP.version_history (fst (DP._save_version "update" (Some mode) summary p w))
  /\ DP.sections p' = DP.sections p
  /\ DP.content_snapshot_ids p' = content_ids
  /\ DP.word_count p'
     = foldr Z.add 0
         (map (fun s => count_words (PS.content s))
              (filter (fun s => str_truthy (PS.content s) = true) (DP.sections p))).
Proof.
  unfold DP.mark_updated. run_monad. unfold DP._update_stats. run_monad.
  rewrite save_version_run. cbn. repeat split; reflexivity.
Qed.

Lemma mark_updated_bound content_ids mode summary p w :
  (length (DP.version_history (fst (DP.mark_updated content_ids mode summary p w))) <= 20)%nat.
Proof.
  destruct (mark_updated_fields content_ids mode summary p w) as (_ & -> & _).
  rewrite save_version_run. cbn. rewrite last_n_length. lia.
Qed.

Lemma run_mark_updated_bound calls : forall p w,
  (length (DP.version_history p) <= 20)%nat ->
  (length (DP.version_history (fst (run_mark_updated calls p w))) <= 20)%nat.
Proof.
  unfold run_mark_updated.
  induction calls as [| c calls IH]; intros p w H.
  - exact H.
  - rewrite for_each_cons. apply IH, mark_updated_bound.
Qed.

(** C3. History bound with FIFO eviction.  Whatever content-mutating calls are
    made on a section whose history holds at most 10 entries, it still holds at
    most 10 afterwards; each call leaves the history as it was or as
    [_save_to_history] leaves it, and [_save_to_history] on a non-empty section
    appends the snapshot of the current state and evicts from the front only.
    The same holds of [mark_updated] and a projection's [version_history],
    with capacity 20. *)
Theorem history_bound_fifo :
  (forall calls s w,
      (length (PS.history s) <= 10)%nat ->
      (length (PS.history (fst (run_section_calls calls s w))) <= 10)%nat)
  /\ (forall call s w,
        PS.history (fst (run_section_call call s w)) = PS.history s
        \/ exists trigger user_id,
             PS.history (fst (run_section_call call s w))
             = PS.history (fst (PS._save_to_history trigger user_id s w)))
  /\ (forall trigger user_id s w,
        str_truthy (PS.content s) = true ->
        fifo_push 10 (PS.history s)
          (snapshot_of s trigger (clock w (ticks w)) user_id)
          (PS.history (fst (PS._save_to_history trigger user_id s w))))
  /\ (forall calls p w,
        (length (DP.version_history p) <= 20)%nat ->
        (length (DP.version_history (fst (run_mark_updated calls p w))) <= 20)%nat)
  /\ (forall content_ids mode summary p w,
        fifo_push 20 (DP.version_history p)
          (ProjectionVersion.mk (DP.version p) (clock w (ticks w)) "update" (Some mode)
             (len (DP.sections p)) (DP.word_count p) (len (DP.content_snapshot_ids p))
             summary)
          (DP.version_history (fst (DP.mark_updated content_ids mode summary p w)))).
Proof.
  split; [exact section_calls_bound |].
  split; [exact section_call_history |].
  split.
  { intros trigger user_id s w Hc. rewrite save_to_history_run, Hc. cbn.
    apply fifo_push_last_n. }
  split; [exact run_mark_updated_bound |].
  intros content_ids mode summary p w.
  destruct (mark_updated_fields content_ids mode summary p w) as (_ & -> & _).
  rewrite save_version_run. cbn. apply fifo_push_last_n.
Qed.

Lemma update_content_run new_content ids trigger s w :
  let s1 := fst ((if str_truthy (PS.content s)
                  then PS._save_to_history trigger None s else ret s) w) in
  let w1 := snd ((if str_truthy (PS.content s)
                  then PS._save_to_history trigger None s else ret s) w) in
  PS.update_content new_content ids trigger s w =
  (PS.set_version (PS.version s1 + 1)
     (PS.set_state GENERATED
        (PS.set_generated_at (Some (clock w1 (ticks w1)))
           (PS.set_last_content_snapshot ids
              (PS.set_source_content_ids ids
                 (PS.set_content new_content s1))))),
   tick w1).
Proof. unfold PS.update_content. run_monad. reflexivity. Qed.

Lemma update_content_fields new_content ids trigger s w :
  let s' := fst (PS.update_content new_content ids trigger s w) in
  PS.content s' = new_content
  /\ PS.version s' = PS.version s + 1
  /\ PS.source_content_ids s' = ids
  /\ PS.last_content_snapshot s' = ids
  /\ PS.state s' = GENERATED.
Proof.
  rewrite update_content_run. cbn.
  repeat split; try reflexivity.
  destruct (str_truthy (PS.content s)); [| reflexivity].
  f_equal. apply save_to_history_fields.
Qed.

Lemma finish_editing_version new_content lock user_id s w :
  PS.version (fst (PS.finish_editing new_content lock user_id s w)) = PS.version s + 1.
Proof.
  unfold PS.finish_editing. run_monad.
  destruct lock; run_monad; cbn; f_equal; apply save_to_history_fields.
Qed.

(** [revert_to_version], case by case on the first history entry that
    carries the requested version. *)
Lemma revert_to_version_run v s w :
  PS.revert_to_version v s w =
  match history_entry v s with
  | Some hist =>
      let s1 := fst (PS._save_to_history "revert" None s w) in
      ((true,
        PS.set_version (PS.version s1 + 1)
          (PS.set_source_content_ids (SectionVersion.source_content_ids hist)
             (PS.set_summary (SectionVersion.summary hist)
                (PS.set_content (SectionVersion.content hist) s1)))),
       snd (PS._save_to_history "revert" None s w))
  | None => ((false, s), w)
  end.
Proof.
  unfold PS.revert_to_version, history_entry.
  destruct (List.find _ (PS.history s)); run_monad; reflexivity.
Qed.

Lemma revert_result_iff v s w :
  fst (fst (PS.revert_to_version v s w)) = true <-> is_Some (history_entry v s).
Proof.
  rewrite revert_to_version_run.
  destruct (history_entry v s); cbn; split; intros H; done.
Qed.

(** C4. Version monotonicity.  [update_content], [finish_editing] and a
    successful [revert_to_version] each increase the section's version by
    exactly 1, and [mark_updated] increases the projection's version by
    exactly 1. *)
Theorem version_monotonicity :
  (forall new_content ids trigger s w,
      PS.version (fst (PS.update_content new_content ids trigger s w)) = PS.version s + 1)
  /\ (forall new_content lock user_id s w,
        PS.version (fst (PS.finish_editing new_content lock user_id s w)) = PS.version s + 1)
  /\ (forall v s w,
        fst (fst (PS.revert_to_version v s w)) = true ->
        PS.version (snd (fst (PS.revert_to_version v s w))) = PS.version s + 1)
  /\ (forall content_ids mode summary p w,
        DP.version (fst (DP.mark_updated content_ids mode summary p w)) = DP.version p + 1).
Proof.
  split.
  { intros new_content ids trigger s w.
    destruct (update_content_fields new_content ids trigger s w) as (_ & H & _). exact H. }
  split; [exact finish_editing_version |].
  split.
  - intros v s w. rewrite revert_to_version_run.
    destruct (history_entry v s); cbn; [intros _ | discriminate].
    f_equal. apply save_to_history_fields.
  - intros content_ids mode summary p w.
    destruct (mark_updated_fields content_ids mode summary p w) as (H & _). exact H.
Qed.

Lemma history_entry_none v s :
  history_entry v s = None <->
  forall h, h ∈ PS.history s -> SectionVersion.version h <> v.
Proof.
  unfold history_entry. split.
  - intros Hnone h Hin Hv.
    apply list_elem_of_In in Hin.
    pose proof (List.find_none _ _ Hnone h Hin) as Hf. cbn in Hf.
    apply Z.eqb_neq in Hf. contradiction.
  - intros Hall.
    destruct (List.find _ (PS.history s)) as [h |] eqn:Hf; [| reflexivity].
    apply List.find_some in Hf as [Hin Hv].
    apply Z.eqb_eq in Hv. apply list_elem_of_In in Hin.
    exfalso. exact (Hall h Hin Hv).
Qed.

Lemma history_entry_some v s hist :
  history_entry v s = Some hist ->
  hist ∈ PS.history s /\ SectionVersion.version hist = v.
Proof.
  unfold history_entry. intros Hf.
  apply List.find_some in Hf as [Hin Hv].
  split; [by apply list_elem_of_In | by apply Z.eqb_eq].
Qed.

(** C5 (amended). Revert semantics.  When no history entry has version [v],
    [revert_to_version v] returns [False] and leaves the section (and the
    world) as it was.  Otherwise, with [hist] the first entry of that
    version, it returns [True]; the content, summary and source content ids
    are those of [hist]; the version is one more than before; and the state
    before the revert is pushed to the history when the current content is
    not empty, while for an empty content the history is left as it is. *)
Theorem revert_semantics v s w :
  ((forall h, h ∈ PS.history s -> SectionVersion.version h <> v) ->
   PS.revert_to_version v s w = ((false, s), w))
  /\ (forall hist,
        history_entry v s = Some hist ->
        let s' := snd (fst (PS.revert_to_version v s w)) in
        hist ∈ PS.history s /\ SectionVersion.version hist = v
        /\ fst (fst (PS.revert_to_version v s w)) = true
        /\ PS.content s' = SectionVersion.content hist
        /\ PS.summary s' = SectionVersion.summary hist
        /\ PS.source_content_ids s' = SectionVersion.source_content_ids hist
        /\ PS.version s' = PS.version s + 1
        /\ PS.history s'
           = if str_truthy (PS.content s)
             then last_n 10 (PS.history s ++ [snapshot_of s "revert" (clock w (ticks w)) None])
             else PS.history s)
  /\ ((exists h, h ∈ PS.history s /\ SectionVersion.version h = v) ->
      is_Some (history_entry v s)).
Proof.
  split; [| split].
  - intros Hnone. apply history_entry_none in Hnone.
    rewrite revert_to_version_run, Hnone. reflexivity.
  - intros hist Hh. destruct (history_entry_some _ _ _ Hh) as [Hin Hv].
    rewrite revert_to_version_run, Hh. cbn.
    repeat split; try assumption; try reflexivity.
    + f_equal. apply save_to_history_fields.
    + rewrite save_to_history_run.
      destruct (str_truthy (PS.content s)); reflexivity.
  - intros (h & Hin & Hv).
    destruct (history_entry v s) eqn:Hh; [by eexists |].
    exfalso. exact (proj1 (history_entry_none v s) Hh h Hin Hv).
Qed.

(** * Properties of the update engine *)

Lemma for_each_invariant {A S : Type} (I : S -> Prop) (xs : list A) (body : A -> S -> M S) :
  (forall x s w, x ∈ xs -> I s -> I (fst (body x s w))) ->
  forall s w, I s -> I (fst (for_each xs body s w)).
Proof.
  induction xs as [| x xs IH]; intros Hbody s w Hs.
  - exact Hs.
  - rewrite for_each_cons. apply IH.
    + intros y s' w' Hy. apply Hbody. by right.
    + apply Hbody; [by left | exact Hs].
Qed.

Lemma update_section_at_run i f p w :
  DP.update_section_at i f p w =
  match DP.sections p !! i with
  | Some s => (DP.set_sections (<[i := fst (f s w)]> (DP.sections p)) p, snd (f s w))
  | None => (p, w)
  end.
Proof.
  unfold DP.update_section_at.
  destruct (DP.sections p !! i); run_monad; reflexivity.
Qed.

(** Updating the section at one position leaves the others alone. *)
Lemma update_section_at_other i j f p w :
  i <> j ->
  DP.sections (fst (DP.update_section_at i f p w)) !! j = DP.sections p !! j.
Proof.
  intros Hij. rewrite update_section_at_run.
  destruct (DP.sections p !! i); cbn; [| reflexivity].
  by apply list_lookup_insert_ne.
Qed.

Lemma update_section_at_same i f p w s :
  DP.sections p !! i = Some s ->
  DP.sections (fst (DP.update_section_at i f p w)) !! i = Some (fst (f s w)).
Proof.
  intros Hi. rewrite update_section_at_run, Hi. cbn.
  apply list_lookup_insert_eq. by eapply lookup_lt_Some.
Qed.

(** A selected position holds a section that passes the test. *)
Lemma elem_of_select_from test l : forall i0 i,
  i ∈ DP.select_from i0 test l ->
  exists s, l !! (i - i0)%nat = Some s /\ test s = true /\ (i0 <= i)%nat.
Proof.
  induction l as [| s l IH]; intros i0 i Hin; cbn in Hin.
  - by apply elem_of_nil in Hin.
  - destruct (test s) eqn:Ht.
    + apply elem_of_cons in Hin as [-> | Hin].
      * exists s. rewrite Nat.sub_diag. auto.
      * destruct (IH _ _ Hin) as (s' & Hl & Hs' & Hle).
        exists s'. split; [| split; [exact Hs' | lia]].
        replace (i - i0)%nat with (S (i - S i0)) by lia. exact Hl.
    + destruct (IH _ _ Hin) as (s' & Hl & Hs' & Hle).
      exists s'. split; [| split; [exact Hs' | lia]].
      replace (i - i0)%nat with (S (i - S i0)) by lia. exact Hl.
Qed.

Lemma elem_of_select test p i :
  i ∈ DP.select test p -> exists s, DP.sections p !! i = Some s /\ test s = true.
Proof.
  intros Hin. destruct (elem_of_select_from _ _ _ _ Hin) as (s & Hl & Hs & _).
  exists s. rewrite Nat.sub_0_r in Hl. auto.
Qed.

(** Every candidate of an update pass can be regenerated, in every mode. *)
Lemma sections_to_update_regeneratable mode content_ids p i :
  i ∈ Svc.sections_to_update mode content_ids p ->
  exists s, DP.sections p !! i = Some s /\ PS.can_regenerate s = true.
Proof.
  unfold Svc.sections_to_update, DP.get_regeneratable_sections, DP.get_stale_sections.
  intros Hin.
  destruct mode; apply elem_of_select in Hin as (s & Hl & Hs); exists s;
    (split; [exact Hl |]); try exact Hs;
    apply andb_true_iff in Hs; apply Hs.
Qed.

Lemma locked_not_regeneratable s : PS.state s = LOCKED -> PS.can_regenerate s = false.
Proof. unfold PS.can_regenerate. intros ->. reflexivity. Qed.

(** The candidates of a pass depend on the sections only. *)
Lemma sections_to_update_ext mode content_ids p p' :
  DP.sections p = DP.sections p' ->
  Svc.sections_to_update mode content_ids p = Svc.sections_to_update mode content_ids p'.
Proof.
  unfold Svc.sections_to_update, DP.get_regeneratable_sections, DP.get_stale_sections,
    DP.select.
  intros ->. reflexivity.
Qed.

(** The shape of an update pass: the narrative context is brought up to
    date first (which leaves the sections alone), then the candidates are
    updated one by one, then the projection is marked as updated. *)
Lemma update_projection_sections svc mode p w pool :
  Svc._content_pools svc !! DP.project_id p = Some pool ->
  exists p1 w1,
    DP.sections p1 = DP.sections p
    /\ DP.sections (fst (Svc.update_projection svc mode p w))
       = DP.sections
           (fst (for_each
                   (Svc.sections_to_update mode (ContentPool.content_ids pool) p1)
                   (fun i p0 =>
                      DP.update_section_at i
                        (Svc._update_section svc p0 mode
                           (Some (Svc.items_of svc (ContentPool.content_ids pool)))) p0)
                   p1 w1)).
Proof.
  intros Hpool. unfold Svc.update_projection. rewrite Hpool.
  unfold ContentPool.get_filtered_ids.
  destruct (ContentPool.get_new_content_ids (DP.content_snapshot_ids p) pool) as [| c cs] eqn:Hnew.
  - exists p, w. split; [reflexivity |]. run_monad.
    match goal with |- DP.sections (fst (DP.mark_updated ?a ?b ?c ?d ?e)) = _ =>
      destruct (mark_updated_fields a b c d e) as (_ & _ & -> & _) end.
    reflexivity.
  - run_monad.
    match goal with |- context [Svc._update_narrative_context ?a ?b ?c w] =>
      exists (DP.set_context (fst (Svc._update_narrative_context a b c w)) p),
             (snd (Svc._update_narrative_context a b c w)) end.
    split; [reflexivity |].
    match goal with |- DP.sections (fst (DP.mark_updated ?a ?b ?c ?d ?e)) = _ =>
      destruct (mark_updated_fields a b c d e) as (_ & _ & -> & _) end.
    reflexivity.
Qed.

(** A locked section is not a candidate of any pass. *)
Lemma locked_not_candidate mode content_ids p (i : nat) s :
  DP.sections p !! i = Some s ->
  PS.state s = LOCKED ->
  i ∉ Svc.sections_to_update mode content_ids p.
Proof.
  intros Hi Hlocked Hin.
  apply sections_to_update_regeneratable in Hin as (s' & Hl & Hs').
  assert (Heq : Some s' = Some s) by (rewrite <- Hl; exact Hi).
  injection Heq as ->.
  rewrite (locked_not_regeneratable _ Hlocked) in Hs'. discriminate.
Qed.

(** [update_projection] returns a locked section as it was. *)
Lemma update_projection_keeps_locked svc mode p w (i : nat) s :
  DP.sections p !! i = Some s ->
  PS.state s = LOCKED ->
  DP.sections (fst (Svc.update_projection svc mode p w)) !! i = Some s.
Proof.
  intros Hi Hlocked.
  destruct (Svc._content_pools svc !! DP.project_id p) as [pool |] eqn:Hpool.
  - destruct (update_projection_sections svc mode p w pool Hpool) as (p1 & w1 & Hp1 & ->).
    assert (Hi1 : DP.sections p1 !! i = Some s) by (by rewrite Hp1).
    apply (for_each_invariant (fun p0 => DP.sections p0 !! i = Some s)); [| exact Hi1].
    intros j p0 w0 Hj Hp0.
    rewrite update_section_at_other; [exact Hp0 |].
    intros ->. by apply (locked_not_candidate mode (ContentPool.content_ids pool) p1 i s).
  - unfold Svc.update_projection. rewrite Hpool. exact Hi.
Qed.

(** The section-scoped loop of [_handle_update] returns a locked section as
    it was, even when the request names it. *)
Lemma scoped_update_keeps_locked svc mode section_ids p w (i : nat) s :
  DP.sections p !! i = Some s ->
  PS.state s = LOCKED ->
  DP.sections
    (fst (for_each section_ids
            (fun section_id p0 =>
               match DP.get_section section_id p0 with
               | Some j =>
                   DP.update_section_at j
                     (fun s0 => if PS.can_regenerate s0
                                then Svc._update_section svc p0 mode None s0
                                else ret s0) p0
               | None => ret p0
               end) p w)) !! i = Some s.
Proof.
  intros Hi Hlocked.
  apply (for_each_invariant (fun p0 => DP.sections p0 !! i = Some s)); [| exact Hi].
  intros section_id p0 w0 _ Hp0.
  destruct (DP.get_section section_id p0) as [j |]; [| exact Hp0].
  destruct (decide (j = i)) as [-> | Hji].
  - rewrite (update_section_at_same _ _ _ _ s) by exact Hp0.
    by rewrite (locked_not_regeneratable _ Hlocked).
  - by rewrite update_section_at_other.
Qed.

(** C1. Lock inviolability.  A section in state LOCKED is never among the
    candidates of an update pass, whatever the mode and the content ids, and
    after [update_projection] in any mode the projection holds, at the same
    position, the very same section: content, summary, version and every
    other field are unchanged.  The same holds of an update request handled
    by [_handle_update], whether it names sections or not. *)
Theorem lock_inviolability svc mode p w i s :
  DP.sections p !! i = Some s ->
  PS.state s = LOCKED ->
  (forall content_ids, i ∉ Svc.sections_to_update mode content_ids p)
  /\ DP.sections (fst (Svc.update_projection svc mode p w)) !! i = Some s
  /\ (forall payload,
        Svc._projections svc !! default "" (pl_projection_id payload) = Some p ->
        exists p',
          Svc._projections (snd (fst (Svc._handle_update payload svc w)))
            !! default "" (pl_projection_id payload) = Some p'
          /\ DP.sections p' !! i = Some s).
Proof.
  intros Hi Hlocked.
  split; [intros content_ids; by eapply locked_not_candidate |].
  split; [by apply update_projection_keeps_locked |].
  intros payload Hp. unfold Svc._handle_update. rewrite Hp.
  destruct (UpdateMode_of_value (default "evolve" (pl_mode payload))) as [mode' |].
  - run_monad. eexists. cbn [Svc._projections Svc.set_projections].
    split; [apply lookup_insert_eq |].
    destruct (default [] (pl_section_ids payload)) as [| section_id section_ids].
    + by apply update_projection_keeps_locked.
    + by apply scoped_update_keeps_locked.
  - exists p. split; [exact Hp | exact Hi].
Qed.

(** ** Staleness *)

Lemma is_stale_false_iff ids s :
  PS.is_stale ids s = false <->
  (list_to_set ids : gset string) = list_to_set (PS.last_content_snapshot s).
Proof.
  unfold PS.is_stale. rewrite bool_decide_eq_false. split.
  - intros H. by apply dec_stable.
  - intros H Hne. by apply Hne.
Qed.

Lemma is_stale_symmetric_difference ids s :
  PS.is_stale ids s = true <->
  (list_to_set (PS.last_content_snapshot s) ∖ list_to_set ids)
    ∪ (list_to_set ids ∖ list_to_set (PS.last_content_snapshot s)) ≠ (∅ : gset string).
Proof.
  unfold PS.is_stale. rewrite bool_decide_eq_true.
  set (A := list_to_set ids : gset string).
  set (B := list_to_set (PS.last_content_snapshot s) : gset string).
  split.
  - intros Hne Hempty. apply Hne. apply set_eq. intros x.
    assert (Hx : x ∉ (B ∖ A) ∪ (A ∖ B)) by (rewrite Hempty; apply not_elem_of_empty).
    rewrite elem_of_union, !elem_of_difference in Hx.
    destruct (decide (x ∈ A)) as [Ha | Ha], (decide (x ∈ B)) as [Hb | Hb]; tauto.
  - intros Hne Heq. apply Hne. rewrite Heq. apply set_eq. intros x.
    rewrite elem_of_union, !elem_of_difference. split; [tauto |].
    intros Hx. by apply not_elem_of_empty in Hx.
Qed.

(** A section just written by [update_content] is not stale against the
    ids it was written from. *)
Lemma update_content_not_stale new_content ids trigger s w :
  PS.is_stale ids (fst (PS.update_content new_content ids trigger s w)) = false.
Proof.
  apply is_stale_false_iff.
  destruct (update_content_fields new_content ids trigger s w) as (_ & _ & _ & -> & _).
  reflexivity.
Qed.

(** After [_update_section] in mode REGENERATE or REFRESH the section is not
    stale against the ids of the content items the call worked from. *)
Lemma update_section_not_stale svc p mode items s w :
  mode = REGENERATE \/ mode = REFRESH ->
  PS.is_stale (map ContentItem.id items)
    (fst (Svc._update_section svc p mode (Some items) s w)) = false.
Proof.
  intros [-> | ->]; unfold Svc._update_section.
  - run_monad. apply update_content_not_stale.
  - destruct (PS.is_stale (map ContentItem.id items) s) eqn:Hstale.
    + run_monad. apply update_content_not_stale.
    + exact Hstale.
Qed.

(** A loop that updates sections in place establishes [Q] at every position
    it visits, when each single update does. *)
Lemma for_each_update_touched (Q : PS.t -> Prop)
    (F : DP.t -> PS.t -> M PS.t) :
  (forall p s w, Q (fst (F p s w))) ->
  forall (cands : list nat) p w (j : nat),
    (j ∈ cands /\ is_Some (DP.sections p !! j))
    \/ (exists s, DP.sections p !! j = Some s /\ Q s) ->
    exists s',
      DP.sections (fst (for_each cands (fun i p0 => DP.update_section_at i (F p0) p0) p w)) !! j
      = Some s' /\ Q s'.
Proof.
  intros HF cands. induction cands as [| i cands IH]; intros p w j H.
  - destruct H as [[Hin _] | H]; [by apply elem_of_nil in Hin | exact H].
  - rewrite for_each_cons. apply IH.
    destruct (decide (i = j)) as [-> | Hij].
    + right.
      assert (Hsome : is_Some (DP.sections p !! j)).
      { destruct H as [[_ H] | (s & H & _)]; [exact H | by eexists]. }
      destruct Hsome as [s Hs].
      exists (fst (F p s w)). split; [| apply HF].
      by apply update_section_at_same.
    + rewrite update_section_at_other by exact Hij.
      destruct H as [[Hin Hsome] | H]; [left | right; exact H].
      split; [| exact Hsome].
      apply elem_of_cons in Hin as [-> | Hin]; [done | exact Hin].
Qed.

(** When every id has its item in the cache, stored under that id, the
    items resolved from a list of ids carry exactly these ids. *)
Lemma items_of_ids svc ids :
  (forall cid, cid ∈ ids ->
     exists item, Svc._content_items svc !! cid = Some item /\ ContentItem.id item = cid) ->
  map ContentItem.id (Svc.items_of svc ids) = ids.
Proof.
  unfold Svc.items_of. induction ids as [| cid ids IH]; intros H; cbn.
  - reflexivity.
  - destruct (H cid) as (item & Hitem & Hid); [by left |].
    rewrite Hitem. cbn. rewrite Hid. f_equal.
    apply IH. intros c Hc. apply H. by right.
Qed.

(** C7 (amended). Staleness correctness.  [is_stale] answers true exactly
    when the symmetric difference between the section's last content
    snapshot and the given ids is not empty.  After an update pass in mode
    REGENERATE or REFRESH, every section the pass selected is not stale
    against the ids of the content items the pass resolved from the item
    cache; these are the pool's filtered ids whenever each of them has its
    item in the cache under that very id. *)
Theorem staleness_correctness :
  (forall ids s,
      PS.is_stale ids s = true <->
      (list_to_set (PS.last_content_snapshot s) ∖ list_to_set ids)
        ∪ (list_to_set ids ∖ list_to_set (PS.last_content_snapshot s)) ≠ (∅ : gset string))
  /\ (forall svc mode p w pool (i : nat),
        mode = REGENERATE \/ mode = REFRESH ->
        Svc._content_pools svc !! DP.project_id p = Some pool ->
        i ∈ Svc.sections_to_update mode (ContentPool.content_ids pool) p ->
        exists s',
          DP.sections (fst (Svc.update_projection svc mode p w)) !! i = Some s'
          /\ PS.is_stale
               (map ContentItem.id (Svc.items_of svc (ContentPool.content_ids pool))) s'
             = false)
  /\ (forall svc ids,
        (forall cid, cid ∈ ids ->
           exists item, Svc._content_items svc !! cid = Some item
                        /\ ContentItem.id item = cid) ->
        map ContentItem.id (Svc.items_of svc ids) = ids).
Proof.
  split; [exact is_stale_symmetric_difference |].
  split; [| exact items_of_ids].
  intros svc mode p w pool i Hmode Hpool Hin.
  destruct (update_projection_sections svc mode p w pool Hpool) as (p1 & w1 & Hp1 & ->).
  rewrite (sections_to_update_ext _ _ p p1) in Hin by (symmetry; exact Hp1).
  apply (for_each_update_touched
           (fun s => PS.is_stale
                       (map ContentItem.id (Svc.items_of svc (ContentPool.content_ids pool))) s
                     = false)
           (fun p0 => Svc._update_section svc p0 mode
                        (Some (Svc.items_of svc (ContentPool.content_ids pool))))).
  - intros p0 s w'. by apply update_section_not_stale.
  - left. split; [exact Hin |].
    apply sections_to_update_regeneratable in Hin as (s & Hs & _). by eexists.
Qed.

(** C7, the claim as stated fails: the pool holds ["c1"] and ["c2"], the item
    cache holds ["c1"] only.  The REGENERATE pass selects the section,
    rewrites it from the one item it could resolve, and the section is stale
    against the pool's ids, the id set the pass used, right afterwards. *)
Lemma regenerate_leaves_section_stale :
  Svc.sections_to_update REGENERATE (ContentPool.content_ids pool_c1_c2) projection_family
  = [0%nat]
  /\ exists s',
       DP.sections (fst (Svc.update_projection service_missing_item REGENERATE
                           projection_family w0)) !! 0%nat = Some s'
       /\ PS.last_content_snapshot s' = ["c1"]
       /\ PS.version s' = 2
       /\ PS.is_stale (ContentPool.content_ids pool_c1_c2) s' = true.
Proof.
  split; [vm_compute; reflexivity |].
  eexists. split; [vm_compute; reflexivity |].
  split; [reflexivity |]. split; [reflexivity |].
  vm_compute. reflexivity.
Qed.

(** ** Reordering sections *)

Lemma set_order_set_order k i s : PS.set_order k (PS.set_order i s) = PS.set_order k s.
Proof. reflexivity. Qed.

Lemma last_position_from_head i x rest sid :
  x <> sid ->
  last_position_from i (x :: rest) sid = last_position_from (i + 1) rest sid.
Proof.
  intros Hne. cbn. destruct (last_position_from (i + 1) rest sid); [reflexivity |].
  destruct (String.eqb_spec x sid); [contradiction | reflexivity].
Qed.

(** The loop of [reorder_sections]: the references collected are the listed
    ids that name an object, and each object ends with the order set at the
    last occurrence of its id. *)
Lemma reorder_loop_spec ids : forall i objs refs,
  snd (DP.reorder_loop i ids objs refs)
  = refs ++ filter (fun sid => is_Some (objs !! sid)) ids
  /\ forall sid,
       fst (DP.reorder_loop i ids objs refs) !! sid = relabel i ids sid <$> objs !! sid.
Proof.
  induction ids as [| x rest IH]; intros i objs refs.
  - cbn. split; [by rewrite app_nil_r |].
    intros sid. unfold relabel. cbn. by destruct (objs !! sid).
  - cbn [DP.reorder_loop]. destruct (objs !! x) as [sec |] eqn:Hx.
    + destruct (IH (i + 1) (<[x := PS.set_order i sec]> objs) (refs ++ [x])) as [Hrefs Hobjs].
      split.
      * rewrite Hrefs, filter_cons_True by (by rewrite Hx).
        rewrite <- app_assoc. cbn. do 2 f_equal.
        apply list_filter_iff. intros sid.
        destruct (decide (x = sid)) as [-> | Hne].
        -- rewrite lookup_insert_eq, Hx. split; intros _; by eexists.
        -- by rewrite lookup_insert_ne.
      * intros sid. rewrite Hobjs.
        destruct (decide (x = sid)) as [-> | Hne].
        -- rewrite lookup_insert_eq, Hx. cbn. f_equal. unfold relabel. cbn.
           destruct (last_position_from (i + 1) rest sid); [reflexivity |].
           by rewrite String.eqb_refl.
        -- rewrite lookup_insert_ne by exact Hne.
           unfold relabel. by rewrite last_position_from_head.
    + destruct (IH (i + 1) objs refs) as [Hrefs Hobjs].
      split.
      * rewrite Hrefs, filter_cons_False; [reflexivity |].
        rewrite Hx. by intros [? ?].
      * intros sid. rewrite Hobjs.
        destruct (decide (x = sid)) as [-> | Hne].
        -- by rewrite Hx.
        -- unfold relabel. by rewrite last_position_from_head.
Qed.

(** [last_position_from] finds an occurrence of the id, and the last one. *)
Lemma last_position_from_spec ids : forall i sid k,
  last_position_from i ids sid = Some k ->
  exists n : nat,
    k = i + Z.of_nat n /\ ids !! n = Some sid
    /\ forall n' : nat, ids !! n' = Some sid -> (n' <= n)%nat.
Proof.
  induction ids as [| x rest IH]; intros i sid k H; [discriminate |].
  cbn in H. destruct (last_position_from (i + 1) rest sid) as [k' |] eqn:Hrest.
  - injection H as <-. destruct (IH _ _ _ Hrest) as (n & -> & Hn & Hlast).
    exists (S n). split; [lia |]. split; [exact Hn |].
    intros [| n'] Hn'; [lia |]. apply le_n_S, Hlast, Hn'.
  - destruct (String.eqb_spec x sid) as [-> | Hne]; [| discriminate].
    injection H as <-. exists 0%nat. split; [lia |]. split; [reflexivity |].
    intros [| n'] Hn'; [lia |]. exfalso.
    assert (Hsome : is_Some (last_position_from (i + 1) rest sid)).
    { clear -Hn'. cbn in Hn'. revert n' i Hn'.
      induction rest as [| y rest IHr]; intros n' i Hn'; [by destruct n' |].
      cbn. destruct (last_position_from (i + 1 + 1) rest sid) eqn:E; [by eexists |].
      destruct n' as [| n'].
      - cbn in Hn'. injection Hn' as ->. rewrite String.eqb_refl. by eexists.
      - cbn in Hn'. destruct (IHr n' (i + 1) Hn') as [? Hk]. congruence. }
    rewrite Hrest in Hsome. by destruct Hsome.
Qed.

Lemma last_position_from_is_Some ids i sid :
  sid ∈ ids -> is_Some (last_position_from i ids sid).
Proof.
  revert i. induction ids as [| x rest IH]; intros i Hin; [by apply elem_of_nil in Hin |].
  cbn. destruct (last_position_from (i + 1) rest sid) eqn:E; [by eexists |].
  apply elem_of_cons in Hin as [-> | Hin].
  - rewrite String.eqb_refl. by eexists.
  - destruct (IH (i + 1) Hin) as [? Hk]. congruence.
Qed.

(** The dict [{s.id: s for s in sections}], generalised over the dict built
    so far. *)
Lemma id_to_section_acc l : forall (m : gmap string PS.t) sid,
  (forall s, foldl (fun m s => <[PS.id s := s]> m) m l !! sid = Some s ->
             (s ∈ l /\ PS.id s = sid) \/ m !! sid = Some s)
  /\ (is_Some (foldl (fun m s => <[PS.id s := s]> m) m l !! sid)
      <-> sid ∈ map PS.id l \/ is_Some (m !! sid)).
Proof.
  induction l as [| x l IH]; intros m sid; cbn [foldl].
  - split; [by right |]. cbn. split; [by right |].
    intros [Hin | H]; [by apply elem_of_nil in Hin | exact H].
  - destruct (IH (<[PS.id x := x]> m) sid) as [IH1 IH2]. split.
    + intros s Hs. destruct (IH1 s Hs) as [[Hin Hid] | Hm].
      * left. split; [by right | exact Hid].
      * destruct (decide (PS.id x = sid)) as [Heq | Hne].
        -- rewrite <- Heq, lookup_insert_eq in Hm. injection Hm as <-.
           left. split; [by left | exact Heq].
        -- rewrite lookup_insert_ne in Hm by exact Hne. by right.
    + rewrite IH2. cbn [map]. rewrite elem_of_cons.
      destruct (decide (PS.id x = sid)) as [Heq | Hne].
      * rewrite <- Heq, lookup_insert_eq. split; [intros _ | intros _; right; by eexists].
        left. by left.
      * rewrite lookup_insert_ne by exact Hne. split.
        -- intros [H | H]; [left; by right | by right].
        -- intros [[H | H] | H]; [congruence | by left | by right].
Qed.

Lemma id_to_section_some l sid s :
  DP.id_to_section l !! sid = Some s -> s ∈ l /\ PS.id s = sid.
Proof.
  intros H. destruct (proj1 (id_to_section_acc l ∅ sid) s H) as [H' | H']; [exact H' |].
  by rewrite lookup_empty in H'.
Qed.

Lemma id_to_section_is_Some l sid :
  is_Some (DP.id_to_section l !! sid) <-> sid ∈ map PS.id l.
Proof.
  unfold DP.id_to_section. rewrite (proj2 (id_to_section_acc l ∅ sid)).
  rewrite lookup_empty. split; [intros [H | [? H]]; [exact H | discriminate] | by left].
Qed.

Lemma omap_pointwise {A B : Type} (f g : A -> option B) (l : list A) :
  (forall x, f x = g x) -> omap f l = omap g l.
Proof.
  intros H. induction l as [| x l IH]; [reflexivity |].
  csimpl. by rewrite H, IH.
Qed.

Lemma relabel_id i ids sid s : PS.id (relabel i ids sid s) = PS.id s.
Proof. unfold relabel. by destruct (last_position_from i ids sid). Qed.

(** The sections after [reorder_sections], one per listed id that names a
    section. *)
Lemma reorder_sections_run section_ids p :
  DP.sections (DP.reorder_sections section_ids p)
  = omap (fun sid => relabel 0 section_ids sid <$> DP.id_to_section (DP.sections p) !! sid)
         (filter (fun sid => sid ∈ map PS.id (DP.sections p)) section_ids).
Proof.
  unfold DP.reorder_sections.
  destruct (reorder_loop_spec section_ids 0 (DP.id_to_section (DP.sections p)) [])
    as [Hrefs Hobjs].
  destruct (DP.reorder_loop 0 section_ids (DP.id_to_section (DP.sections p)) [])
    as [objs refs]. cbn [fst snd] in *. cbn [DP.sections DP.set_sections].
  rewrite Hrefs. cbn [app].
  rewrite (list_filter_iff _ (fun sid => sid ∈ map PS.id (DP.sections p)))
    by (intros sid; apply id_to_section_is_Some).
  apply omap_pointwise. exact Hobjs.
Qed.

Lemma filter_all {A : Type} (P : A -> Prop) `{!forall x, Decision (P x)} (l : list A) :
  (forall x, x ∈ l -> P x) -> filter P l = l.
Proof.
  induction l as [| x l IH]; intros Hall; [reflexivity |].
  rewrite filter_cons_True by (apply Hall; by left).
  f_equal. apply IH. intros y Hy. apply Hall. by right.
Qed.

Lemma omap_lookup_total {A B : Type} (f : A -> option B) (l : list A) :
  (forall x, x ∈ l -> is_Some (f x)) ->
  forall j : nat, omap f l !! j = l !! j ≫= f.
Proof.
  induction l as [| x l IH]; intros H j; [reflexivity |].
  csimpl. destruct (H x) as [y Hy]; [by left |]. rewrite Hy.
  destruct j as [| j]; cbn; [by rewrite Hy |].
  apply IH. intros z Hz. apply H. by right.
Qed.

Lemma omap_ids (f : string -> option PS.t) (l : list string) :
  (forall sid, sid ∈ l -> exists s, f sid = Some s /\ PS.id s = sid) ->
  map PS.id (omap f l) = l.
Proof.
  induction l as [| x l IH]; intros H; [reflexivity |].
  csimpl. destruct (H x) as (s & Hs & Hid); [by left |]. rewrite Hs. cbn.
  rewrite Hid. f_equal. apply IH. intros sid Hsid. apply H. by right.
Qed.

(** What [reorder_sections] stores for a listed id that names a section. *)
Lemma reorder_entry section_ids p sid :
  sid ∈ section_ids -> sid ∈ map PS.id (DP.sections p) ->
  exists (k : nat) s,
    relabel 0 section_ids sid <$> DP.id_to_section (DP.sections p) !! sid
    = Some (PS.set_order (Z.of_nat k) s)
    /\ section_ids !! k = Some sid
    /\ (forall k' : nat, section_ids !! k' = Some sid -> (k' <= k)%nat)
    /\ s ∈ DP.sections p /\ PS.id s = sid.
Proof.
  intros Hlisted Hknown.
  apply id_to_section_is_Some in Hknown as [s Hs].
  destruct (last_position_from_is_Some section_ids 0 sid Hlisted) as [k Hk].
  destruct (last_position_from_spec _ _ _ _ Hk) as (n & -> & Hn & Hlast).
  destruct (id_to_section_some _ _ _ Hs) as [Hin Hid].
  exists n, s. rewrite Hs. cbn. unfold relabel. rewrite Hk. auto.
Qed.

(** What [reorder_sections section_ids] does on every input.  It keeps one
    entry per occurrence in the list of an id that names a section, in the
    order of the list: sections whose id is not listed are removed, and
    listed ids that name no section are ignored.  Each kept entry is the
    section of that id with its order set to the position of the last
    occurrence of the id in the given list, a position that counts the ids
    that name no section too.  So the orders are the dense 0..k-1 only when
    the listed ids are distinct and each names a section. *)
Theorem reorder_sections_spec section_ids p :
  map PS.id (DP.sections (DP.reorder_sections section_ids p))
  = filter (fun sid => sid ∈ map PS.id (DP.sections p)) section_ids
  /\ (forall (j : nat) s',
        DP.sections (DP.reorder_sections section_ids p) !! j = Some s' ->
        exists (k : nat) s,
          section_ids !! k = Some (PS.id s')
          /\ (forall k' : nat, section_ids !! k' = Some (PS.id s') -> (k' <= k)%nat)
          /\ s ∈ DP.sections p
          /\ s' = PS.set_order (Z.of_nat k) s)
  /\ (NoDup section_ids ->
      (forall sid, sid ∈ section_ids -> sid ∈ map PS.id (DP.sections p)) ->
      forall (j : nat) s',
        DP.sections (DP.reorder_sections section_ids p) !! j = Some s' ->
        PS.order s' = Z.of_nat j).
Proof.
  rewrite reorder_sections_run.
  split; [| split].
  - apply omap_ids. intros sid Hsid.
    apply list_elem_of_filter in Hsid as [Hknown Hlisted].
    destruct (reorder_entry section_ids p sid Hlisted Hknown)
      as (k & s & -> & _ & _ & _ & Hid).
    eexists. split; [reflexivity | exact Hid].
  - intros j s' Hj.
    apply list_elem_of_lookup_2 in Hj.
    apply list_elem_of_omap in Hj as (sid & Hsid & Hf).
    apply list_elem_of_filter in Hsid as [Hknown Hlisted].
    destruct (reorder_entry section_ids p sid Hlisted Hknown)
      as (k & s & Hentry & Hk & Hlast & Hin & Hid).
    rewrite Hentry in Hf. injection Hf as <-.
    exists k, s. cbn [PS.id PS.set_order]. rewrite Hid. auto.
  - intros Hnodup Hall j s' Hj.
    rewrite filter_all in Hj by exact Hall.
    rewrite omap_lookup_total in Hj.
    + destruct (section_ids !! j) as [sid |] eqn:Hsid; [| discriminate]. cbn in Hj.
      assert (Hlisted : sid ∈ section_ids) by (by eapply list_elem_of_lookup_2).
      destruct (reorder_entry section_ids p sid Hlisted (Hall sid Hlisted))
        as (k & s & Hentry & Hk & _).
      rewrite Hentry in Hj. injection Hj as <-. cbn.
      f_equal. eapply NoDup_lookup; eassumption.
    + intros sid Hlisted.
      destruct (reorder_entry section_ids p sid Hlisted (Hall sid Hlisted))
        as (k & s & -> & _). by eexists.
Qed.

(** C10, the code at a failing input.  The projection has the single section
    ["a"], and the list is [["x"; "a"]], whose first id names no section.
    [reorder_sections] keeps the section ["a"] alone, as the claim says, but
    gives it order 1, where the dense numbering 0..k-1 asks for 0: the id
    that was ignored still advanced the counter.  The renumbering that
    [remove_section] uses, [_reorder_sections], gives the same section its
    position, 0. *)
Lemma reorder_sections_order_not_dense :
  map PS.id (DP.sections (DP.reorder_sections ["x"; "a"] projection_one_section)) = ["a"]
  /\ map PS.order (DP.sections (DP.reorder_sections ["x"; "a"] projection_one_section)) = [1]
  /\ map PS.order (DP.sections (DP.reorder_sections ["x"; "a"] projection_one_section))
     <> [0]
  /\ map PS.order
       (DP.sections
          (DP._reorder_sections (DP.reorder_sections ["x"; "a"] projection_one_section)))
     = [0].
Proof.
  split; [vm_compute; reflexivity |].
  split; [vm_compute; reflexivity |].
  split; [vm_compute; discriminate |].
  vm_compute. reflexivity.
Qed.

(** [reorder_sections] at work on distinct ids that all name a section: the
    two sections ["a"] and ["b"], listed in swapped order, are renumbered 0
    and 1. *)
Lemma reorder_sections_spec_witness :
  NoDup ["b"; "a"]
  /\ exists s',
       DP.sections (DP.reorder_sections ["b"; "a"] projection_two_sections) !! 1%nat
       = Some s'
       /\ PS.id s' = "a" /\ PS.order s' = 1.
Proof.
  assert (Hnodup : NoDup ["b"; "a"]).
  { apply NoDup_cons. split; [| apply NoDup_singleton].
    intros Hin. apply list_elem_of_singleton in Hin. discriminate. }
  split; [exact Hnodup |].
  eexists. split; [vm_compute; reflexivity |].
  split; [reflexivity |].
  apply (proj2 (proj2 (reorder_sections_spec ["b"; "a"] projection_two_sections))
           Hnodup) with (j := 1%nat).
  - intros sid Hsid. apply elem_of_cons in Hsid as [-> | Hsid].
    + vm_compute. right. left.
    + apply list_elem_of_singleton in Hsid as ->. vm_compute. left.
  - vm_compute. reflexivity.
Defined.

(** ** Witnesses and counterexamples for the section properties *)

(** C1 at work: the locked first section of [projection_locked] survives a
    REGENERATE pass untouched. *)
Lemma lock_inviolability_witness :
  PS.state (section_with "sec1" "Family" "Approved prose" LOCKED ["c1"]) = LOCKED
  /\ (0%nat ∉ Svc.sections_to_update REGENERATE ["c1"; "c2"] projection_locked)
  /\ DP.sections (fst (Svc.update_projection (service_two_items None) REGENERATE
                         projection_locked w0)) !! 0%nat
     = Some (section_with "sec1" "Family" "Approved prose" LOCKED ["c1"]).
Proof.
  split; [reflexivity |].
  destruct (lock_inviolability (service_two_items None) REGENERATE projection_locked w0
              0%nat (section_with "sec1" "Family" "Approved prose" LOCKED ["c1"])
              eq_refl eq_refl) as (Hnot & Hsame & _).
  split; [apply Hnot | exact Hsame].
Defined.

(** Eviction at work: twelve updates of [section_edited], whose history
    holds version 1, push the versions 2 to 13; the ten newest stay. *)
Lemma history_keeps_last_ten :
  map SectionVersion.version
      (PS.history
         (fst (run_section_calls
                 (replicate 12 (CallUpdateContent "text" ["c1"] "regeneration"))
                 section_edited w0)))
  = [4; 5; 6; 7; 8; 9; 10; 11; 12; 13].
Proof. vm_compute. reflexivity. Qed.

(** C3 at work: three more calls on [section_edited]. *)
Lemma history_bound_fifo_witness :
  (length (PS.history section_edited) <= 10)%nat
  /\ (length (PS.history
               (fst (run_section_calls
                       [CallUpdateContent "four" ["c1"; "c2"] "regeneration";
                        CallFinishEditing "five six" true (Some "user1");
                        CallRevertToVersion 1]
                       section_edited w0))) <= 10)%nat.
Proof.
  assert (H : (length (PS.history section_edited) <= 10)%nat) by (cbn; lia).
  split; [exact H |].
  apply (proj1 history_bound_fifo). exact H.
Defined.

(** C4 at work: a successful revert of [section_edited] gives version 3. *)
Lemma version_monotonicity_witness :
  fst (fst (PS.revert_to_version 1 section_edited w0)) = true
  /\ PS.version (snd (fst (PS.revert_to_version 1 section_edited w0)))
     = PS.version section_edited + 1.
Proof.
  assert (H : fst (fst (PS.revert_to_version 1 section_edited w0)) = true)
    by (vm_compute; reflexivity).
  split; [exact H |].
  apply (proj1 (proj2 (proj2 version_monotonicity))). exact H.
Defined.

(** C5, the claim as stated fails: [section_emptied] has an empty content
    and a history entry of version 1.  The revert to version 1 succeeds, and
    the state before it (version 2) is not pushed: the history is the one
    from before the call. *)
Lemma revert_of_empty_section_pushes_nothing :
  fst (fst (PS.revert_to_version 1 section_emptied w0)) = true
  /\ PS.history (snd (fst (PS.revert_to_version 1 section_emptied w0)))
     = PS.history section_emptied
  /\ ~ (exists e, e ∈ PS.history (snd (fst (PS.revert_to_version 1 section_emptied w0)))
                  /\ SectionVersion.version e = PS.version section_emptied).
Proof.
  split; [vm_compute; reflexivity |].
  split; [vm_compute; reflexivity |].
  intros (e & Hin & Hv).
  change (PS.history (snd (fst (PS.revert_to_version 1 section_emptied w0))))
    with [SectionVersion.mk 1 "one" "" "manual_edit" ["c1"] 0 None] in Hin.
  apply list_elem_of_singleton in Hin as ->. discriminate.
Qed.

(** The amended C5 at work on [section_edited], whose history has an entry
    of version 1 and none of version 7. *)
Lemma revert_semantics_witness :
  PS.revert_to_version 7 section_edited w0 = ((false, section_edited), w0)
  /\ PS.content (snd (fst (PS.revert_to_version 1 section_edited w0))) = "one"
  /\ PS.version (snd (fst (PS.revert_to_version 1 section_edited w0))) = 3
  /\ length (PS.history (snd (fst (PS.revert_to_version 1 section_edited w0)))) = 2%nat.
Proof.
  destruct (revert_semantics 7 section_edited w0) as (Hnone & _ & _).
  destruct (revert_semantics 1 section_edited w0) as (_ & Hsome & _).
  specialize (Hsome (SectionVersion.mk 1 "one" "" "generation" ["c1"] 0 None) eq_refl).
  cbv zeta in Hsome.
  destruct Hsome as (_ & _ & _ & Hcontent & _ & _ & Hversion & Hhistory).
  split.
  - apply Hnone. intros h Hin. apply list_elem_of_singleton in Hin as ->. discriminate.
  - split; [exact Hcontent |]. split; [exact Hversion |].
    rewrite Hhistory. reflexivity.
Defined.

(** The amended C7 at work: with both items in the cache, the generated
    section of [projection_locked] is selected by a REFRESH pass and is not
    stale against the pool's ids afterwards. *)
Lemma staleness_correctness_witness :
  1%nat ∈ Svc.sections_to_update REFRESH (ContentPool.content_ids pool_c1_c2) projection_locked
  /\ exists s',
       DP.sections (fst (Svc.update_projection (service_two_items None) REFRESH
                           projection_locked w0)) !! 1%nat = Some s'
       /\ PS.is_stale
            (map ContentItem.id
               (Svc.items_of (service_two_items None) (ContentPool.content_ids pool_c1_c2))) s'
          = false.
Proof.
  assert (Hin : 1%nat ∈ Svc.sections_to_update REFRESH (ContentPool.content_ids pool_c1_c2)
                           projection_locked)
    by (vm_compute; left).
  split; [exact Hin |].
  apply (proj1 (proj2 staleness_correctness) (service_two_items None) REFRESH
           projection_locked w0 pool_c1_c2 1%nat); [by right | reflexivity | exact Hin].
Defined.

(** ** Word count *)

Lemma count_words_falsy s : str_truthy s = false -> count_words s = 0.
Proof. destruct s; [reflexivity | discriminate]. Qed.

(** Skipping the empty contents, as [_update_stats] does, does not change
    the sum. *)
Lemma words_of_nonempty_sections l :
  foldr Z.add 0
    (map (fun s => count_words (PS.content s))
         (filter (fun s => str_truthy (PS.content s) = true) l))
  = words_of_sections l.
Proof.
  unfold words_of_sections. induction l as [| s l IH]; [reflexivity |].
  destruct (str_truthy (PS.content s)) eqn:Hs.
  - rewrite filter_cons_True by exact Hs. cbn. by rewrite IH.
  - rewrite filter_cons_False by (rewrite Hs; discriminate). cbn.
    rewrite IH, (count_words_falsy _ Hs). reflexivity.
Qed.

(** [_update_stats] makes the word count and the time stamp current. *)
Lemma update_stats_consistent p w :
  let p' := fst (DP._update_stats p w) in
  DP.sections p' = DP.sections p
  /\ DP.word_count p' = words_of_sections (DP.sections p)
  /\ DP.updated_at p' = clock w (ticks w).
Proof.
  unfold DP._update_stats. run_monad. cbn.
  split; [reflexivity |]. split; [apply words_of_nonempty_sections | reflexivity].
Qed.

(** [mark_updated] leaves a current word count. *)
Lemma mark_updated_consistent content_ids mode summary p w :
  let p' := fst (DP.mark_updated content_ids mode summary p w) in
  DP.word_count p' = words_of_sections (DP.sections p').
Proof.
  destruct (mark_updated_fields content_ids mode summary p w) as (_ & _ & Hs & _ & Hw).
  cbv zeta. rewrite Hw, Hs. apply words_of_nonempty_sections.
Qed.

(** The sibling of [revert_section]: a successful [edit_section] leaves the
    stored projection with a current word count. *)
Lemma edit_section_consistent projection_id section_id new_content lock user_id svc w :
  fst (fst (Svc.edit_section projection_id section_id new_content lock user_id svc w)) = true ->
  exists p',
    Svc._projections
      (snd (fst (Svc.edit_section projection_id section_id new_content lock user_id svc w)))
      !! projection_id = Some p'
    /\ DP.word_count p' = words_of_sections (DP.sections p').
Proof.
  unfold Svc.edit_section, Svc.with_projection.
  destruct (Svc._projections svc !! projection_id) as [p |]; [| discriminate].
  destruct (DP.get_section section_id p) as [i |]; run_monad; [| discriminate].
  intros _. eexists. cbn [Svc._projections Svc.set_projections].
  split; [apply lookup_insert_eq |].
  match goal with |- context [DP._update_stats ?q ?w'] =>
    destruct (update_stats_consistent q w') as (Hs & Hw & _) end.
  rewrite Hw, Hs. reflexivity.
Qed.

(** C8, the code at a failing input.  [service_edited] stores a projection
    whose only section reads "one two three", with word count 3 and
    [updated_at] 0.  [revert_section] to version 1 succeeds and the section
    reads "one"; the projection still says 3 words, and [updated_at] is
    still 0. *)
Lemma revert_section_stale_word_count :
  fst (fst (Svc.revert_section "doc1" "sec1" 1 service_edited w0)) = true
  /\ exists p',
       Svc._projections (snd (fst (Svc.revert_section "doc1" "sec1" 1 service_edited w0)))
         !! "doc1" = Some p'
       /\ map PS.content (DP.sections p') = ["one"]
       /\ words_of_sections (DP.sections p') = 1
       /\ DP.word_count p' = 3
       /\ DP.updated_at p' = 0.
Proof.
  split; [vm_compute; reflexivity |].
  eexists. split; [vm_compute; reflexivity |].
  repeat split; vm_compute; reflexivity.
Qed.

(** C8, a second failing input: an update request scoped to the section
    ["sec1"] rewrites the section (30 words now), and both the stored
    projection and the event returned report the 3 words of before. *)
Lemma scoped_update_stale_word_count :
  exists ev svc',
    fst (Svc._handle_update
           (mkUpdatePayload (Some "doc1") (Some "regenerate") (Some ["sec1"]))
           service_edited w0) = (Returned [ev], svc')
    /\ ev_word_count ev = 3
    /\ exists p',
         Svc._projections svc' !! "doc1" = Some p'
         /\ map PS.version (DP.sections p') = [3]
         /\ DP.word_count p' = 3
         /\ words_of_sections (DP.sections p') = 30.
Proof.
  do 2 eexists. split; [vm_compute; reflexivity |].
  split; [reflexivity |].
  eexists. split; [vm_compute; reflexivity |].
  repeat split; vm_compute; reflexivity.
Qed.

(** ** Configuration values *)

(** C9 (amended).  A style, length or default update mode that is not a
    value of its enumeration is no error for [_parse_config]: the default
    (thematic, standard, evolve) takes its place.  In an update request for a
    stored projection, a mode that is not a value of [UpdateMode] ends
    [_handle_update] with a [ValueError] before anything is done: the
    service and the world, with its clock and its log of model calls, are
    as before.  For a projection id that is not stored the request returns
    no event, whatever the mode. *)
Theorem configuration_errors :
  (forall config_dict,
      ((forall v, cd_style config_dict = Some v -> ProjectionStyle_of_value v = None) ->
       ProjectionConfig.style (Svc._parse_config config_dict) = THEMATIC)
      /\ ((forall v, cd_length config_dict = Some v -> ProjectionLength_of_value v = None) ->
          ProjectionConfig.length (Svc._parse_config config_dict) = STANDARD)
      /\ ((forall v, cd_default_update_mode config_dict = Some v ->
                     UpdateMode_of_value v = None) ->
          ProjectionConfig.default_update_mode (Svc._parse_config config_dict) = EVOLVE))
  /\ (forall payload svc w projection mode_str,
        Svc._projections svc !! default "" (pl_projection_id payload) = Some projection ->
        pl_mode payload = Some mode_str ->
        UpdateMode_of_value mode_str = None ->
        Svc._handle_update payload svc w = ((Raised "ValueError", svc), w))
  /\ (forall payload svc w,
        Svc._projections svc !! default "" (pl_projection_id payload) = None ->
        Svc._handle_update payload svc w = ((Returned [], svc), w)).
Proof.
  split; [| split].
  - intros config_dict. unfold Svc._parse_config. cbn. repeat split.
    + intros H. destruct (cd_style config_dict) as [v |]; [| reflexivity].
      cbn. by rewrite (H v eq_refl).
    + intros H. destruct (cd_length config_dict) as [v |]; [| reflexivity].
      cbn. by rewrite (H v eq_refl).
    + intros H. destruct (cd_default_update_mode config_dict) as [v |]; [| reflexivity].
      cbn. by rewrite (H v eq_refl).
  - intros payload svc w projection mode_str Hp Hm Hunknown.
    unfold Svc._handle_update. rewrite Hp, Hm.
    change (default "evolve" (Some mode_str)) with mode_str. rewrite Hunknown.
    reflexivity.
  - intros payload svc w Hp. unfold Svc._handle_update. rewrite Hp. reflexivity.
Qed.

(** C9, the claim as stated fails: the style ["bogus"] and the length
    ["epic"] are values of no enumeration, and [_parse_config] returns the
    default configuration for them; nothing is reported. *)
Lemma unknown_style_is_no_error :
  ProjectionStyle_of_value "bogus" = None
  /\ ProjectionLength_of_value "epic" = None
  /\ Svc._parse_config
       (mkConfigDict (Some "bogus") (Some "epic") None None None None None None)
     = default_config.
Proof. repeat split. Qed.

(** The amended C9 at work: the mode ["rewrite"] in a request for the stored
    projection ["doc1"]. *)
Lemma configuration_errors_witness :
  Svc._handle_update (mkUpdatePayload (Some "doc1") (Some "rewrite") None) service_edited w0
  = ((Raised "ValueError", service_edited), w0).
Proof.
  eapply (proj1 (proj2 configuration_errors)); reflexivity.
Defined.

(** ** What EVOLVE sends to the model *)

Lemma save_to_history_calls trigger user_id s w :
  calls (snd (PS._save_to_history trigger user_id s w)) = calls w.
Proof.
  rewrite save_to_history_run. by destruct (str_truthy (PS.content s)).
Qed.

Lemma update_content_calls new_content ids trigger s w :
  calls (snd (PS.update_content new_content ids trigger s w)) = calls w.
Proof.
  rewrite update_content_run. cbn.
  destruct (str_truthy (PS.content s)); [apply save_to_history_calls | reflexivity].
Qed.

(** In mode EVOLVE, a section with a content is sent to the model together
    with the text of every content item handed to [_update_section], whether
    the section was built from it before or not. *)
Lemma evolve_call svc p item items s w oracle :
  Svc._ai svc = Some oracle ->
  str_truthy (PS.content s) = true ->
  calls (snd (Svc._update_section svc p EVOLVE (Some (item :: items)) s w))
  = calls w ++
    [RegenerateSectionCall (PS.title s) (PS.content s)
       (join (nl +:+ nl) (Svc._extract_texts (item :: items)))
       (str_or (ProjectionConfig.voice_guidance (DP.config p)) "warm and engaging")].
Proof.
  intros Hai Hcontent.
  unfold Svc._update_section, Svc._evolve_section_content.
  rewrite Hai, Hcontent. run_monad. rewrite update_content_calls.
  unfold ask. cbn [fst snd calls].
  by destruct (oracle (calls w) _).
Qed.

(** C2, the code at a failing input.  The section "Family" of
    [projection_family] was built from ["c1"]; the pool now holds ["c1"]
    and ["c2"].  The EVOLVE pass makes one call to the model, and its new
    content is the text of both items, where the delta is the text of
    ["c2"] alone. *)
Lemma evolve_passes_full_content :
  calls (snd (Svc.update_projection (service_two_items (Some (constant_model "Woven prose")))
                EVOLVE projection_family w0))
  = [RegenerateSectionCall "Family" "Old prose"
       ("I grew up on a farm in Iowa." +:+ nl +:+ nl +:+ "New story about school.")
       "warm and engaging"]
  /\ Svc._extract_texts
       (filter (fun c => ContentItem.id c ∉ ["c1"]) [item_c1; item_c2])
     = ["New story about school."].
Proof.
  split; vm_compute; reflexivity.
Qed.

(** Binary binary_digits *)















Section RoundUp.

Variables prec emax : Z.
Hypothesis prec_pos : 1 <= prec.




End RoundUp.



Section RoundUpStrict.

Variables prec emax : Z.
Hypothesis prec_pos : 1 <= prec.




End RoundUpStrict.


(** ** Theme merge *)
























(** * Further properties of the code *)

(** ** Content pool *)

(** X1. [add_content] is idempotent on an id the pool has: the pool and the
    world (the clock is not read) are as before.  A new id is appended last,
    the contributor and the tags join the pool's sets, and [total_items] is
    the number of ids.  Either way ids stay free of duplicates. *)
Theorem add_content_spec content_id contributor_id tags pool w :
  (content_id ∈ ContentPool.content_ids pool ->
   ContentPool.add_content content_id contributor_id tags pool w = (pool, w))
  /\ (content_id ∉ ContentPool.content_ids pool ->
      let pool' := fst (ContentPool.add_content content_id contributor_id tags pool w) in
      ContentPool.content_ids pool' = ContentPool.content_ids pool ++ [content_id]
      /\ ContentPool.total_items pool' = len (ContentPool.content_ids pool')
      /\ contributor_id ∈ ContentPool.contributor_ids pool'
      /\ (forall tag, tag ∈ tags -> tag ∈ ContentPool.tags pool')
      /\ ContentPool.contributor_ids pool ⊆ ContentPool.contributor_ids pool'
      /\ ContentPool.tags pool ⊆ ContentPool.tags pool')
  /\ (NoDup (ContentPool.content_ids pool) ->
      NoDup (ContentPool.content_ids
               (fst (ContentPool.add_content content_id contributor_id tags pool w)))).
Proof.
  unfold ContentPool.add_content.
  destruct (decide (content_id ∈ ContentPool.content_ids pool)) as [Hin | Hout].
  - rewrite bool_decide_eq_true_2 by exact Hin.
    split; [reflexivity |]. split; [contradiction | auto].
  - rewrite bool_decide_eq_false_2 by exact Hout. run_monad.
    split; [contradiction |]. split.
    + intros _. cbn. repeat split; try set_solver.
    + intros Hnodup. cbn. apply NoDup_app. split; [exact Hnodup |].
      split; [| apply NoDup_singleton].
      intros x Hx Hx'. apply list_elem_of_singleton in Hx' as ->. contradiction.
Qed.

(** X1 at work on the empty pool. *)
Lemma add_content_spec_witness :
  ContentPool.content_ids
    (fst (ContentPool.add_content "c1" "contrib1" ["tag1"; "tag2"] (empty_pool "proj1") w0))
  = ["c1"]
  /\ NoDup (ContentPool.content_ids
              (fst (ContentPool.add_content "c1" "contrib1" ["tag1"; "tag2"]
                      (empty_pool "proj1") w0))).
Proof.
  destruct (add_content_spec "c1" "contrib1" ["tag1"; "tag2"] (empty_pool "proj1") w0)
    as (_ & Hnew & Hnodup).
  split.
  - apply Hnew. apply not_elem_of_nil.
  - apply Hnodup. apply NoDup_nil_2.
Defined.

Lemma elem_of_new_content_ids since pool x :
  x ∈ ContentPool.get_new_content_ids since pool
  <-> x ∈ ContentPool.content_ids pool /\ x ∉ since.
Proof.
  unfold ContentPool.get_new_content_ids.
  rewrite list_elem_of_filter, elem_of_list_to_set. tauto.
Qed.

Lemma new_content_ids_none since pool :
  (forall x, x ∈ ContentPool.content_ids pool -> x ∈ since) ->
  ContentPool.get_new_content_ids since pool = [].
Proof.
  intros Hall. unfold ContentPool.get_new_content_ids.
  induction (ContentPool.content_ids pool) as [| x l IH]; [reflexivity |].
  rewrite filter_cons_False.
  - apply IH. intros y Hy. apply Hall. by right.
  - rewrite elem_of_list_to_set. intros Hx. apply Hx, Hall. by left.
Qed.

Lemma add_content_new_ids content_id contributor_id tags pool w :
  content_id ∉ ContentPool.content_ids pool ->
  ContentPool.content_ids (fst (ContentPool.add_content content_id contributor_id tags pool w))
  = ContentPool.content_ids pool ++ [content_id].
Proof.
  intros Hout. unfold ContentPool.add_content.
  rewrite bool_decide_eq_false_2 by exact Hout. reflexivity.
Qed.

(** X2. [get_new_content_ids] gives the ids of the pool that the snapshot
    lacks, in the pool's order; against the pool's own ids it gives nothing;
    and right after a new id joined the pool, it gives exactly that id
    against the ids of before. *)
Theorem new_content_ids_spec :
  (forall since pool x,
      x ∈ ContentPool.get_new_content_ids since pool
      <-> x ∈ ContentPool.content_ids pool /\ x ∉ since)
  /\ (forall since pool,
        ContentPool.get_new_content_ids since pool `sublist_of` ContentPool.content_ids pool)
  /\ (forall pool,
        ContentPool.get_new_content_ids (ContentPool.content_ids pool) pool = [])
  /\ (forall content_id contributor_id tags pool w,
        content_id ∉ ContentPool.content_ids pool ->
        ContentPool.get_new_content_ids (ContentPool.content_ids pool)
          (fst (ContentPool.add_content content_id contributor_id tags pool w))
        = [content_id]).
Proof.
  split; [exact elem_of_new_content_ids |].
  split; [intros since pool; apply sublist_filter |].
  split; [intros pool; by apply new_content_ids_none |].
  intros content_id contributor_id tags pool w Hout.
  unfold ContentPool.get_new_content_ids.
  rewrite (add_content_new_ids _ contributor_id tags _ w Hout), filter_app.
  fold (ContentPool.get_new_content_ids (ContentPool.content_ids pool) pool).
  rewrite new_content_ids_none by auto.
  rewrite filter_cons_True; [reflexivity |].
  by rewrite elem_of_list_to_set.
Qed.

(** X2 at work: ["c2"] is new against the snapshot [["c1"]]. *)
Lemma new_content_ids_spec_witness :
  ContentPool.get_new_content_ids ["c1"]
    (fst (ContentPool.add_content "c2" "contrib1" []
            (ContentPool.mk "proj1" ["c1"] {["contrib1"]} ∅ 1 0) w0))
  = ["c2"].
Proof.
  apply (proj2 (proj2 (proj2 new_content_ids_spec)) "c2" "contrib1" []
           (ContentPool.mk "proj1" ["c1"] {["contrib1"]} ∅ 1 0) w0).
  cbn. intros Hin. apply list_elem_of_singleton in Hin. discriminate.
Defined.

(** ** Locking and manual edits of a section *)

(** X3. [lock] records the user and the reason and leaves content, version,
    history and content snapshot alone; a locked section cannot be
    regenerated.  [unlock] after [lock] gives the section in state GENERATED
    with the lock data cleared: this is the section of before exactly when
    that was GENERATED and carried no lock data; an EMPTY or DRAFT section
    comes back as GENERATED. *)
Theorem lock_unlock_round_trip user_id reason s w :
  let locked := fst (PS.lock user_id reason s w) in
  (PS.state locked = LOCKED /\ PS.can_regenerate locked = false
   /\ PS.locked_by locked = Some user_id /\ PS.lock_reason locked = Some reason
   /\ PS.locked_at locked = Some (clock w (ticks w)))
  /\ (PS.content locked = PS.content s /\ PS.version locked = PS.version s
      /\ PS.history locked = PS.history s
      /\ PS.last_content_snapshot locked = PS.last_content_snapshot s)
  /\ PS.unlock locked = PS.unlock s
  /\ (PS.state (PS.unlock locked) = GENERATED /\ PS.can_regenerate (PS.unlock locked) = true)
  /\ (PS.state s = GENERATED -> PS.locked_at s = None -> PS.locked_by s = None ->
      PS.lock_reason s = None -> PS.unlock locked = s).
Proof.
  unfold PS.lock. run_monad. cbn.
  repeat split.
  intros Hstate Hat Hby Hreason. destruct s. cbn in *. subst. reflexivity.
Qed.

(** X3 at work on a generated section. *)
Lemma lock_unlock_round_trip_witness :
  PS.unlock (fst (PS.lock "user1" "approved"
                    (section_with "sec1" "Family" "Prose" GENERATED ["c1"]) w0))
  = section_with "sec1" "Family" "Prose" GENERATED ["c1"].
Proof.
  apply (lock_unlock_round_trip "user1" "approved"
           (section_with "sec1" "Family" "Prose" GENERATED ["c1"]) w0);
    reflexivity.
Defined.

Lemma last_last_n {A : Type} (n : nat) (l : list A) (x : A) :
  last (last_n (S n) (l ++ [x])) = Some x.
Proof.
  unfold last_n. rewrite length_app. cbn [length].
  rewrite drop_app_le by lia. apply last_snoc.
Qed.

(** X4. A manual edit sets the content and the state (LOCKED when asked
    to lock, else GENERATED, whatever the state was) and does not touch the
    content snapshot: the section is stale after the edit exactly when it
    was before.  Without [lock] the lock data is kept as it is, also when the
    section was locked.  The state before the edit, when its content was not
    empty, is the newest history entry, attributed to the user. *)
Theorem finish_editing_spec new_content lock user_id s w :
  let s' := fst (PS.finish_editing new_content lock user_id s w) in
  PS.content s' = new_content
  /\ PS.state s' = (if lock then LOCKED else GENERATED)
  /\ PS.last_content_snapshot s' = PS.last_content_snapshot s
  /\ PS.source_content_ids s' = PS.source_content_ids s
  /\ (forall ids, PS.is_stale ids s' = PS.is_stale ids s)
  /\ (if lock
      then PS.locked_by s' = user_id /\ PS.lock_reason s' = Some "manually edited"
      else PS.locked_by s' = PS.locked_by s /\ PS.lock_reason s' = PS.lock_reason s
           /\ PS.locked_at s' = PS.locked_at s)
  /\ (str_truthy (PS.content s) = true ->
      last (PS.history s')
      = Some (snapshot_of s "manual_edit" (clock w (ticks w)) user_id)).
Proof.
  unfold PS.finish_editing. run_monad. rewrite save_to_history_run.
  destruct (str_truthy (PS.content s)) eqn:Hc; destruct lock; run_monad; cbn;
    repeat split; try discriminate; intros _; apply (last_last_n 9).
Qed.

(** X4 at work: [section_edited] has a content. *)
Lemma finish_editing_spec_witness :
  last (PS.history (fst (PS.finish_editing "edited" true (Some "user1") section_edited w0)))
  = Some (snapshot_of section_edited "manual_edit" 0 (Some "user1")).
Proof.
  apply (finish_editing_spec "edited" true (Some "user1") section_edited w0).
  reflexivity.
Defined.

(** ** The order of the history *)

Lemma increasing_below_snoc v l :
  increasing_below v l -> increasing_below (v + 1) (l ++ [v]).
Proof.
  intros [Hinc Hbelow]. split.
  - intros i j x y Hij Hi Hj.
    assert (Hjlen : (j < length (l ++ [v]))%nat) by (by eapply lookup_lt_Some).
    rewrite length_app in Hjlen. cbn in Hjlen.
    rewrite lookup_app_l in Hi by lia.
    destruct (decide (j < length l)%nat) as [Hjl | Hjl].
    + rewrite lookup_app_l in Hj by exact Hjl. exact (Hinc i j x y Hij Hi Hj).
    + rewrite lookup_app_r in Hj by lia.
      replace (j - length l)%nat with 0%nat in Hj by lia.
      injection Hj as <-. apply Hbelow. by eapply list_elem_of_lookup_2.
  - intros x Hx. apply elem_of_app in Hx as [Hx | Hx].
    + specialize (Hbelow x Hx). lia.
    + apply list_elem_of_singleton in Hx as ->. lia.
Qed.

Lemma increasing_below_drop k v l :
  increasing_below v l -> increasing_below v (drop k l).
Proof.
  intros [Hinc Hbelow]. split.
  - intros i j x y Hij Hi Hj. rewrite lookup_drop in Hi, Hj.
    apply (Hinc (k + i)%nat (k + j)%nat); [lia | exact Hi | exact Hj].
  - intros x Hx. apply Hbelow. exact (subseteq_drop k l x Hx).
Qed.

Lemma increasing_below_weaken v v' l :
  v <= v' -> increasing_below v l -> increasing_below v' l.
Proof.
  intros Hv [Hinc Hbelow]. split; [exact Hinc |].
  intros x Hx. specialize (Hbelow x Hx). lia.
Qed.

Lemma increasing_below_NoDup v l : increasing_below v l -> NoDup l.
Proof.
  intros [Hinc _]. apply NoDup_alt. intros i j x Hi Hj.
  destruct (Nat.lt_trichotomy i j) as [Hlt | [Heq | Hgt]]; [| exact Heq |].
  - pose proof (Hinc i j x x Hlt Hi Hj). lia.
  - pose proof (Hinc j i x x Hgt Hj Hi). lia.
Qed.

(** The versions in the history after [_save_to_history]. *)
Lemma save_to_history_versions trigger user_id s w :
  history_in_order s ->
  increasing_below (PS.version s + 1)
    (map SectionVersion.version
         (PS.history (fst (PS._save_to_history trigger user_id s w)))).
Proof.
  intros Hs. rewrite save_to_history_run.
  destruct (str_truthy (PS.content s)); cbn [fst PS.history PS.set_history].
  - unfold last_n. rewrite <- List.skipn_map, List.map_app. cbn [map].
    apply increasing_below_drop, increasing_below_snoc, Hs.
  - apply (increasing_below_weaken (PS.version s)); [lia | exact Hs].
Qed.

Lemma section_call_in_order call s w :
  history_in_order s -> history_in_order (fst (run_section_call call s w)).
Proof.
  intros Hs. unfold history_in_order.
  destruct call as [new_content ids trigger | new_content lock user_id | v];
    cbn [run_section_call].
  - rewrite update_content_run. cbn.
    destruct (str_truthy (PS.content s)) eqn:Hc.
    + replace (PS.version (fst (PS._save_to_history trigger None s w))) with (PS.version s)
        by (symmetry; apply save_to_history_fields).
      by apply save_to_history_versions.
    + cbn. apply (increasing_below_weaken (PS.version s)); [lia | exact Hs].
  - unfold PS.finish_editing. run_monad.
    pose proof (save_to_history_versions "manual_edit" user_id s w Hs) as H.
    replace (PS.version s) with
      (PS.version (fst (PS._save_to_history "manual_edit" user_id s w))) in H
      by apply save_to_history_fields.
    destruct lock; run_monad; exact H.
  - run_monad. rewrite revert_to_version_run.
    destruct (history_entry v s); cbn; [| exact Hs].
    replace (PS.version (fst (PS._save_to_history "revert" None s w))) with (PS.version s)
      by (symmetry; apply save_to_history_fields).
    by apply save_to_history_versions.
Qed.

(** X5. The history of a section stays in order under every sequence of
    content-mutating calls: the versions it records grow strictly and lie
    below the current version.  So no two entries share a version, and the
    entry that [revert_to_version] picks is the only one of its version.  A
    section with an empty history is in order. *)
Theorem history_stays_in_order calls s w :
  history_in_order s ->
  history_in_order (fst (run_section_calls calls s w))
  /\ NoDup (map SectionVersion.version
                (PS.history (fst (run_section_calls calls s w)))).
Proof.
  intros Hs.
  assert (H : history_in_order (fst (run_section_calls calls s w))).
  { apply (for_each_invariant history_in_order); [| exact Hs].
    intros call s0 w0 _. apply section_call_in_order. }
  split; [exact H | by eapply increasing_below_NoDup].
Qed.

Lemma history_in_order_nil s : PS.history s = [] -> history_in_order s.
Proof.
  intros Hh. unfold history_in_order. rewrite Hh. split.
  - intros i j x y _ Hi. discriminate.
  - intros x Hx. by apply elem_of_nil in Hx.
Qed.

Lemma increasing_below_singleton v bound : v < bound -> increasing_below bound [v].
Proof.
  intros Hv. split.
  - intros i j x y Hij Hi Hj. destruct j as [| j]; [lia |]. discriminate Hj.
  - intros x Hx. apply list_elem_of_singleton in Hx as ->. exact Hv.
Qed.

(** X5 at work on a new section. *)
Lemma history_stays_in_order_witness :
  NoDup (map SectionVersion.version
             (PS.history
                (fst (run_section_calls
                        [CallUpdateContent "one" ["c1"] "generation";
                         CallFinishEditing "two" false None;
                         CallRevertToVersion 1]
                        (section_with "sec1" "Family" "zero" GENERATED []) w0)))).
Proof.
  apply history_stays_in_order. by apply history_in_order_nil.
Defined.

(** ** Undoing a change *)

Lemma find_snoc_fresh {A : Type} (f : A -> bool) (l : list A) (e : A) :
  (forall x, x ∈ l -> f x = false) -> f e = true -> List.find f (l ++ [e]) = Some e.
Proof.
  intros Hl He. induction l as [| x l IH]; cbn.
  - by rewrite He.
  - rewrite (Hl x) by (by left). apply IH. intros y Hy. apply Hl. by right.
Qed.

(** The entry that a push leaves for the version of before. *)
Lemma history_entry_pushed s s1 trigger now user_id :
  history_in_order s ->
  PS.history s1 = last_n 10 (PS.history s ++ [snapshot_of s trigger now user_id]) ->
  history_entry (PS.version s) s1 = Some (snapshot_of s trigger now user_id).
Proof.
  intros [_ Hbelow] Hh. unfold history_entry. rewrite Hh. unfold last_n.
  rewrite length_app. cbn [length]. rewrite drop_app_le by lia.
  apply find_snoc_fresh.
  - intros h Hin. apply Z.eqb_neq.
    assert (Hv : SectionVersion.version h < PS.version s); [| lia].
    apply Hbelow. apply list_elem_of_In, List.in_map, list_elem_of_In.
    exact (subseteq_drop _ _ h Hin).
  - cbn. apply Z.eqb_refl.
Qed.

(** Every successful call on a section with a content pushes the state of
    before and adds one to the version. *)
Lemma section_call_pushed call s w :
  str_truthy (PS.content s) = true ->
  (forall v, call = CallRevertToVersion v -> is_Some (history_entry v s)) ->
  exists trigger user_id,
    PS.history (fst (run_section_call call s w))
    = last_n 10 (PS.history s ++ [snapshot_of s trigger (clock w (ticks w)) user_id])
    /\ PS.version (fst (run_section_call call s w)) = PS.version s + 1.
Proof.
  intros Hc Hfound.
  destruct call as [new_content ids trigger | new_content lock user_id | v];
    cbn [run_section_call].
  - exists trigger, None. rewrite update_content_run, Hc, save_to_history_run, Hc.
    split; reflexivity.
  - exists "manual_edit", user_id. unfold PS.finish_editing. run_monad.
    rewrite save_to_history_run, Hc. destruct lock; run_monad; split; reflexivity.
  - exists "revert", None. run_monad. rewrite revert_to_version_run.
    destruct (Hfound v eq_refl) as [hist ->]. cbn.
    rewrite save_to_history_run, Hc. split; reflexivity.
Qed.

(** X6. Undo.  After a regeneration, a manual edit or a successful revert
    of a section whose history is in order and whose content was not empty,
    [revert_to_version] with the version of before succeeds and brings back
    the content, the summary and the source content ids of before; the
    version is then two more than before.  The state and the content
    snapshot used for staleness are not brought back: they stay as the undone
    call left them. *)
Theorem undo_by_revert call s w w' :
  history_in_order s ->
  str_truthy (PS.content s) = true ->
  (forall v, call = CallRevertToVersion v -> is_Some (history_entry v s)) ->
  let s1 := fst (run_section_call call s w) in
  let r := fst (PS.revert_to_version (PS.version s) s1 w') in
  fst r = true
  /\ PS.content (snd r) = PS.content s
  /\ PS.summary (snd r) = PS.summary s
  /\ PS.source_content_ids (snd r) = PS.source_content_ids s
  /\ PS.version (snd r) = PS.version s + 2
  /\ PS.state (snd r) = PS.state s1
  /\ PS.last_content_snapshot (snd r) = PS.last_content_snapshot s1.
Proof.
  intros Hs Hc Hfound.
  destruct (section_call_pushed call s w Hc Hfound) as (trigger & user_id & Hh & Hv).
  cbv zeta. set (s1 := fst (run_section_call call s w)) in *.
  rewrite revert_to_version_run.
  rewrite (history_entry_pushed s s1 trigger _ user_id Hs Hh).
  destruct (save_to_history_fields "revert" None s1 w')
    as (_ & _ & Hv' & _ & Hst & Hsnap).
  cbn. rewrite Hv', Hv. repeat split; [lia | exact Hst | exact Hsnap].
Qed.

(** X6 at work: a regeneration of [section_edited] is undone. *)
Lemma undo_by_revert_witness :
  PS.content
    (snd (fst (PS.revert_to_version (PS.version section_edited)
                 (fst (run_section_call (CallUpdateContent "new prose" ["c1"] "regeneration")
                         section_edited w0))
                 w0)))
  = PS.content section_edited.
Proof.
  apply (undo_by_revert (CallUpdateContent "new prose" ["c1"] "regeneration")
           section_edited w0 w0).
  - apply (increasing_below_singleton 1 2). lia.
  - reflexivity.
  - intros v Hv. discriminate Hv.
Defined.

(** ** Sections of a projection *)

Lemma find_index_Some test l i :
  DP.find_index test l = Some i <->
  (exists s, l !! i = Some s /\ test s = true)
  /\ (forall j s', (j < i)%nat -> l !! j = Some s' -> test s' = false).
Proof.
  revert i. induction l as [| s l IH]; intros i; cbn.
  - split; [discriminate | intros [(s & Hs & _) _]; discriminate].
  - destruct (test s) eqn:Ht.
    + split.
      * intros [= <-]. split; [by exists s |]. intros j s' Hj. lia.
      * intros [_ Hfirst]. destruct i as [| i]; [reflexivity |].
        specialize (Hfirst 0%nat s ltac:(lia) eq_refl). congruence.
    + destruct (DP.find_index test l) as [k |] eqn:Hk; cbn.
      * split.
        -- intros [= <-]. destruct (proj1 (IH k) eq_refl) as [Hex Hfirst].
           split; [exact Hex |].
           intros [| j] s' Hj Hl; cbn in Hl; [congruence |].
           apply (Hfirst j); [lia | exact Hl].
        -- intros [(s0 & Hs0 & Ht0) Hfirst]. destruct i as [| i]; cbn in Hs0; [congruence |].
           assert (Hi : Some k = Some i); [| by injection Hi as ->].
           apply (proj2 (IH i)).
           split; [by exists s0 |].
           intros j s' Hj Hl. apply (Hfirst (S j)); [lia | exact Hl].
      * split; [discriminate |].
        intros [(s0 & Hs0 & Ht0) Hfirst]. destruct i as [| i]; cbn in Hs0; [congruence |].
        assert (Hi : None = Some i); [| discriminate].
        apply (proj2 (IH i)).
        split; [by exists s0 |].
        intros j s' Hj Hl. apply (Hfirst (S j)); [lia | exact Hl].
Qed.

Lemma find_index_None test l :
  DP.find_index test l = None <-> (forall s, s ∈ l -> test s = false).
Proof.
  induction l as [| s l IH]; cbn.
  - split; [intros _ s Hs; by apply elem_of_nil in Hs | reflexivity].
  - destruct (test s) eqn:Ht.
    + split; [discriminate |]. intros Hall. rewrite (Hall s) in Ht by (by left). discriminate.
    + destruct (DP.find_index test l) as [k |]; cbn.
      * split; [discriminate |]. intros Hall.
        assert (Hn : Some k = None); [| discriminate].
        apply IH. intros s' Hs'. apply Hall. by right.
      * split; [| reflexivity]. intros _ s' Hs'.
        apply elem_of_cons in Hs' as [-> | Hs']; [exact Ht |].
        by apply (proj1 IH).
Qed.

Lemma select_from_iff test l : forall i0 i,
  i ∈ DP.select_from i0 test l <->
  (i0 <= i)%nat /\ exists s, l !! (i - i0)%nat = Some s /\ test s = true.
Proof.
  induction l as [| s l IH]; intros i0 i; cbn.
  - split; [intros H; by apply elem_of_nil in H | intros [_ (s & Hs & _)]; discriminate].
  - assert (Htail : i ∈ DP.select_from (S i0) test l <->
                    (i0 < i)%nat /\ exists s', (s :: l) !! (i - i0)%nat = Some s' /\ test s' = true).
    { rewrite IH. split.
      - intros [Hle (s' & Hs' & Ht')]. split; [lia |]. exists s'.
        replace (i - i0)%nat with (S (i - S i0)) by lia. auto.
      - intros [Hlt (s' & Hs' & Ht')]. split; [lia |]. exists s'.
        replace (i - i0)%nat with (S (i - S i0)) in Hs' by lia. auto. }
    destruct (test s) eqn:Ht.
    + rewrite elem_of_cons, Htail. split.
      * intros [-> | [Hlt Hex]]; [| split; [lia | exact Hex]].
        split; [lia |]. exists s. rewrite Nat.sub_diag. auto.
      * intros [Hle Hex]. destruct (decide (i = i0)) as [-> | Hne]; [by left | right].
        split; [lia | exact Hex].
    + rewrite Htail. split.
      * intros [Hlt Hex]. split; [lia | exact Hex].
      * intros [Hle (s' & Hs' & Ht')]. split; [| by exists s'].
        destruct (decide (i = i0)) as [-> | Hne]; [| lia].
        rewrite Nat.sub_diag in Hs'. cbn in Hs'. congruence.
Qed.

Lemma select_iff test p i :
  i ∈ DP.select test p <-> exists s, DP.sections p !! i = Some s /\ test s = true.
Proof.
  unfold DP.select. rewrite select_from_iff, Nat.sub_0_r. split.
  - intros [_ H]. exact H.
  - intros H. split; [lia | exact H].
Qed.

Lemma renumber_from_lookup l : forall i (k : nat),
  DP.renumber_from i l !! k = PS.set_order (i + Z.of_nat k) <$> l !! k.
Proof.
  induction l as [| s l IH]; intros i k; [reflexivity |].
  destruct k as [| k]; cbn.
  - by rewrite Z.add_0_r.
  - rewrite IH. by replace (i + 1 + Z.of_nat k) with (i + Z.pos (Pos.of_succ_nat k)) by lia.
Qed.

Lemma renumber_from_length l : forall i, length (DP.renumber_from i l) = length l.
Proof. induction l as [| s l IH]; intros i; cbn; [reflexivity | by rewrite IH]. Qed.

Lemma renumber_from_dense l : dense_orders (DP.renumber_from 0 l).
Proof.
  intros k s Hk. rewrite renumber_from_lookup in Hk.
  destruct (l !! k) as [s0 |]; [| discriminate].
  injection Hk as <-. cbn. lia.
Qed.

(** Renumbering changes the [order] fields only. *)
Lemma renumber_from_frame l : forall i,
  map (PS.set_order 0) (DP.renumber_from i l) = map (PS.set_order 0) l.
Proof. induction l as [| s l IH]; intros i; cbn; [reflexivity | by rewrite IH]. Qed.

Lemma words_of_renumber l : forall i,
  words_of_sections (DP.renumber_from i l) = words_of_sections l.
Proof.
  unfold words_of_sections.
  induction l as [| s l IH]; intros i; cbn; [reflexivity | by rewrite IH].
Qed.

(** X7. [add_section] puts the section last, with its order set to the
    number of sections of before, and makes the word count current.  Dense
    orders stay dense.  The new section is found by its id when no section
    had that id; the ids are not checked, and every id that was found is
    still found at the same place, so a section added under an id in use is
    not reached by [get_section]. *)
Theorem add_section_spec section p w :
  let p' := fst (DP.add_section section p w) in
  DP.sections p' = DP.sections p ++ [PS.set_order (len (DP.sections p)) section]
  /\ DP.word_count p' = words_of_sections (DP.sections p')
  /\ (dense_orders (DP.sections p) -> dense_orders (DP.sections p'))
  /\ (DP.get_section (PS.id section) p = None ->
      DP.get_section (PS.id section) p' = Some (length (DP.sections p)))
  /\ (forall sid i, DP.get_section sid p = Some i -> DP.get_section sid p' = Some i).
Proof.
  unfold DP.add_section.
  destruct (update_stats_consistent
              (DP.set_sections (DP.sections p ++ [PS.set_order (len (DP.sections p)) section]) p) w)
    as (Hsec & Hwc & _).
  cbv zeta. cbn [DP.sections DP.set_sections] in Hsec, Hwc.
  split; [exact Hsec |]. split; [by rewrite Hsec |].
  unfold DP.get_section. rewrite Hsec. split; [| split].
  - intros Hdense k s Hk.
    destruct (decide (k < length (DP.sections p))%nat) as [Hlt | Hge].
    + rewrite lookup_app_l in Hk by exact Hlt. by apply Hdense.
    + rewrite lookup_app_r in Hk by lia.
      destruct (k - length (DP.sections p))%nat as [| k'] eqn:Hk'; [| discriminate].
      injection Hk as <-. cbn. unfold len. lia.
  - intros Hnone. apply find_index_Some. split.
    + exists (PS.set_order (len (DP.sections p)) section).
      rewrite lookup_app_r, Nat.sub_diag by lia. split; [reflexivity |].
      cbn. apply String.eqb_refl.
    + intros j s' Hj Hl. rewrite lookup_app_l in Hl by exact Hj.
      apply (proj1 (find_index_None _ _) Hnone). by eapply list_elem_of_lookup_2.
  - intros sid i Hi. apply find_index_Some in Hi as [(s & Hs & Ht) Hfirst].
    apply find_index_Some. split.
    + exists s. split; [| exact Ht]. by apply lookup_app_l_Some.
    + intros j s' Hj Hl. apply (Hfirst j s' Hj).
      rewrite lookup_app_l in Hl; [exact Hl |].
      apply lookup_lt_Some in Hs. lia.
Qed.

(** X7 at work: a second section joins [projection_one_section]. *)
Lemma add_section_spec_witness :
  DP.get_section "b"
    (fst (DP.add_section (section_with "b" "Second" "more prose" GENERATED [])
            projection_one_section w0))
  = Some 1%nat.
Proof.
  destruct (add_section_spec (section_with "b" "Second" "more prose" GENERATED [])
              projection_one_section w0) as (_ & _ & _ & Hnew & _).
  apply Hnew. reflexivity.
Defined.

Lemma lookup_map_Some {A B : Type} (f : A -> B) (l : list A) (i : nat) (x : A) :
  l !! i = Some x -> map f l !! i = Some (f x).
Proof.
  revert i. induction l as [| y l IH]; intros [| i] Hi; try discriminate; cbn in *.
  - by injection Hi as ->.
  - by apply IH.
Qed.

(** X8. [remove_section] with an id that no section has returns [False]
    and changes nothing (the clock is not read).  Otherwise it returns
    [True]; the first section of that id is taken out, the others keep
    everything but their order, which is renumbered densely from 0 (also
    where the orders were not dense before), and the word count is current.
    When no other section had the id, the id is not found afterwards. *)
Theorem remove_section_spec section_id p w :
  (DP.get_section section_id p = None ->
   DP.remove_section section_id p w = ((false, p), w))
  /\ (forall i, DP.get_section section_id p = Some i ->
      let r := fst (DP.remove_section section_id p w) in
      fst r = true
      /\ map (PS.set_order 0) (DP.sections (snd r))
         = map (PS.set_order 0) (delete i (DP.sections p))
      /\ dense_orders (DP.sections (snd r))
      /\ S (length (DP.sections (snd r))) = length (DP.sections p)
      /\ DP.word_count (snd r) = words_of_sections (DP.sections (snd r))
      /\ (NoDup (map PS.id (DP.sections p)) -> DP.get_section section_id (snd r) = None)).
Proof.
  unfold DP.remove_section. split.
  - intros ->. reflexivity.
  - intros i Hi. rewrite Hi. run_monad.
    destruct (update_stats_consistent
                (DP._reorder_sections (DP.set_sections (delete i (DP.sections p)) p)) w)
      as (Hsec & Hwc & _).
    cbn [DP.sections DP.set_sections DP._reorder_sections] in Hsec, Hwc.
    apply find_index_Some in Hi as [(s & Hs & Ht) Hfirst].
    split; [reflexivity |]. rewrite Hsec.
    split; [apply renumber_from_frame |].
    split; [apply renumber_from_dense |].
    split.
    { rewrite renumber_from_length, length_delete by (by exists s).
      apply lookup_lt_Some in Hs. lia. }
    split; [by rewrite Hwc |].
    intros Hnodup. unfold DP.get_section. rewrite Hsec. apply find_index_None.
    intros s' Hs'. apply list_elem_of_lookup in Hs' as [k Hk].
    rewrite renumber_from_lookup in Hk.
    destruct (delete i (DP.sections p) !! k) as [s0 |] eqn:Hs0; [| discriminate].
    injection Hk as <-. cbn [PS.id PS.set_order].
    apply String.eqb_neq. intros Heq.
    apply String.eqb_eq in Ht.
    assert (Hpos : exists k', k' <> i /\ DP.sections p !! k' = Some s0).
    { destruct (decide (k < i)%nat) as [Hlt | Hge].
      - exists k. split; [lia |]. by rewrite list_lookup_delete_lt in Hs0.
      - exists (S k). split; [lia |]. by rewrite list_lookup_delete_ge in Hs0 by lia. }
    destruct Hpos as (k' & Hne & Hk').
    apply Hne. apply (NoDup_lookup _ k' i section_id Hnodup).
    + rewrite <- Heq. apply (lookup_map_Some PS.id). exact Hk'.
    + rewrite <- Ht. apply (lookup_map_Some PS.id). exact Hs.
Qed.

(** X8 at work: section ["a"] leaves [projection_two_sections]. *)
Lemma remove_section_spec_witness :
  dense_orders (DP.sections (snd (fst (DP.remove_section "a" projection_two_sections w0))))
  /\ DP.get_section "a" (snd (fst (DP.remove_section "a" projection_two_sections w0))) = None.
Proof.
  destruct (remove_section_spec "a" projection_two_sections w0) as [_ Hfound].
  destruct (Hfound 0%nat eq_refl) as (_ & _ & Hdense & _ & _ & Hgone).
  split; [exact Hdense |]. apply Hgone.
  apply (bool_decide_unpack _). vm_compute. exact I.
Defined.

Lemma find_index_insert test l i s s' :
  DP.find_index test l = Some i -> l !! i = Some s -> test s' = true ->
  DP.find_index test (<[i := s']> l) = Some i.
Proof.
  intros Hi Hs Ht'. apply find_index_Some in Hi as [_ Hfirst].
  apply find_index_Some. split.
  - exists s'. split; [| exact Ht']. apply list_lookup_insert_eq. by eapply lookup_lt_Some.
  - intros j s0 Hj Hl. rewrite list_lookup_insert_ne in Hl by lia. by eapply Hfirst.
Qed.

(** X9. [lock_section] and [unlock_section] of a projection return [False]
    and change nothing when no section has the id.  Otherwise [lock_section]
    returns [True] and locks the first section of that id, and only that
    one: it is then listed by [get_locked_sections] and not by
    [get_regeneratable_sections], it is still the section found for the id,
    and [unlock_section] gives the sections of before with that section
    unlocked. *)
Theorem lock_section_spec section_id user_id reason p w :
  (DP.get_section section_id p = None ->
   DP.lock_section section_id user_id reason p w = ((false, p), w)
   /\ DP.unlock_section section_id p = (false, p))
  /\ (forall i, DP.get_section section_id p = Some i ->
      exists s, DP.sections p !! i = Some s /\ PS.id s = section_id /\
      let r := fst (DP.lock_section section_id user_id reason p w) in
      fst r = true
      /\ DP.sections (snd r) = <[i := fst (PS.lock user_id reason s w)]> (DP.sections p)
      /\ i ∈ DP.get_locked_sections (snd r)
      /\ (i ∈ DP.get_regeneratable_sections (snd r) -> False)
      /\ DP.get_section section_id (snd r) = Some i
      /\ fst (DP.unlock_section section_id (snd r)) = true
      /\ DP.sections (snd (DP.unlock_section section_id (snd r)))
         = <[i := PS.unlock s]> (DP.sections p)).
Proof.
  unfold DP.lock_section, DP.unlock_section. split.
  - intros ->. split; reflexivity.
  - intros i Hi. rewrite Hi.
    destruct (proj1 (find_index_Some _ _ _) Hi) as [(s & Hs & Ht) _].
    exists s. split; [exact Hs |]. split; [by apply String.eqb_eq |].
    run_monad. rewrite update_section_at_run.
    assert (Hs' : DP.sections p !! i = Some s) by exact Hs.
    rewrite Hs'. cbn [fst snd DP.sections DP.set_sections].
    assert (Hlen : (i < length (DP.sections p))%nat) by (by eapply lookup_lt_Some).
    assert (Hlocked : <[i := fst (PS.lock user_id reason s w)]> (DP.sections p) !! i
                      = Some (fst (PS.lock user_id reason s w)))
      by (by apply list_lookup_insert_eq).
    assert (Hget : DP.get_section section_id
                     (DP.set_sections (<[i := fst (PS.lock user_id reason s w)]> (DP.sections p)) p)
                   = Some i).
    { unfold DP.get_section. cbn [DP.sections DP.set_sections].
      eapply find_index_insert; [exact Hi | exact Hs | exact Ht]. }
    split; [reflexivity |]. split; [reflexivity |].
    split; [| split; [| split; [exact Hget |]]].
    + apply select_iff. eexists. split; [exact Hlocked | reflexivity].
    + intros Hin. apply select_iff in Hin as (s0 & Hs0 & Hreg).
      cbn [DP.sections DP.set_sections] in Hs0.
      assert (Heq : Some s0 = Some (fst (PS.lock user_id reason s w)))
        by (rewrite <- Hs0; exact Hlocked).
      injection Heq as ->. discriminate Hreg.
    + rewrite Hget. cbn [fst snd DP.sections DP.set_sections].
      split; [reflexivity |].
      unfold DP.section_ref in *.
      apply list_eq. intros k. destruct (decide (k = i)) as [-> | Hne].
      * rewrite list_lookup_alter_eq, Hlocked, list_lookup_insert_eq by exact Hlen.
        reflexivity.
      * rewrite list_lookup_alter_ne, !list_lookup_insert_ne by auto. reflexivity.
Qed.

(** X9 at work on section ["b"] of [projection_two_sections]. *)
Lemma lock_section_spec_witness :
  exists s, DP.sections projection_two_sections !! 1%nat = Some s /\ PS.id s = "b" /\
    let r := fst (DP.lock_section "b" "user1" "approved" projection_two_sections w0) in
    fst r = true
    /\ DP.sections (snd r)
       = <[1%nat := fst (PS.lock "user1" "approved" s w0)]> (DP.sections projection_two_sections)
    /\ 1%nat ∈ DP.get_locked_sections (snd r)
    /\ (1%nat ∈ DP.get_regeneratable_sections (snd r) -> False)
    /\ DP.get_section "b" (snd r) = Some 1%nat
    /\ fst (DP.unlock_section "b" (snd r)) = true
    /\ DP.sections (snd (DP.unlock_section "b" (snd r)))
       = <[1%nat := PS.unlock s]> (DP.sections projection_two_sections).
Proof.
  apply (proj2 (lock_section_spec "b" "user1" "approved" projection_two_sections w0) 1%nat).
  reflexivity.
Defined.

(** ** What an update pass leaves alone *)

Lemma same_frame_refl s : same_frame s s.
Proof. by repeat split. Qed.

Lemma same_frame_trans a b c : same_frame a b -> same_frame b c -> same_frame a c.
Proof.
  intros (H1 & H2 & H3 & H4 & H5) (G1 & G2 & G3 & G4 & G5).
  repeat split; congruence.
Qed.

Lemma update_content_frame new_content ids trigger s w :
  same_frame s (fst (PS.update_content new_content ids trigger s w)).
Proof.
  rewrite update_content_run. cbn.
  destruct (str_truthy (PS.content s)) eqn:Hc; [| by repeat split].
  rewrite save_to_history_run, Hc. by repeat split.
Qed.

Lemma update_section_frame svc p mode items s w :
  same_frame s (fst (Svc._update_section svc p mode items s w)).
Proof.
  unfold Svc._update_section. destruct mode; run_monad.
  - apply update_content_frame.
  - apply update_content_frame.
  - match goal with |- context [filter ?P ?l] => destruct (filter P l) end; run_monad.
    + apply same_frame_refl.
    + apply update_content_frame.
  - match goal with |- context [PS.is_stale ?a ?b] => destruct (PS.is_stale a b) end; run_monad.
    + apply update_content_frame.
    + apply same_frame_refl.
Qed.

(** The loop over the candidates relates every section to what it becomes,
    for a relation that each step respects. *)
Lemma update_loop_related (R : PS.t -> PS.t -> Prop) (F : DP.t -> PS.t -> M PS.t) :
  (forall s, R s s) ->
  (forall a b c, R a b -> R b c -> R a c) ->
  (forall p s w, R s (fst (F p s w))) ->
  forall (cands : list nat) p w (j : nat) s,
    DP.sections p !! j = Some s ->
    exists s',
      DP.sections (fst (for_each cands (fun i p0 => DP.update_section_at i (F p0) p0) p w)) !! j
      = Some s' /\ R s s'.
Proof.
  intros Hrefl Htrans HF cands.
  induction cands as [| i cands IH]; intros p w j s Hj.
  - exists s. split; [exact Hj | apply Hrefl].
  - rewrite for_each_cons.
    assert (Hstep : exists s1,
               DP.sections (fst (DP.update_section_at i (F p) p w)) !! j = Some s1 /\ R s s1).
    { destruct (decide (i = j)) as [-> | Hne].
      - exists (fst (F p s w)). split; [by apply update_section_at_same | apply HF].
      - exists s. split; [by rewrite update_section_at_other | apply Hrefl]. }
    destruct Hstep as (s1 & Hs1 & HR1).
    destruct (IH _ (snd (DP.update_section_at i (F p) p w)) j s1 Hs1) as (s' & Hs' & HR').
    exists s'. split; [exact Hs' | by eapply Htrans].
Qed.

Lemma update_loop_untouched (F : DP.t -> PS.t -> M PS.t) (cands : list nat) p w (j : nat) :
  j ∉ cands ->
  DP.sections (fst (for_each cands (fun i p0 => DP.update_section_at i (F p0) p0) p w)) !! j
  = DP.sections p !! j.
Proof.
  revert p w. induction cands as [| i cands IH]; intros p w Hj; [reflexivity |].
  rewrite for_each_cons, IH by (intros Hin; apply Hj; by right).
  apply update_section_at_other. intros ->. apply Hj. by left.
Qed.

Lemma update_loop_length (F : DP.t -> PS.t -> M PS.t) (cands : list nat) p w :
  length (DP.sections (fst (for_each cands (fun i p0 => DP.update_section_at i (F p0) p0) p w)))
  = length (DP.sections p).
Proof.
  apply (for_each_invariant (fun p0 => length (DP.sections p0) = length (DP.sections p)));
    [| reflexivity].
  intros i p0 w0 _ Hlen. rewrite update_section_at_run.
  match goal with |- context [match ?x with _ => _ end] => destruct x end;
    cbn; [| exact Hlen].
  by rewrite length_insert.
Qed.

(** A section that cannot be regenerated, or that is not stale in a mode
    other than REGENERATE, is no candidate. *)
Lemma not_candidate mode content_ids p (j : nat) s :
  DP.sections p !! j = Some s ->
  PS.can_regenerate s = false
  \/ (mode <> REGENERATE /\ PS.is_stale content_ids s = false) ->
  j ∉ Svc.sections_to_update mode content_ids p.
Proof.
  intros Hj Hs Hin.
  assert (Hcand : exists s', DP.sections p !! j = Some s' /\ PS.can_regenerate s' = true
                   /\ (mode <> REGENERATE -> PS.is_stale content_ids s' = true)).
  { unfold Svc.sections_to_update, DP.get_regeneratable_sections, DP.get_stale_sections in Hin.
    destruct mode; apply elem_of_select in Hin as (s' & Hl & Hs'); exists s';
      (split; [exact Hl |]); try apply andb_true_iff in Hs' as [? ?]; split; auto; done. }
  destruct Hcand as (s' & Hl & Hreg & Hstale).
  assert (Heq : Some s' = Some s) by (rewrite <- Hl; exact Hj).
  injection Heq as ->.
  destruct Hs as [Hno | [Hmode Hfresh]]; [congruence |].
  specialize (Hstale Hmode). congruence.
Qed.

(** X10. An update pass, in any mode, keeps the number of sections, and
    every section keeps its position, id, title, order, summary and
    contributors.  A section that cannot be regenerated (LOCKED or DRAFT) is
    returned as it was, and so is, in every mode but REGENERATE, a section
    that is not stale against the pool's ids. *)
Theorem update_projection_frame svc mode p w :
  let p' := fst (Svc.update_projection svc mode p w) in
  length (DP.sections p') = length (DP.sections p)
  /\ forall (j : nat) s, DP.sections p !! j = Some s ->
     exists s', DP.sections p' !! j = Some s'
       /\ same_frame s s'
       /\ (PS.can_regenerate s = false -> s' = s)
       /\ (forall pool, Svc._content_pools svc !! DP.project_id p = Some pool ->
           mode <> REGENERATE ->
           PS.is_stale (ContentPool.content_ids pool) s = false -> s' = s).
Proof.
  cbv zeta.
  destruct (Svc._content_pools svc !! DP.project_id p) as [pool |] eqn:Hpool.
  - destruct (update_projection_sections svc mode p w pool Hpool) as (p1 & w1 & Hp1 & ->).
    split; [by rewrite update_loop_length, Hp1 |].
    intros j s Hj.
    assert (Hj1 : DP.sections p1 !! j = Some s) by (by rewrite Hp1).
    destruct (update_loop_related same_frame
                (fun p0 => Svc._update_section svc p0 mode
                             (Some (Svc.items_of svc (ContentPool.content_ids pool))))
                same_frame_refl same_frame_trans
                (fun p0 s0 w0 => update_section_frame svc p0 mode _ s0 w0)
                (Svc.sections_to_update mode (ContentPool.content_ids pool) p1) p1 w1 j s Hj1)
      as (s' & Hs' & Hframe).
    exists s'. split; [exact Hs' |]. split; [exact Hframe |].
    assert (Hkeep : j ∉ Svc.sections_to_update mode (ContentPool.content_ids pool) p1 -> s' = s).
    { intros Hout. rewrite update_loop_untouched in Hs' by exact Hout. congruence. }
    split.
    + intros Hno. apply Hkeep. eapply not_candidate; [exact Hj1 | by left].
    + intros pool' [= <-] Hmode Hfresh. apply Hkeep.
      eapply not_candidate; [exact Hj1 | by right].
  - unfold Svc.update_projection. rewrite Hpool. split; [reflexivity |].
    intros j s Hj. exists s. split; [exact Hj |]. split; [apply same_frame_refl |].
    split; [reflexivity |]. intros pool [=].
Qed.

(** X10 at work: the generated section of [projection_locked] keeps its
    frame when the projection is regenerated. *)
Lemma update_projection_frame_witness :
  exists s',
    DP.sections (fst (Svc.update_projection (service_two_items None) REGENERATE
                        projection_locked w0)) !! 1%nat = Some s'
    /\ same_frame (section_with "sec2" "Education" "Old prose" GENERATED ["c1"]) s'.
Proof.
  destruct (update_projection_frame (service_two_items None) REGENERATE projection_locked w0)
    as [_ Hsec].
  destruct (Hsec 1%nat _ eq_refl) as (s' & Hs' & Hframe & _).
  exists s'. split; [exact Hs' | exact Hframe].
Defined.

(** ** Modes that only add to the prose *)

Lemma append_cons (c : ascii) (a b : string) : String c a +:+ b = String c (a +:+ b).
Proof. reflexivity. Qed.

Lemma append_empty_r (s : string) : s +:+ "" = s.
Proof.
  induction s as [| c s IH]; [reflexivity |]. by rewrite append_cons, IH.
Qed.

Lemma append_assoc (a b c : string) : (a +:+ b) +:+ c = a +:+ (b +:+ c).
Proof.
  induction a as [| x a IH]; [reflexivity |]. by rewrite !append_cons, IH.
Qed.

Lemma content_extends_refl s : content_extends s s.
Proof. exists "". by rewrite append_empty_r. Qed.

Lemma content_extends_trans a b c :
  content_extends a b -> content_extends b c -> content_extends a c.
Proof.
  intros [r1 H1] [r2 H2]. exists (r1 +:+ r2). by rewrite H2, H1, append_assoc.
Qed.

Lemma count_words_from_nonneg s : forall in_word, 0 <= count_words_from in_word s.
Proof.
  induction s as [| c s IH]; intros in_word; cbn; [lia |].
  destruct (is_space c); [apply IH |].
  specialize (IH true). destruct in_word; lia.
Qed.

(** Text added at the end never lowers the number of words. *)
Lemma count_words_append a b : count_words a <= count_words (a +:+ b).
Proof.
  unfold count_words. generalize false.
  induction a as [| c a IH]; intros in_word.
  - apply count_words_from_nonneg.
  - rewrite append_cons. cbn [count_words_from].
    destruct (is_space c); [apply IH |].
    specialize (IH true). lia.
Qed.

Lemma str_falsy_empty s : str_truthy s = false -> s = "".
Proof. destruct s; [reflexivity | discriminate]. Qed.

(** Without a model that answers, [_evolve_section_content] returns the
    existing content with something added. *)
Lemma evolve_extends svc topic existing items config context w :
  Svc._ai svc = None \/ Svc._ai svc = Some failing_model ->
  exists rest,
    fst (Svc._evolve_section_content svc topic existing items config context w)
    = existing +:+ rest.
Proof.
  intros Hai. unfold Svc._evolve_section_content.
  destruct items as [| item items]; [exists ""; by rewrite append_empty_r |].
  destruct (str_truthy existing) eqn:Hex.
  - destruct Hai as [-> | ->]; run_monad; eexists; reflexivity.
  - apply str_falsy_empty in Hex as ->.
    destruct Hai as [-> | ->]; run_monad; eexists; reflexivity.
Qed.

Lemma update_section_extends svc p mode items s w :
  mode = APPEND
  \/ (mode = EVOLVE /\ (Svc._ai svc = None \/ Svc._ai svc = Some failing_model)) ->
  content_extends s (fst (Svc._update_section svc p mode items s w)).
Proof.
  intros [-> | [-> Hai]]; unfold Svc._update_section; run_monad.
  - match goal with |- context [filter ?P ?l] => destruct (filter P l) end; run_monad.
    + apply content_extends_refl.
    + eexists. match goal with |- PS.content (fst (PS.update_content ?c ?i ?t ?s0 ?w0)) = _ =>
        rewrite (proj1 (update_content_fields c i t s0 w0)) end.
      reflexivity.
  - match goal with |- context [Svc._evolve_section_content ?a ?b ?c ?d ?e ?f ?g] =>
      destruct (evolve_extends a b c d e f g Hai) as [rest Hrest] end.
    exists rest.
    match goal with |- PS.content (fst (PS.update_content ?c ?i ?t ?s0 ?w0)) = _ =>
      rewrite (proj1 (update_content_fields c i t s0 w0)) end.
    exact Hrest.
Qed.

(** X11. An APPEND pass never discards prose: the content of every section
    after the pass starts with its content of before, and its number of words
    is not lower.  The same holds of an EVOLVE pass when the service has no
    language model, or one whose every call fails. *)
Theorem append_keeps_prose svc mode p w :
  mode = APPEND
  \/ (mode = EVOLVE /\ (Svc._ai svc = None \/ Svc._ai svc = Some failing_model)) ->
  forall (j : nat) s, DP.sections p !! j = Some s ->
  exists s',
    DP.sections (fst (Svc.update_projection svc mode p w)) !! j = Some s'
    /\ content_extends s s'
    /\ count_words (PS.content s) <= count_words (PS.content s').
Proof.
  intros Hmode j s Hj.
  assert (H : exists s',
             DP.sections (fst (Svc.update_projection svc mode p w)) !! j = Some s'
             /\ content_extends s s').
  { destruct (Svc._content_pools svc !! DP.project_id p) as [pool |] eqn:Hpool.
    - destruct (update_projection_sections svc mode p w pool Hpool) as (p1 & w1 & Hp1 & ->).
      assert (Hj1 : DP.sections p1 !! j = Some s) by (by rewrite Hp1).
      apply (update_loop_related content_extends
               (fun p0 => Svc._update_section svc p0 mode
                            (Some (Svc.items_of svc (ContentPool.content_ids pool))))
               content_extends_refl content_extends_trans); [| exact Hj1].
      intros p0 s0 w0. by apply update_section_extends.
    - unfold Svc.update_projection. rewrite Hpool.
      exists s. split; [exact Hj | apply content_extends_refl]. }
  destruct H as (s' & Hs' & Hext). exists s'.
  split; [exact Hs' |]. split; [exact Hext |].
  destruct Hext as [rest ->]. apply count_words_append.
Qed.

(** X11 at work: an APPEND pass over [projection_family]. *)
Lemma append_keeps_prose_witness :
  exists s',
    DP.sections (fst (Svc.update_projection (service_two_items None) APPEND
                        projection_family w0)) !! 0%nat = Some s'
    /\ content_extends (section_with "sec1" "Family" "Old prose" GENERATED ["c1"]) s'
    /\ count_words "Old prose" <= count_words (PS.content s').
Proof.
  apply (append_keeps_prose (service_two_items None) APPEND projection_family w0).
  - left. reflexivity.
  - reflexivity.
Defined.

(** ** The bookkeeping of an update pass *)

(** What [mark_updated] keeps, and the time stamp it sets. *)
Lemma mark_updated_meta content_ids mode summary p w :
  let p' := fst (DP.mark_updated content_ids mode summary p w) in
  DP.id p' = DP.id p /\ DP.project_id p' = DP.project_id p
  /\ DP.config p' = DP.config p /\ DP.context p' = DP.context p
  /\ is_Some (DP.last_regenerated p').
Proof.
  unfold DP.mark_updated. run_monad. unfold DP._update_stats. run_monad.
  rewrite save_version_run. cbn. repeat split; by eexists.
Qed.

(** The fields of a projection that the loop over the candidates never
    touches. *)
Lemma update_loop_meta (F : DP.t -> PS.t -> M PS.t) (cands : list nat) p w :
  DP.set_sections []
    (fst (for_each cands (fun i p0 => DP.update_section_at i (F p0) p0) p w))
  = DP.set_sections [] p.
Proof.
  apply (for_each_invariant (fun p0 => DP.set_sections [] p0 = DP.set_sections [] p));
    [| reflexivity].
  intros i p0 w0 _ Hmeta. rewrite update_section_at_run.
  match goal with |- context [match ?x with _ => _ end] => destruct x end;
    cbn [fst]; [| exact Hmeta].
  rewrite <- Hmeta. reflexivity.
Qed.

(** An update pass of a projection whose project has a pool ends in
    [mark_updated], on a projection that differs from the given one in its
    sections and its narrative context only. *)
Lemma update_projection_shape svc mode p w pool :
  Svc._content_pools svc !! DP.project_id p = Some pool ->
  exists p2 w2 summary context,
    Svc.update_projection svc mode p w
    = DP.mark_updated (ContentPool.content_ids pool) mode summary p2 w2
    /\ DP.set_sections [] p2 = DP.set_sections [] (DP.set_context context p)
    /\ length (DP.sections p2) = length (DP.sections p).
Proof.
  intros Hpool. unfold Svc.update_projection. rewrite Hpool.
  unfold ContentPool.get_filtered_ids.
  destruct (ContentPool.get_new_content_ids (DP.content_snapshot_ids p) pool) as [| c cs].
  - run_monad. eexists _, _, _, (DP.context p).
    split; [reflexivity |]. split.
    + rewrite update_loop_meta. by destruct p.
    + apply update_loop_length.
  - run_monad. eexists _, _, _, _.
    split; [reflexivity |]. split.
    + rewrite update_loop_meta. reflexivity.
    + by rewrite update_loop_length.
Qed.

(** X12. Without a content pool for its project, [update_projection]
    returns the projection as it was and reads no clock.  With a pool, in
    every mode and however many sections were updated: the version grows by
    one, the content snapshot is the pool's id list (so no id of the pool is
    new afterwards), the word count is current, [last_regenerated] is set,
    and the newest entry of the version history records the version, section
    count, word count and snapshot size of before, with the mode. *)
Theorem update_projection_bookkeeping svc mode p w :
  (Svc._content_pools svc !! DP.project_id p = None ->
   Svc.update_projection svc mode p w = (p, w))
  /\ (forall pool, Svc._content_pools svc !! DP.project_id p = Some pool ->
      let p' := fst (Svc.update_projection svc mode p w) in
      DP.version p' = DP.version p + 1
      /\ DP.content_snapshot_ids p' = ContentPool.content_ids pool
      /\ ContentPool.get_new_content_ids (DP.content_snapshot_ids p') pool = []
      /\ DP.word_count p' = words_of_sections (DP.sections p')
      /\ is_Some (DP.last_regenerated p')
      /\ DP.id p' = DP.id p /\ DP.project_id p' = DP.project_id p
      /\ DP.config p' = DP.config p
      /\ exists entry,
           last (DP.version_history p') = Some entry
           /\ ProjectionVersion.version entry = DP.version p
           /\ ProjectionVersion.trigger entry = "update"
           /\ ProjectionVersion.update_mode entry = Some mode
           /\ ProjectionVersion.section_count entry = len (DP.sections p)
           /\ ProjectionVersion.word_count entry = DP.word_count p
           /\ ProjectionVersion.content_item_count entry = len (DP.content_snapshot_ids p)).
Proof.
  split.
  - intros Hnone. unfold Svc.update_projection. by rewrite Hnone.
  - intros pool Hpool.
    destruct (update_projection_shape svc mode p w pool Hpool)
      as (p2 & w2 & summary & context & -> & Hmeta & Hlen).
    cbv zeta.
    destruct (mark_updated_fields (ContentPool.content_ids pool) mode summary p2 w2)
      as (Hv & Hvh & Hsec & Hsnap & Hwc).
    destruct (mark_updated_meta (ContentPool.content_ids pool) mode summary p2 w2)
      as (Hid & Hproj & Hconf & _ & Hreg).
    assert (Hversion : DP.version p2 = DP.version p)
      by exact (f_equal DP.version Hmeta).
    assert (Hhistory : DP.version_history p2 = DP.version_history p)
      by exact (f_equal DP.version_history Hmeta).
    assert (Hwords : DP.word_count p2 = DP.word_count p)
      by exact (f_equal DP.word_count Hmeta).
    assert (Hseen : DP.content_snapshot_ids p2 = DP.content_snapshot_ids p)
      by exact (f_equal DP.content_snapshot_ids Hmeta).
    split; [by rewrite Hv, Hversion |].
    split; [exact Hsnap |].
    split; [rewrite Hsnap; by apply new_content_ids_none |].
    split; [by rewrite Hwc, Hsec, words_of_nonempty_sections |].
    split; [exact Hreg |].
    split; [rewrite Hid; exact (f_equal DP.id Hmeta) |].
    split; [rewrite Hproj; exact (f_equal DP.project_id Hmeta) |].
    split; [rewrite Hconf; exact (f_equal DP.config Hmeta) |].
    rewrite Hvh, save_version_run. cbn [fst DP.version_history DP.set_version_history].
    eexists. split; [apply (last_last_n 19) |].
    cbn. unfold len. rewrite Hversion, Hwords, Hseen, Hlen. by repeat split.
Qed.

(** X12 at work on [projection_family], whose project has the pool
    [pool_c1_c2]. *)
Lemma update_projection_bookkeeping_witness :
  DP.version (fst (Svc.update_projection (service_two_items None) REFRESH projection_family w0))
  = DP.version projection_family + 1
  /\ DP.content_snapshot_ids
       (fst (Svc.update_projection (service_two_items None) REFRESH projection_family w0))
     = ["c1"; "c2"].
Proof.
  destruct (update_projection_bookkeeping (service_two_items None) REFRESH projection_family w0)
    as [_ Hpool].
  destruct (Hpool pool_c1_c2 eq_refl) as (Hv & Hsnap & _).
  split; [exact Hv | exact Hsnap].
Defined.

(** ** A language model that is down *)

Lemma agree_ret {A : Type} (a : A) : agree (ret a) (ret a).
Proof. intros w w' Hw. by split. Qed.

Lemma agree_bind {A B : Type} (f g : M A) (kf kg : A -> M B) :
  agree f g -> (forall a, agree (kf a) (kg a)) -> agree (bind f kf) (bind g kg).
Proof.
  intros Hfg Hk w w' Hw. destruct (Hfg w w' Hw) as [Ha Hw1].
  rewrite !bind_run, Ha. apply Hk, Hw1.
Qed.

Lemma agree_utc_now : agree utc_now utc_now.
Proof.
  intros w w' [Hclock Hticks]. unfold utc_now. cbn. rewrite Hclock, Hticks.
  by repeat split.
Qed.

(** A call to the model that is down is an exception, and nothing else. *)
Lemma agree_ask_failing {A : Type} (call : AICall) (k : AIReply -> M A) (g : M A) :
  agree (k ReplyError) g -> agree (bind (ask failing_model call) k) g.
Proof.
  intros Hk w w' [Hclock Hticks]. rewrite bind_run. apply Hk. by split.
Qed.

Lemma agree_for_each {A S : Type} (xs : list A) (body body' : A -> S -> M S) :
  (forall x s, agree (body x s) (body' x s)) ->
  forall s, agree (for_each xs body s) (for_each xs body' s).
Proof.
  intros Hbody. induction xs as [| x xs IH]; intros s; cbn [for_each].
  - apply agree_ret.
  - apply agree_bind; [apply Hbody | exact IH].
Qed.

Ltac agree_steps :=
  repeat first
    [ apply agree_ret
    | apply agree_utc_now
    | apply agree_bind; [| intros ?] ].

Lemma agree_save_to_history trigger user_id s :
  agree (PS._save_to_history trigger user_id s) (PS._save_to_history trigger user_id s).
Proof.
  unfold PS._save_to_history. destruct (negb (str_truthy (PS.content s))); agree_steps.
Qed.

Lemma agree_update_content new_content ids trigger s :
  agree (PS.update_content new_content ids trigger s)
        (PS.update_content new_content ids trigger s).
Proof.
  unfold PS.update_content. apply agree_bind.
  - destruct (str_truthy (PS.content s)); [apply agree_save_to_history | apply agree_ret].
  - intros s1. agree_steps.
Qed.

Lemma agree_generate svc topic items config context :
  agree (Svc._generate_section_content (with_ai (Some failing_model) svc) topic items
           config context)
        (Svc._generate_section_content (with_ai None svc) topic items config context).
Proof.
  unfold Svc._generate_section_content.
  destruct items as [| item items]; [apply agree_ret |].
  destruct (Svc._extract_texts (item :: items)); [apply agree_ret |].
  cbn [Svc._ai with_ai]. apply agree_ask_failing, agree_ret.
Qed.

Lemma agree_evolve svc topic existing items config context :
  agree (Svc._evolve_section_content (with_ai (Some failing_model) svc) topic existing items
           config context)
        (Svc._evolve_section_content (with_ai None svc) topic existing items config context).
Proof.
  unfold Svc._evolve_section_content.
  destruct items as [| item items]; [apply agree_ret |].
  cbn [Svc._ai with_ai].
  destruct (str_truthy existing); [| apply agree_ret].
  apply agree_ask_failing, agree_ret.
Qed.

Lemma agree_update_section svc p mode items s :
  agree (Svc._update_section (with_ai (Some failing_model) svc) p mode items s)
        (Svc._update_section (with_ai None svc) p mode items s).
Proof.
  unfold Svc._update_section.
  change (Svc._content_pools (with_ai (Some failing_model) svc)) with (Svc._content_pools svc).
  change (Svc._content_pools (with_ai None svc)) with (Svc._content_pools svc).
  change (Svc.items_of (with_ai (Some failing_model) svc)) with (Svc.items_of svc).
  change (Svc.items_of (with_ai None svc)) with (Svc.items_of svc).
  destruct mode.
  - apply agree_bind; [apply agree_generate | intros c; apply agree_update_content].
  - apply agree_bind; [apply agree_evolve | intros c; apply agree_update_content].
  - match goal with |- context [filter ?P ?l] => destruct (filter P l) end;
      [apply agree_ret |].
    apply agree_bind; [apply agree_generate | intros c; apply agree_update_content].
  - match goal with |- context [PS.is_stale ?a ?b] => destruct (PS.is_stale a b) end;
      [| apply agree_ret].
    apply agree_bind; [apply agree_generate | intros c; apply agree_update_content].
Qed.

Lemma agree_update_section_at (i : nat) (f g : PS.t -> M PS.t) p :
  (forall s, agree (f s) (g s)) ->
  agree (DP.update_section_at i f p) (DP.update_section_at i g p).
Proof.
  intros Hfg. unfold DP.update_section_at.
  match goal with |- context [match ?x with _ => _ end] => destruct x end;
    [| apply agree_ret].
  apply agree_bind; [apply Hfg | intros s'; apply agree_ret].
Qed.

Lemma agree_update_narrative_context svc context items :
  agree (Svc._update_narrative_context (with_ai (Some failing_model) svc) context items)
        (Svc._update_narrative_context (with_ai None svc) context items).
Proof.
  unfold Svc._update_narrative_context.
  destruct items as [| item items]; [apply agree_ret |].
  cbn [Svc._ai with_ai]. apply agree_bind.
  - apply agree_ask_failing, agree_ret.
  - intros c. unfold NC.update. agree_steps.
Qed.

Lemma agree_mark_updated content_ids mode summary p :
  agree (DP.mark_updated content_ids mode summary p)
        (DP.mark_updated content_ids mode summary p).
Proof.
  unfold DP.mark_updated, DP._save_version, DP._update_stats. agree_steps.
Qed.

(** X13. A model whose every call fails is as good as no model: an update
    pass of the service gives the same projection, field by field, with the
    model down as with the stub generation (the clock is read as often; only
    the log of the calls differs). *)
Theorem model_down_is_no_model svc mode p w :
  fst (Svc.update_projection (with_ai (Some failing_model) svc) mode p w)
  = fst (Svc.update_projection (with_ai None svc) mode p w)
  /\ same_time (snd (Svc.update_projection (with_ai (Some failing_model) svc) mode p w))
               (snd (Svc.update_projection (with_ai None svc) mode p w)).
Proof.
  assert (H : agree (Svc.update_projection (with_ai (Some failing_model) svc) mode p)
                    (Svc.update_projection (with_ai None svc) mode p));
    [| apply H; by split].
  unfold Svc.update_projection.
  change (Svc._content_pools (with_ai (Some failing_model) svc)) with (Svc._content_pools svc).
  change (Svc._content_pools (with_ai None svc)) with (Svc._content_pools svc).
  change (Svc.items_of (with_ai (Some failing_model) svc)) with (Svc.items_of svc).
  change (Svc.items_of (with_ai None svc)) with (Svc.items_of svc).
  destruct (Svc._content_pools svc !! DP.project_id p) as [pool |]; [| apply agree_ret].
  apply agree_bind.
  - destruct (ContentPool.get_new_content_ids (DP.content_snapshot_ids p) pool);
      [apply agree_ret |].
    apply agree_bind; [apply agree_update_narrative_context | intros c; apply agree_ret].
  - intros p1. apply agree_bind; [| intros p2; apply agree_mark_updated].
    apply agree_for_each. intros i p0. apply agree_update_section_at.
    intros s. apply agree_update_section.
Qed.

(** ** The service's section operations *)

Lemma set_projections_same svc : Svc.set_projections (Svc._projections svc) svc = svc.
Proof. by destruct svc. Qed.

Lemma set_sections_same p : DP.set_sections (DP.sections p) p = p.
Proof. by destruct p. Qed.

(** A mutation that returns the projection as it was leaves the service as
    it was. *)
Lemma with_projection_unchanged {A : Type} projection_id (absent a : A)
    (f : DP.t -> M (A * DP.t)) svc p w :
  Svc._projections svc !! projection_id = Some p ->
  f p w = ((a, p), w) ->
  Svc.with_projection projection_id absent f svc w = ((a, svc), w).
Proof.
  intros Hp Hf. unfold Svc.with_projection. rewrite Hp. run_monad. rewrite Hf. cbn.
  by rewrite insert_id, set_projections_same.
Qed.

(** X14. The four section operations of the service ([lock_section],
    [unlock_section], [edit_section], [revert_section]) return [False] and
    change nothing (service and clock) when the projection id is unknown, or
    when the projection has no section of the given id. *)
Theorem section_operations_not_found projection_id section_id svc w :
  (Svc._projections svc !! projection_id = None
   \/ exists p, Svc._projections svc !! projection_id = Some p
                /\ DP.get_section section_id p = None) ->
  (forall user_id reason,
      Svc.lock_section projection_id section_id user_id reason svc w = ((false, svc), w))
  /\ Svc.unlock_section projection_id section_id svc w = ((false, svc), w)
  /\ (forall new_content lock user_id,
        Svc.edit_section projection_id section_id new_content lock user_id svc w
        = ((false, svc), w))
  /\ (forall version,
        Svc.revert_section projection_id section_id version svc w = ((false, svc), w)).
Proof.
  unfold Svc.lock_section, Svc.unlock_section, Svc.edit_section, Svc.revert_section.
  intros [Hnone | (p & Hp & Hsec)].
  - unfold Svc.with_projection. rewrite Hnone. by repeat split.
  - repeat split; intros; eapply with_projection_unchanged; try exact Hp.
    + unfold DP.lock_section. by rewrite Hsec.
    + unfold DP.unlock_section. by rewrite Hsec.
    + by rewrite Hsec.
    + by rewrite Hsec.
Qed.

(** X14 at work: [service_edited] stores no projection ["doc9"]. *)
Lemma section_operations_not_found_witness :
  Svc.unlock_section "doc9" "sec1" service_edited w0 = ((false, service_edited), w0).
Proof.
  apply (section_operations_not_found "doc9" "sec1" service_edited w0).
  left. reflexivity.
Defined.

(** X15. [revert_section] with a version that the section's history does
    not hold returns [False] and changes nothing.  When it succeeds, the
    stored projection differs in that one section only, which is reverted;
    the projection's own version, version history and content snapshot stay
    as they were, and the other projections of the service are not
    touched. *)
Theorem revert_section_spec projection_id section_id version svc w p (i : nat) s :
  Svc._projections svc !! projection_id = Some p ->
  DP.get_section section_id p = Some i ->
  DP.sections p !! i = Some s ->
  let r := fst (Svc.revert_section projection_id section_id version svc w) in
  (history_entry version s = None ->
   Svc.revert_section projection_id section_id version svc w = ((false, svc), w))
  /\ (is_Some (history_entry version s) ->
      fst r = true
      /\ Svc._projections (snd r) !! projection_id
         = Some (DP.set_sections
                   (<[i := snd (fst (PS.revert_to_version version s w))]> (DP.sections p)) p)
      /\ forall other, other <> projection_id ->
           Svc._projections (snd r) !! other = Svc._projections svc !! other).
Proof.
  intros Hp Hi Hs. cbv zeta. unfold Svc.revert_section. split.
  - intros Hnone. eapply with_projection_unchanged; [exact Hp |].
    rewrite Hi.
    assert (Hs' : DP.sections p !! i = Some s) by exact Hs.
    unfold DP.section_ref in *. rewrite Hs'. run_monad.
    rewrite revert_to_version_run, Hnone. cbn.
    by rewrite list_insert_id, set_sections_same.
  - intros [hist Hhist]. unfold Svc.with_projection. rewrite Hp. run_monad.
    rewrite Hi.
    assert (Hs' : DP.sections p !! i = Some s) by exact Hs.
    unfold DP.section_ref in *. rewrite Hs'. run_monad.
    rewrite revert_to_version_run, Hhist. cbn.
    split; [reflexivity |]. split; [by rewrite lookup_insert_eq |].
    intros other Hother. by rewrite lookup_insert_ne.
Qed.

(** X15 at work on [service_edited]: version 1 is in the history. *)
Lemma revert_section_spec_witness :
  fst (fst (Svc.revert_section "doc1" "sec1" 1 service_edited w0)) = true.
Proof.
  apply (revert_section_spec "doc1" "sec1" 1 service_edited w0
           (projection_with [section_edited] ["c1"; "c2"] 3) 0%nat section_edited
           eq_refl eq_refl eq_refl).
  by eexists.
Defined.

(** X16. [edit_section] on a section that is found returns [True],
    whatever the state of the section (a LOCKED section is edited like any
    other): the section reads the new content, the other sections are as
    before, and the word count of the projection is current.  The
    projection's version, version history and content snapshot stay as they
    were, and the other projections of the service are not touched. *)
Theorem edit_section_spec projection_id section_id new_content lock user_id svc w
    p (i : nat) s :
  Svc._projections svc !! projection_id = Some p ->
  DP.get_section section_id p = Some i ->
  DP.sections p !! i = Some s ->
  let r := fst (Svc.edit_section projection_id section_id new_content lock user_id svc w) in
  fst r = true
  /\ (forall other, other <> projection_id ->
        Svc._projections (snd r) !! other = Svc._projections svc !! other)
  /\ exists p',
       Svc._projections (snd r) !! projection_id = Some p'
       /\ DP.sections p'
          = <[i := fst (PS.finish_editing new_content lock user_id s w)]> (DP.sections p)
       /\ PS.content <$> DP.sections p' !! i = Some new_content
       /\ DP.word_count p' = words_of_sections (DP.sections p')
       /\ DP.version p' = DP.version p
       /\ DP.version_history p' = DP.version_history p
       /\ DP.content_snapshot_ids p' = DP.content_snapshot_ids p.
Proof.
  intros Hp Hi Hs. cbv zeta. unfold Svc.edit_section, Svc.with_projection.
  rewrite Hp. run_monad. rewrite Hi. run_monad.
  rewrite update_section_at_run.
  assert (Hs' : DP.sections p !! i = Some s) by exact Hs.
  unfold DP.section_ref in *. rewrite Hs'. cbn [fst snd].
  match goal with |- context [DP._update_stats ?q ?w1] =>
    destruct (update_stats_consistent q w1) as (Hsec & Hwc & _);
    assert (Hmeta : DP.set_sections [] (DP.set_word_count 0
                      (DP.set_updated_at 0 (fst (DP._update_stats q w1))))
                    = DP.set_sections [] (DP.set_word_count 0 (DP.set_updated_at 0 p)))
      by (unfold DP._update_stats; run_monad; reflexivity)
  end.
  cbn [DP.sections DP.set_sections] in Hsec, Hwc.
  split; [reflexivity |].
  split; [intros other Hother; cbn; by rewrite lookup_insert_ne |].
  eexists.
  split; [cbn [fst snd Svc._projections Svc.set_projections]; by rewrite lookup_insert_eq |].
  split; [exact Hsec |].
  split.
  { rewrite Hsec, list_lookup_insert_eq by (by eapply lookup_lt_Some). cbn. f_equal.
    unfold PS.finish_editing. run_monad. by destruct lock. }
  split; [by rewrite Hwc, Hsec |].
  split; [exact (f_equal DP.version Hmeta) |].
  split; [exact (f_equal DP.version_history Hmeta) |].
  exact (f_equal DP.content_snapshot_ids Hmeta).
Qed.

(** X16 at work: the locked section of [projection_locked] is edited. *)
Lemma edit_section_spec_witness :
  fst (fst (Svc.edit_section "doc1" "sec1" "rewritten" false None
              (Svc.set_projections {["doc1" := projection_locked]} (service_two_items None))
              w0)) = true.
Proof.
  apply (edit_section_spec "doc1" "sec1" "rewritten" false None
           (Svc.set_projections {["doc1" := projection_locked]} (service_two_items None)) w0
           projection_locked 0%nat
           (section_with "sec1" "Family" "Approved prose" LOCKED ["c1"]));
    [apply lookup_singleton_eq | reflexivity | reflexivity].
Defined.

(** ** Regenerating one section on request *)

(** X17. [_handle_regenerate_section] returns no event and changes nothing
    when the projection is unknown, when it has no section of the given id,
    or when the section cannot be regenerated (LOCKED or DRAFT); in these
    cases the mode is not looked at, so an unknown mode is no error.  For a
    section that can be regenerated, an unknown mode raises [ValueError]
    before anything is changed.  Otherwise one event is returned that names
    the section and its new version; the stored projection differs in that
    section only, so its own version and word count are those of before. *)
Theorem handle_regenerate_section_spec payload svc w :
  let projection_id := default "" (rs_projection_id payload) in
  let section_id := default "" (rs_section_id payload) in
  let mode_str := default "regenerate" (rs_mode payload) in
  let run := Svc._handle_regenerate_section payload svc w in
  (Svc._projections svc !! projection_id = None -> run = ((SectionReturned [], svc), w))
  /\ forall p, Svc._projections svc !! projection_id = Some p ->
     (DP.get_section section_id p = None -> run = ((SectionReturned [], svc), w))
     /\ forall (i : nat) s, DP.get_section section_id p = Some i ->
        DP.sections p !! i = Some s ->
        (PS.can_regenerate s = false -> run = ((SectionReturned [], svc), w))
        /\ (PS.can_regenerate s = true -> UpdateMode_of_value mode_str = None ->
            run = ((SectionRaised "ValueError", svc), w))
        /\ (PS.can_regenerate s = true ->
            forall mode, UpdateMode_of_value mode_str = Some mode ->
            let s' := fst (Svc._update_section svc p mode None s w) in
            fst (fst run)
            = SectionReturned
                [mkSectionUpdatedEvent (DP.project_id p) (DP.id p) section_id (PS.title s)
                   (UpdateMode_value mode) (PS.version s')]
            /\ Svc._projections (snd (fst run)) !! projection_id
               = Some (DP.set_sections (<[i := s']> (DP.sections p)) p)
            /\ (forall other, other <> projection_id ->
                  Svc._projections (snd (fst run)) !! other = Svc._projections svc !! other)).
Proof.
  cbv zeta. unfold Svc._handle_regenerate_section. split.
  - intros ->. reflexivity.
  - intros p ->. split.
    + intros ->. reflexivity.
    + intros i s Hi Hs. rewrite Hi.
      assert (Hs' : DP.sections p !! i = Some s) by exact Hs.
      unfold DP.section_ref in *. rewrite Hs'.
      split; [intros ->; reflexivity |].
      split; [intros -> ->; reflexivity |].
      intros -> mode ->. cbn [negb]. run_monad.
      destruct (update_section_frame svc p mode None s w) as (Hid & Htitle & _).
      apply find_index_Some in Hi as [(s0 & Hs0 & Ht) _].
      assert (Heq : Some s0 = Some s) by (rewrite <- Hs0; exact Hs).
      injection Heq as ->. apply String.eqb_eq in Ht.
      cbn [DP.project_id DP.id DP.set_sections Svc._projections Svc.set_projections].
      rewrite Hid, Htitle, Ht.
      split; [reflexivity |]. split; [by rewrite lookup_insert_eq |].
      intros other Hother. by rewrite lookup_insert_ne.
Qed.

(** X17 at work: the locked section of [projection_locked] is not
    regenerated, and the mode ["nonsense"] is not looked at. *)
Lemma handle_regenerate_section_spec_witness :
  Svc._handle_regenerate_section
    (mkRegenerateSectionPayload (Some "doc1") (Some "sec1") (Some "nonsense"))
    (Svc.set_projections {["doc1" := projection_locked]} (service_two_items None)) w0
  = ((SectionReturned [],
      Svc.set_projections {["doc1" := projection_locked]} (service_two_items None)), w0).
Proof.
  destruct (handle_regenerate_section_spec
              (mkRegenerateSectionPayload (Some "doc1") (Some "sec1") (Some "nonsense"))
              (Svc.set_projections {["doc1" := projection_locked]} (service_two_items None)) w0)
    as [_ Hfound].
  destruct (Hfound projection_locked (lookup_singleton_eq _ _)) as [_ Hsection].
  destruct (Hsection 0%nat (section_with "sec1" "Family" "Approved prose" LOCKED ["c1"])
              eq_refl eq_refl) as [Hlocked _].
  apply Hlocked. reflexivity.
Defined.

(** ** Configurations as dicts *)

(** X18. A configuration written by [to_dict] and read back by
    [_parse_config] keeps its style, length, default update mode, filters,
    suggested sections and voice guidance.  Everything else is lost: the
    configuration read back has [auto_update_on_content] off, 1 and 20 as
    section bounds, no date range, excluded tags, prompt template or subject
    contributor, and the default merge settings, whatever the original held.
    A configuration read back this way is then reproduced exactly by a
    second round trip. *)
Theorem parse_config_to_dict c :
  let c' := Svc._parse_config (Svc.to_dict c) in
  (ProjectionConfig.style c' = ProjectionConfig.style c
   /\ ProjectionConfig.length c' = ProjectionConfig.length c
   /\ ProjectionConfig.default_update_mode c' = ProjectionConfig.default_update_mode c
   /\ ProjectionConfig.contributor_filter c' = ProjectionConfig.contributor_filter c
   /\ ProjectionConfig.tag_filter c' = ProjectionConfig.tag_filter c
   /\ ProjectionConfig.suggested_sections c' = ProjectionConfig.suggested_sections c
   /\ ProjectionConfig.voice_guidance c' = ProjectionConfig.voice_guidance c)
  /\ (ProjectionConfig.auto_update_on_content c' = false
      /\ ProjectionConfig.min_sections c' = 1
      /\ ProjectionConfig.max_sections c' = 20
      /\ ProjectionConfig.date_range c' = None
      /\ ProjectionConfig.exclude_tags c' = None
      /\ ProjectionConfig.prompt_template c' = None
      /\ ProjectionConfig.subject_contributor_id c' = None
      /\ ProjectionConfig.include_empty_sections c' = false
      /\ ProjectionConfig.merge_similar c' = true
      /\ ProjectionConfig.merge_strategy c' = WEAVE
      /\ ProjectionConfig.show_attributions c' = false)
  /\ Svc._parse_config (Svc.to_dict c') = c'.
Proof.
  destruct c as [style length mode ? ? ? ? ? ? ? ? ? ? ? ? ? ? ?].
  destruct style, length, mode; cbn; repeat split.
Qed.

(** ** The preview of an update *)

Lemma select_from_length_le (t1 t2 : PS.t -> bool) l :
  (forall s, t1 s = true -> t2 s = true) ->
  forall i j, (length (DP.select_from i t1 l) <= length (DP.select_from j t2 l))%nat.
Proof.
  intros Himp. induction l as [| s l IH]; intros i j; cbn; [lia |].
  specialize (IH (S i) (S j)).
  destruct (t1 s) eqn:H1.
  - rewrite (Himp s H1). cbn. lia.
  - destruct (t2 s); cbn; lia.
Qed.

Lemma select_from_length_disjoint (t1 t2 : PS.t -> bool) l :
  (forall s, t1 s = true -> t2 s = true -> False) ->
  forall i j,
    (length (DP.select_from i t1 l) + length (DP.select_from j t2 l) <= length l)%nat.
Proof.
  intros Hdis. induction l as [| s l IH]; intros i j; cbn; [lia |].
  specialize (IH (S i) (S j)).
  destruct (t1 s) eqn:H1, (t2 s) eqn:H2; cbn; try lia.
  exfalso. by eapply Hdis.
Qed.

Lemma ids_of_length refs p :
  (forall i, i ∈ refs -> is_Some (DP.sections p !! i)) ->
  length (DP.ids_of refs p) = length refs.
Proof.
  unfold DP.ids_of. induction refs as [| i refs IH]; intros Hall; [reflexivity |].
  cbn. destruct (Hall i ltac:(by left)) as [s Hs].
  assert (Hs' : DP.sections p !! i = Some s) by exact Hs.
  unfold DP.section_ref in *. rewrite Hs'. cbn.
  f_equal. apply IH. intros k Hk. apply Hall. by right.
Qed.

Lemma size_positive (X : gset string) :
  (Z.of_nat (size X) >? 0) = true <-> exists x, x ∈ X.
Proof.
  rewrite Z.gtb_lt. split.
  - intros Hpos. apply size_pos_elem_of. lia.
  - intros [x Hx].
    assert (Hne : size X <> 0%nat); [| lia].
    intros Hzero. apply size_empty_iff in Hzero.
    apply (not_elem_of_empty (C := gset string) x). by apply Hzero.
Qed.

(** The change summary that an update pass records. *)
Lemma update_projection_summary svc mode p w pool :
  Svc._content_pools svc !! DP.project_id p = Some pool ->
  exists p2 w2 rest,
    Svc.update_projection svc mode p w
    = DP.mark_updated (ContentPool.content_ids pool) mode
        (UpdateMode_value mode +:+ ": updated "
           +:+ pretty (len (Svc.sections_to_update mode (ContentPool.content_ids pool) p))
           +:+ " sections" +:+ rest)
        p2 w2.
Proof.
  intros Hpool. unfold Svc.update_projection. rewrite Hpool.
  unfold ContentPool.get_filtered_ids.
  destruct (ContentPool.get_new_content_ids (DP.content_snapshot_ids p) pool) as [| c cs].
  - run_monad. eexists _, _, _. reflexivity.
  - run_monad.
    match goal with |- context [DP.set_context ?c0 p] =>
      rewrite (sections_to_update_ext mode (ContentPool.content_ids pool)
                 (DP.set_context c0 p) p eq_refl) end.
    eexists _, _, _. reflexivity.
Qed.

(** X19. The options that the service reports for a stored projection
    whose project has a pool: no more sections are stale than can be
    regenerated, the sections that can be regenerated and the locked ones
    are not more than the sections, one id is listed per stale section, and
    new content is reported exactly when the pool holds an id that the
    projection's snapshot lacks.  The preview agrees with the pass: for each
    mode listed, [update_projection] in that mode records a change summary
    that starts with the mode and the number of sections announced. *)
Theorem update_options_preview projection_id svc p pool :
  Svc._projections svc !! projection_id = Some p ->
  Svc._content_pools svc !! DP.project_id p = Some pool ->
  exists o,
    Svc.get_update_options projection_id svc = Some o
    /\ DP.stale_section_count o <= DP.regeneratable_count o
    /\ DP.regeneratable_count o + DP.locked_count o <= len (DP.sections p)
    /\ len (DP.stale_section_ids o) = DP.stale_section_count o
    /\ (DP.has_new_content o = true
        <-> exists cid, cid ∈ ContentPool.content_ids pool
                        /\ cid ∉ DP.content_snapshot_ids p)
    /\ forall m, m ∈ DP.available_modes o ->
       exists mode, UpdateMode_of_value (DP.mo_mode m) = Some mode
         /\ forall w, exists entry rest,
              last (DP.version_history (fst (Svc.update_projection svc mode p w))) = Some entry
              /\ ProjectionVersion.change_summary entry
                 = DP.mo_mode m +:+ ": updated " +:+ pretty (DP.mo_affects_sections m)
                     +:+ " sections" +:+ rest.
Proof.
  intros Hp Hpool. unfold Svc.get_update_options. rewrite Hp, Hpool.
  eexists. split; [reflexivity |].
  unfold DP.get_update_options. cbn [DP.stale_section_count DP.regeneratable_count
    DP.locked_count DP.stale_section_ids DP.has_new_content DP.available_modes].
  unfold len, DP.get_stale_sections, DP.get_regeneratable_sections, DP.get_locked_sections,
    DP.select.
  split.
  { apply inj_le, select_from_length_le. intros s Hs. by apply andb_true_iff in Hs as [? _]. }
  split.
  { rewrite <- Nat2Z.inj_add. apply inj_le, select_from_length_disjoint.
    unfold PS.can_regenerate, PS.is_locked. intros s Hreg Hlock.
    apply bool_decide_eq_true in Hlock. rewrite Hlock in Hreg. discriminate. }
  split.
  { f_equal. apply ids_of_length. intros i Hi.
    apply (select_iff _ p) in Hi as (s & Hs & _). by exists s. }
  split.
  { rewrite size_positive. split.
    - intros [x Hx]. apply elem_of_difference in Hx as [Hin Hout].
      exists x. by rewrite !elem_of_list_to_set in Hin, Hout.
    - intros (cid & Hin & Hout). exists cid. apply elem_of_difference.
      by rewrite !elem_of_list_to_set. }
  intros m Hm.
  assert (Hmode : exists mode,
             UpdateMode_of_value (DP.mo_mode m) = Some mode
             /\ DP.mo_mode m = UpdateMode_value mode
             /\ DP.mo_affects_sections m
                = len (Svc.sections_to_update mode (ContentPool.content_ids pool) p)).
  { repeat (apply elem_of_cons in Hm as [-> | Hm]);
      [exists EVOLVE | exists REGENERATE | exists REFRESH | by apply elem_of_nil in Hm];
      by repeat split. }
  destruct Hmode as (mode & Hvalue & Hname & Hcount).
  exists mode. split; [exact Hvalue |]. intros w.
  destruct (update_projection_summary svc mode p w pool Hpool) as (p2 & w2 & rest & ->).
  destruct (mark_updated_fields (ContentPool.content_ids pool) mode
              (UpdateMode_value mode +:+ ": updated "
                 +:+ pretty (len (Svc.sections_to_update mode (ContentPool.content_ids pool) p))
                 +:+ " sections" +:+ rest) p2 w2) as (_ & -> & _).
  rewrite save_version_run. cbn [fst DP.version_history DP.set_version_history].
  eexists _, rest. split; [apply (last_last_n 19) |].
  cbn [ProjectionVersion.change_summary]. by rewrite Hname, Hcount.
Qed.

(** X19 at work on a service that stores [projection_family]. *)
Lemma update_options_preview_witness :
  exists o,
    Svc.get_update_options "doc1"
      (Svc.set_projections {["doc1" := projection_family]} (service_two_items None)) = Some o
    /\ DP.stale_section_count o <= DP.regeneratable_count o
    /\ len (DP.stale_section_ids o) = DP.stale_section_count o.
Proof.
  destruct (update_options_preview "doc1"
              (Svc.set_projections {["doc1" := projection_family]} (service_two_items None))
              projection_family pool_c1_c2 (lookup_singleton_eq _ _) (lookup_singleton_eq _ _))
    as (o & Ho & Hle & _ & Hids & _).
  exists o. split; [exact Ho |]. split; [exact Hle | exact Hids].
Defined.

(** ** The narrative context only grows *)

Lemma themes_kept_refl l : themes_kept l l.
Proof. intros i t Hi. by exists t. Qed.

Lemma themes_kept_trans a b c : themes_kept a b -> themes_kept b c -> themes_kept a c.
Proof.
  intros Hab Hbc i t Hi.
  destruct (Hab i t Hi) as (t1 & H1 & Hn1 & Hd1).
  destruct (Hbc i t1 H1) as (t2 & H2 & Hn2 & Hd2).
  exists t2. repeat split; congruence.
Qed.

Lemma merge_first_kept theme l : forall l',
  NC.merge_first theme l = Some l' -> themes_kept l l'.
Proof.
  induction l as [| e l IH]; intros l' Hm; cbn in Hm; [discriminate |].
  destruct (NC.same_theme e theme).
  - injection Hm as <-. intros [| i] t Hi; cbn in *.
    + injection Hi as <-. by eexists.
    + by exists t.
  - destruct (NC.merge_first theme l) as [rest |]; [| discriminate].
    injection Hm as <-. intros [| i] t Hi; cbn in *.
    + by exists t.
    + by apply (IH rest).
Qed.

Lemma add_theme_kept theme c : themes_kept (NC.themes c) (NC.themes (NC.add_theme theme c)).
Proof.
  unfold NC.add_theme.
  destruct (NC.merge_first theme (NC.themes c)) as [merged |] eqn:Hm; cbn.
  - by apply (merge_first_kept theme).
  - intros i t Hi. exists t. split; [by apply lookup_app_l_Some | done].
Qed.

Lemma add_theme_meta theme c : NC.set_themes [] (NC.add_theme theme c) = NC.set_themes [] c.
Proof. unfold NC.add_theme. by destruct (NC.merge_first theme (NC.themes c)). Qed.

Lemma add_extracted_themes_kept themes ids : forall c,
  themes_kept (NC.themes c) (NC.themes (Svc.add_extracted_themes themes ids c))
  /\ NC.set_themes [] (Svc.add_extracted_themes themes ids c) = NC.set_themes [] c.
Proof.
  induction themes as [| [name | theme description |] themes IH]; intros c;
    cbn [Svc.add_extracted_themes].
  - split; [apply themes_kept_refl | reflexivity].
  - destruct (IH (NC.add_theme (DiscoveredTheme.make name "" ids) c)) as [Hk Hm].
    split; [| by rewrite Hm, add_theme_meta].
    eapply themes_kept_trans; [apply add_theme_kept | exact Hk].
  - destruct (IH (NC.add_theme (DiscoveredTheme.make (default "" theme)
                                  (default "" description) ids) c)) as [Hk Hm].
    split; [| by rewrite Hm, add_theme_meta].
    eapply themes_kept_trans; [apply add_theme_kept | exact Hk].
  - apply IH.
Qed.

Lemma add_suggested_topics_grows topics : forall existing,
  existing `prefix_of` Svc.add_suggested_topics topics existing
  /\ (NoDup existing -> NoDup (Svc.add_suggested_topics topics existing)).
Proof.
  induction topics as [| topic topics IH]; intros existing; cbn [Svc.add_suggested_topics].
  - split; [reflexivity | auto].
  - destruct (decide (topic ∈ existing)) as [Hin | Hout].
    + rewrite bool_decide_eq_true_2 by exact Hin. apply IH.
    + rewrite bool_decide_eq_false_2 by exact Hout.
      destruct (IH (existing ++ [topic])) as [Hpre Hnodup]. split.
      * etrans; [| exact Hpre]. by apply prefix_app_r.
      * intros Hex. apply Hnodup. apply NoDup_app. split; [exact Hex |].
        split; [| apply NoDup_singleton].
        intros x Hx Hx'. apply list_elem_of_singleton in Hx' as ->. contradiction.
Qed.

(** X20. [_update_narrative_context] only adds to the context.  Every
    theme stays at its place with its name and description, the suggested
    topics of before are a prefix of the new ones (and stay free of
    duplicates), every key fact known before is still known, and the
    summary, the covered topics, the emotional tone and the voice notes are
    not touched.  Without new items nothing happens at all; without a model,
    or when the model fails, only the time stamp changes. *)
Theorem narrative_context_grows svc context items w :
  let c' := fst (Svc._update_narrative_context svc context items w) in
  themes_kept (NC.themes context) (NC.themes c')
  /\ NC.suggested_topics context `prefix_of` NC.suggested_topics c'
  /\ (NoDup (NC.suggested_topics context) -> NoDup (NC.suggested_topics c'))
  /\ (forall k, is_Some (NC.key_facts context !! k) -> is_Some (NC.key_facts c' !! k))
  /\ (NC.summary c' = NC.summary context
      /\ NC.covered_topics c' = NC.covered_topics context
      /\ NC.emotional_tone c' = NC.emotional_tone context
      /\ NC.voice_notes c' = NC.voice_notes context)
  /\ (items = [] -> Svc._update_narrative_context svc context items w = (context, w))
  /\ (Svc._ai svc = None \/ Svc._ai svc = Some failing_model ->
      NC.set_updated_at 0 c' = NC.set_updated_at 0 context).
Proof.
  cbv zeta. unfold Svc._update_narrative_context.
  destruct items as [| item items].
  { run_monad. split; [apply themes_kept_refl |]. by repeat split. }
  assert (Hsame : forall w1,
             let c := fst (NC.update context w1) in
             themes_kept (NC.themes context) (NC.themes c)
             /\ NC.suggested_topics context `prefix_of` NC.suggested_topics c
             /\ (NoDup (NC.suggested_topics context) -> NoDup (NC.suggested_topics c))
             /\ (forall k, is_Some (NC.key_facts context !! k) -> is_Some (NC.key_facts c !! k))
             /\ (NC.summary c = NC.summary context
                 /\ NC.covered_topics c = NC.covered_topics context
                 /\ NC.emotional_tone c = NC.emotional_tone context
                 /\ NC.voice_notes c = NC.voice_notes context)
             /\ NC.set_updated_at 0 c = NC.set_updated_at 0 context).
  { intros w1. unfold NC.update. run_monad. cbn.
    split; [apply themes_kept_refl |]. by repeat split. }
  destruct (Svc._ai svc) as [oracle |] eqn:Hai; run_monad.
  - unfold ask. cbn [fst snd].
    match goal with |- context [oracle (calls w) ?call] =>
      destruct (oracle (calls w) call) as [text | result |] eqn:Hreply end.
    + run_monad.
      match goal with |- context [NC.update context ?w1] =>
        destruct (Hsame w1) as (H1 & H2 & H3 & H4 & H5 & H6) end.
      repeat split; try tauto; try apply H5; discriminate.
    + run_monad.
      destruct (add_extracted_themes_kept (default [] (r_themes result))
                  (map ContentItem.id (item :: items)) context) as [Hkept Hmeta].
      destruct (add_suggested_topics_grows (default [] (r_suggested_topics result))
                  (NC.suggested_topics context)) as [Hpre Hnodup].
      assert (Htopics : NC.suggested_topics
                          (Svc.add_extracted_themes (default [] (r_themes result))
                             (map ContentItem.id (item :: items)) context)
                        = NC.suggested_topics context)
        by exact (f_equal NC.suggested_topics Hmeta).
      assert (Hfacts : NC.key_facts
                         (Svc.add_extracted_themes (default [] (r_themes result))
                            (map ContentItem.id (item :: items)) context)
                       = NC.key_facts context)
        by exact (f_equal NC.key_facts Hmeta).
      unfold NC.update. run_monad.
      cbn [fst snd NC.themes NC.suggested_topics NC.key_facts NC.summary NC.covered_topics
           NC.emotional_tone NC.voice_notes NC.set_updated_at NC.set_suggested_topics
           NC.set_key_facts].
      rewrite Htopics, Hfacts.
      split; [exact Hkept |]. split; [exact Hpre |]. split; [exact Hnodup |].
      split; [intros k Hk; apply lookup_union_is_Some; by right |].
      split.
      { split; [exact (f_equal NC.summary Hmeta) |].
        split; [exact (f_equal NC.covered_topics Hmeta) |].
        split; [exact (f_equal NC.emotional_tone Hmeta) |
                exact (f_equal NC.voice_notes Hmeta)]. }
      split; [discriminate |].
      intros [[=] | [= ->]]. discriminate Hreply.
    + run_monad.
      match goal with |- context [NC.update context ?w1] =>
        destruct (Hsame w1) as (H1 & H2 & H3 & H4 & H5 & H6) end.
      repeat split; try tauto; try apply H5; discriminate.
  - destruct (Hsame w) as (H1 & H2 & H3 & H4 & H5 & H6).
    repeat split; try tauto; try apply H5; discriminate.
Qed.

(** X20 at work on the empty context. *)
Lemma narrative_context_grows_witness :
  NoDup (NC.suggested_topics
           (fst (Svc._update_narrative_context (service_two_items None) empty_context
                   [item_c1] w0))).
Proof.
  destruct (narrative_context_grows (service_two_items None) empty_context [item_c1] w0)
    as (_ & _ & Hnodup & _).
  apply Hnodup. apply NoDup_nil_2.
Defined.

(** ** The order of the version history *)

(** X21. The version history of a projection stays in order under
    [mark_updated], and so under every update pass of the service: the
    versions recorded grow strictly and lie below the current version, so no
    two records share a version. *)
Theorem version_history_stays_in_order svc mode p w calls :
  version_history_in_order p ->
  version_history_in_order (fst (run_mark_updated calls p w))
  /\ version_history_in_order (fst (Svc.update_projection svc mode p w))
  /\ NoDup (map ProjectionVersion.version
                (DP.version_history (fst (Svc.update_projection svc mode p w)))).
Proof.
  intros Hp.
  assert (Hstep : forall content_ids m summary p0 w0,
             version_history_in_order p0 ->
             version_history_in_order (fst (DP.mark_updated content_ids m summary p0 w0))).
  { intros content_ids m summary p0 w1 Hp0. unfold version_history_in_order.
    destruct (mark_updated_fields content_ids m summary p0 w1) as (-> & -> & _).
    rewrite save_version_run. cbn [fst DP.version_history DP.set_version_history].
    unfold last_n. rewrite <- List.skipn_map, List.map_app. cbn [map ProjectionVersion.version].
    apply increasing_below_drop, increasing_below_snoc, Hp0. }
  assert (Hpass : version_history_in_order (fst (Svc.update_projection svc mode p w))).
  { destruct (Svc._content_pools svc !! DP.project_id p) as [pool |] eqn:Hpool.
    - destruct (update_projection_shape svc mode p w pool Hpool)
        as (p2 & w2 & summary & context & -> & Hmeta & _).
      apply Hstep. unfold version_history_in_order.
      replace (DP.version p2) with (DP.version p) by exact (f_equal DP.version (eq_sym Hmeta)).
      replace (DP.version_history p2) with (DP.version_history p)
        by exact (f_equal DP.version_history (eq_sym Hmeta)).
      exact Hp.
    - unfold Svc.update_projection. rewrite Hpool. exact Hp. }
  split; [| split; [exact Hpass | by eapply increasing_below_NoDup]].
  apply (for_each_invariant version_history_in_order); [| exact Hp].
  intros c p0 w1 _. apply Hstep.
Qed.

(** X21 at work on [projection_family], whose version history is empty. *)
Lemma version_history_stays_in_order_witness :
  NoDup (map ProjectionVersion.version
             (DP.version_history
                (fst (Svc.update_projection (service_two_items None) EVOLVE
                        projection_family w0)))).
Proof.
  apply (version_history_stays_in_order (service_two_items None) EVOLVE projection_family w0 []).
  split.
  - intros i j x y _ Hi. discriminate Hi.
  - intros x Hx. by apply elem_of_nil in Hx.
Defined.

(** ** Regenerating without content *)

Lemma select_from_NoDup test l : forall i, NoDup (DP.select_from i test l).
Proof.
  induction l as [| s l IH]; intros i; cbn; [apply NoDup_nil_2 |].
  destruct (test s); [| apply IH].
  apply NoDup_cons. split; [| apply IH].
  intros Hin. apply select_from_iff in Hin as [Hle _]. lia.
Qed.

(** A candidate that is listed once is updated once. *)
Lemma update_loop_once (F : DP.t -> PS.t -> M PS.t) (cands : list nat) :
  NoDup cands ->
  forall p w (j : nat) s,
    j ∈ cands -> DP.sections p !! j = Some s ->
    exists p0 w0,
      DP.sections (fst (for_each cands (fun i p1 => DP.update_section_at i (F p1) p1) p w)) !! j
      = Some (fst (F p0 s w0)).
Proof.
  induction cands as [| i cands IH]; intros Hnodup p w j s Hin Hj.
  - by apply elem_of_nil in Hin.
  - apply NoDup_cons in Hnodup as [Hfresh Hnodup]. rewrite for_each_cons.
    destruct (decide (i = j)) as [-> | Hne].
    + exists p, w. rewrite update_loop_untouched by exact Hfresh.
      by apply update_section_at_same.
    + apply elem_of_cons in Hin as [-> | Hin]; [done |].
      apply IH; [exact Hnodup | exact Hin |].
      by rewrite update_section_at_other.
Qed.

Lemma generate_without_text svc topic items config context w :
  Svc._extract_texts items = [] ->
  Svc._generate_section_content svc topic items config context w = ("", w).
Proof.
  intros Htexts. unfold Svc._generate_section_content.
  destruct items; [reflexivity |]. by rewrite Htexts.
Qed.

(** X22. A REGENERATE pass when the items found for the pool's ids carry no
    text (none is cached, or none has an answer or a text): every section
    that can be regenerated ends with an empty content, in state GENERATED,
    one version later.  The content of before is not lost when it was not
    empty: it is the newest entry of the section's history. *)
Theorem regenerate_without_text svc p w pool (j : nat) s :
  Svc._content_pools svc !! DP.project_id p = Some pool ->
  Svc._extract_texts (Svc.items_of svc (ContentPool.content_ids pool)) = [] ->
  DP.sections p !! j = Some s ->
  PS.can_regenerate s = true ->
  exists s',
    DP.sections (fst (Svc.update_projection svc REGENERATE p w)) !! j = Some s'
    /\ PS.content s' = ""
    /\ PS.state s' = GENERATED
    /\ PS.version s' = PS.version s + 1
    /\ (str_truthy (PS.content s) = true ->
        exists now, last (PS.history s') = Some (snapshot_of s "regeneration" now None)).
Proof.
  intros Hpool Htexts Hj Hreg.
  destruct (update_projection_sections svc REGENERATE p w pool Hpool) as (p1 & w1 & Hp1 & ->).
  assert (Hj1 : DP.sections p1 !! j = Some s) by (by rewrite Hp1).
  assert (Hcand : j ∈ Svc.sections_to_update REGENERATE (ContentPool.content_ids pool) p1).
  { apply select_iff. by exists s. }
  destruct (update_loop_once
              (fun p0 => Svc._update_section svc p0 REGENERATE
                           (Some (Svc.items_of svc (ContentPool.content_ids pool))))
              (Svc.sections_to_update REGENERATE (ContentPool.content_ids pool) p1)
              (select_from_NoDup _ _ _) p1 w1 j s Hcand Hj1) as (p0 & w0' & Hres).
  eexists. split; [exact Hres |].
  unfold Svc._update_section. run_monad. rewrite generate_without_text by exact Htexts.
  cbn [fst snd].
  match goal with |- context [PS.update_content ?c ?i ?t s ?w2] =>
    destruct (update_content_fields c i t s w2) as (Hc & Hv & _ & _ & Hst);
    split; [exact Hc |]; split; [exact Hst |]; split; [exact Hv |];
    intros Htruthy; exists (clock w2 (ticks w2));
    rewrite update_content_run, Htruthy, save_to_history_run, Htruthy
  end.
  apply (last_last_n 9).
Qed.

(** X22 at work: the pool of [service_missing_item] without its item
    cache. *)
Lemma regenerate_without_text_witness :
  exists s',
    DP.sections
      (fst (Svc.update_projection
              (Svc.mk {["proj1" := pool_c1_c2]} ∅ ∅ ∅ None) REGENERATE projection_family w0))
      !! 0%nat = Some s'
    /\ PS.content s' = ""
    /\ PS.state s' = GENERATED
    /\ PS.version s' = 1 + 1
    /\ (str_truthy "Old prose" = true ->
        exists now,
          last (PS.history s')
          = Some (snapshot_of (section_with "sec1" "Family" "Old prose" GENERATED ["c1"])
                    "regeneration" now None)).
Proof.
  apply (regenerate_without_text (Svc.mk {["proj1" := pool_c1_c2]} ∅ ∅ ∅ None)
           projection_family w0 pool_c1_c2 0%nat
           (section_with "sec1" "Family" "Old prose" GENERATED ["c1"]));
    [apply lookup_singleton_eq | reflexivity | reflexivity | reflexivity].
Defined.

(** ** Update requests that name their sections *)

(** The loop of [_handle_update] over the section ids of the request. *)
Lemma scoped_loop_spec svc mode section_ids p w :
  let p' :=
    fst (for_each section_ids
           (fun section_id p0 =>
              match DP.get_section section_id p0 with
              | Some i =>
                  DP.update_section_at i
                    (fun s0 => if PS.can_regenerate s0
                               then Svc._update_section svc p0 mode None s0
                               else ret s0) p0
              | None => ret p0
              end) p w) in
  DP.set_sections [] p' = DP.set_sections [] p
  /\ length (DP.sections p') = length (DP.sections p)
  /\ forall (j : nat) s, DP.sections p !! j = Some s ->
       PS.id s ∉ section_ids \/ PS.can_regenerate s = false ->
       DP.sections p' !! j = Some s.
Proof.
  cbv zeta. split; [| split].
  - apply (for_each_invariant (fun p0 => DP.set_sections [] p0 = DP.set_sections [] p));
      [| reflexivity].
    intros section_id p0 w0 _ Hmeta.
    destruct (DP.get_section section_id p0) as [i |]; [| exact Hmeta].
    rewrite update_section_at_run.
    match goal with |- context [match ?x with _ => _ end] => destruct x end;
      cbn [fst]; [| exact Hmeta].
    rewrite <- Hmeta. reflexivity.
  - apply (for_each_invariant (fun p0 => length (DP.sections p0) = length (DP.sections p)));
      [| reflexivity].
    intros section_id p0 w0 _ Hlen.
    destruct (DP.get_section section_id p0) as [i |]; [| exact Hlen].
    rewrite update_section_at_run.
    match goal with |- context [match ?x with _ => _ end] => destruct x end;
      cbn; [| exact Hlen].
    by rewrite length_insert.
  - intros j s Hj Hs.
    apply (for_each_invariant (fun p0 => DP.sections p0 !! j = Some s)); [| exact Hj].
    intros section_id p0 w0 Hin Hp0.
    destruct (DP.get_section section_id p0) as [i |] eqn:Hi; [| exact Hp0].
    destruct (decide (i = j)) as [-> | Hne]; [| by rewrite update_section_at_other].
    rewrite (update_section_at_same _ _ _ _ s) by exact Hp0.
    destruct Hs as [Hid | Hreg]; [| by rewrite Hreg].
    exfalso. apply Hid.
    apply find_index_Some in Hi as [(s0 & Hs0 & Ht) _].
    assert (Heq : Some s0 = Some s) by (rewrite <- Hs0; exact Hp0).
    injection Heq as ->. apply String.eqb_eq in Ht. by rewrite Ht.
Qed.

(** X23. An update request that names sections works on these sections
    only.  The stored projection keeps its version, version history, content
    snapshot, narrative context and word count (no update is recorded), and
    its number of sections; a section whose id is not named, or that cannot
    be regenerated, is as before.  One event is returned; it carries the
    unchanged version, and its [sections_updated] is the number of sections
    that can be regenerated, not the number that were updated. *)
Theorem handle_update_scoped payload svc w p mode section_id section_ids :
  Svc._projections svc !! default "" (pl_projection_id payload) = Some p ->
  UpdateMode_of_value (default "evolve" (pl_mode payload)) = Some mode ->
  pl_section_ids payload = Some (section_id :: section_ids) ->
  exists p' ev,
    fst (fst (Svc._handle_update payload svc w)) = Returned [ev]
    /\ Svc._projections (snd (fst (Svc._handle_update payload svc w)))
         !! default "" (pl_projection_id payload) = Some p'
    /\ (DP.version p' = DP.version p
        /\ DP.version_history p' = DP.version_history p
        /\ DP.content_snapshot_ids p' = DP.content_snapshot_ids p
        /\ DP.context p' = DP.context p
        /\ DP.word_count p' = DP.word_count p)
    /\ length (DP.sections p') = length (DP.sections p)
    /\ (forall (j : nat) s, DP.sections p !! j = Some s ->
          PS.id s ∉ section_id :: section_ids \/ PS.can_regenerate s = false ->
          DP.sections p' !! j = Some s)
    /\ ev_version ev = DP.version p
    /\ ev_update_mode ev = UpdateMode_value mode
    /\ ev_sections_updated ev = len (DP.get_regeneratable_sections p')
    /\ ev_sections_locked ev = len (DP.get_locked_sections p')
    /\ ev_word_count ev = DP.word_count p.
Proof.
  intros Hp Hmode Hids. unfold Svc._handle_update. rewrite Hp, Hmode, Hids.
  cbn [default]. run_monad.
  destruct (scoped_loop_spec svc mode (section_id :: section_ids) p w)
    as (Hmeta & Hlen & Hkeep).
  eexists _, _. split; [reflexivity |].
  cbn [Svc._projections Svc.set_projections].
  split; [apply lookup_insert_eq |].
  split.
  { split; [exact (f_equal DP.version Hmeta) |].
    split; [exact (f_equal DP.version_history Hmeta) |].
    split; [exact (f_equal DP.content_snapshot_ids Hmeta) |].
    split; [exact (f_equal DP.context Hmeta) | exact (f_equal DP.word_count Hmeta)]. }
  split; [exact Hlen |]. split; [exact Hkeep |].
  cbn [ev_version ev_update_mode ev_sections_updated ev_sections_locked ev_word_count].
  split; [exact (f_equal DP.version Hmeta) |].
  split; [reflexivity |]. split; [reflexivity |]. split; [reflexivity |].
  exact (f_equal DP.word_count Hmeta).
Qed.

(** X23 at work: a request for section ["sec2"] of [projection_locked]. *)
Lemma handle_update_scoped_witness :
  exists p' ev,
    fst (fst (Svc._handle_update
                (mkUpdatePayload (Some "doc1") (Some "regenerate") (Some ["sec2"]))
                (Svc.set_projections {["doc1" := projection_locked]} (service_two_items None))
                w0)) = Returned [ev]
    /\ Svc._projections
         (snd (fst (Svc._handle_update
                      (mkUpdatePayload (Some "doc1") (Some "regenerate") (Some ["sec2"]))
                      (Svc.set_projections {["doc1" := projection_locked]}
                         (service_two_items None)) w0)))
         !! "doc1" = Some p'
    /\ DP.version p' = DP.version projection_locked
    /\ ev_version ev = DP.version projection_locked.
Proof.
  destruct (handle_update_scoped
              (mkUpdatePayload (Some "doc1") (Some "regenerate") (Some ["sec2"]))
              (Svc.set_projections {["doc1" := projection_locked]} (service_two_items None))
              w0 projection_locked REGENERATE "sec2" []
              (lookup_singleton_eq _ _) eq_refl eq_refl)
    as (p' & ev & Hev & Hp' & (Hv & _) & _ & _ & Hevv & _).
  exists p', ev. split; [exact Hev |]. split; [exact Hp' |]. split; [exact Hv | exact Hevv].
Defined.

(** ** Regeneration requests *)

(** X24. [_handle_regenerate] returns no event and changes nothing for an
    unknown projection.  For a stored projection it does what
    [_handle_update] does for the mode ["regenerate"] without section ids: the
    service that results is the same.  When the project has no content pool
    nothing is regenerated and the service is as before, but an event is
    still returned, with the numbers of the unchanged projection; with a pool
    the event carries the version of before plus one and the current word
    count. *)
Theorem handle_regenerate_spec projection_id svc w :
  let run := Svc._handle_regenerate projection_id svc w in
  (Svc._projections svc !! default "" projection_id = None -> run = (([], svc), w))
  /\ forall p, Svc._projections svc !! default "" projection_id = Some p ->
     snd (fst run)
     = snd (fst (Svc._handle_update (mkUpdatePayload projection_id (Some "regenerate") None)
                   svc w))
     /\ (Svc._content_pools svc !! DP.project_id p = None ->
         run = (([mkRegeneratedEvent (DP.project_id p) (DP.id p) (DP.version p)
                    (len (DP.get_regeneratable_sections p))
                    (len (DP.get_locked_sections p)) (DP.word_count p)], svc), w))
     /\ (forall pool, Svc._content_pools svc !! DP.project_id p = Some pool ->
         let p' := fst (Svc.update_projection svc REGENERATE p w) in
         Svc._projections (snd (fst run)) !! default "" projection_id = Some p'
         /\ fst (fst run)
            = [mkRegeneratedEvent (DP.project_id p) (DP.id p) (DP.version p + 1)
                 (len (DP.get_regeneratable_sections p'))
                 (len (DP.get_locked_sections p'))
                 (words_of_sections (DP.sections p'))]).
Proof.
  cbv zeta. unfold Svc._handle_regenerate. split.
  - intros ->. reflexivity.
  - intros p Hp. rewrite Hp. split; [| split].
    + unfold Svc._handle_update. cbn [pl_projection_id pl_mode pl_section_ids default].
      rewrite Hp.
      change (UpdateMode_of_value (id "regenerate")) with (Some REGENERATE).
      run_monad. reflexivity.
    + intros Hnone. unfold Svc.update_projection. rewrite Hnone. run_monad.
      by rewrite insert_id, set_projections_same.
    + intros pool Hpool. run_monad.
      cbn [Svc._projections Svc.set_projections].
      split; [apply lookup_insert_eq |].
      destruct (update_projection_shape svc REGENERATE p w pool Hpool)
        as (p2 & w2 & summary & context & Hrun & Hmeta & _).
      rewrite Hrun.
      destruct (mark_updated_fields (ContentPool.content_ids pool) REGENERATE summary p2 w2)
        as (Hv & _ & Hsec & _ & Hwc).
      destruct (mark_updated_meta (ContentPool.content_ids pool) REGENERATE summary p2 w2)
        as (Hid & Hproj & _).
      assert (Hversion : DP.version p2 = DP.version p)
        by exact (f_equal DP.version Hmeta).
      assert (Hid2 : DP.id p2 = DP.id p) by exact (f_equal DP.id Hmeta).
      assert (Hproj2 : DP.project_id p2 = DP.project_id p)
        by exact (f_equal DP.project_id Hmeta).
      rewrite Hv, Hid, Hproj, Hwc, Hsec, words_of_nonempty_sections.
      by rewrite Hversion, Hid2, Hproj2.
Qed.

(** X24 at work: a projection of a project without a pool. *)
Lemma handle_regenerate_spec_witness :
  Svc._handle_regenerate (Some "doc1")
    (Svc.mk ∅ {["doc1" := projection_family]} ∅ ∅ None) w0
  = (([mkRegeneratedEvent "proj1" "doc1" 1 1 0 2],
      Svc.mk ∅ {["doc1" := projection_family]} ∅ ∅ None), w0).
Proof.
  destruct (handle_regenerate_spec (Some "doc1")
              (Svc.mk ∅ {["doc1" := projection_family]} ∅ ∅ None) w0) as [_ Hfound].
  destruct (Hfound projection_family (lookup_singleton_eq _ _)) as (_ & Hnone & _).
  apply Hnone. reflexivity.
Defined.

(** ** Contributors *)

(** The inner loop of [get_contributions_by_contributor], for a section
    that lists no contributor twice. *)
Lemma contributions_inner title (l : list string) : forall (result : gmap string (list string)) c,
  NoDup l ->
  foldl (fun result contrib_id =>
           <[contrib_id := default [] (result !! contrib_id) ++ [title]]> result) result l !! c
  = if bool_decide (c ∈ l) then Some (default [] (result !! c) ++ [title]) else result !! c.
Proof.
  induction l as [| x l IH]; intros result c Hnodup; [reflexivity |].
  apply NoDup_cons in Hnodup as [Hfresh Hnodup]. cbn [foldl]. rewrite IH by exact Hnodup.
  destruct (decide (c = x)) as [-> | Hne].
  - rewrite (bool_decide_eq_false_2 (x ∈ l)) by exact Hfresh.
    rewrite (bool_decide_eq_true_2 (x ∈ x :: l)) by (by left).
    by rewrite lookup_insert_eq.
  - rewrite lookup_insert_ne by done.
    destruct (decide (c ∈ l)) as [Hin | Hout].
    + rewrite (bool_decide_eq_true_2 (c ∈ l)) by exact Hin.
      by rewrite (bool_decide_eq_true_2 (c ∈ x :: l)) by (by right).
    + rewrite (bool_decide_eq_false_2 (c ∈ l)) by exact Hout.
      rewrite (bool_decide_eq_false_2 (c ∈ x :: l)); [reflexivity |].
      intros Hin. apply elem_of_cons in Hin as [? | ?]; contradiction.
Qed.

(** The outer loop: what it adds for contributor [c]. *)
Lemma contributions_outer c (l : list PS.t) : forall result : gmap string (list string),
  (forall s, s ∈ l -> NoDup (PS.contributor_ids s)) ->
  let result' :=
    foldl (fun result section =>
             foldl (fun result contrib_id =>
                      <[contrib_id := default [] (result !! contrib_id)
                                        ++ [PS.title section]]> result)
                   result (PS.contributor_ids section)) result l in
  let titles := map PS.title (filter (fun s => c ∈ PS.contributor_ids s) l) in
  default [] (result' !! c) = default [] (result !! c) ++ titles
  /\ (result' !! c = None <-> result !! c = None /\ titles = []).
Proof.
  induction l as [| s l IH]; intros result Hnodup; cbv zeta.
  - cbn. rewrite app_nil_r. split; [reflexivity | tauto].
  - cbn [foldl].
    match goal with |- context [foldl _ (foldl ?f result ?l0) l] =>
      destruct (IH (foldl f result l0) ltac:(intros s' Hs'; apply Hnodup; by right))
        as [Hlist Hnone];
      pose proof (contributions_inner (PS.title s) (PS.contributor_ids s) result c
                    ltac:(apply Hnodup; by left)) as Hinner
    end.
    cbv zeta in Hlist, Hnone. rewrite Hlist, Hnone, Hinner.
    destruct (decide (c ∈ PS.contributor_ids s)) as [Hin | Hout].
    + rewrite bool_decide_eq_true_2 by exact Hin.
      rewrite filter_cons_True by exact Hin. cbn [map default from_option id].
      rewrite <- app_assoc. split; [reflexivity |].
      split; [intros [[=] _] | intros [_ [=]]].
    + rewrite bool_decide_eq_false_2 by exact Hout.
      rewrite filter_cons_False by exact Hout. tauto.
Qed.

Lemma select_from_titles (f : PS.t -> string) test l : forall pre,
  omap (fun i => f <$> (pre ++ l) !! i) (DP.select_from (length pre) test l)
  = map f (filter (fun s => test s = true) l).
Proof.
  induction l as [| s l IH]; intros pre; [reflexivity |]. cbn [DP.select_from].
  specialize (IH (pre ++ [s])). rewrite <- app_assoc, length_app in IH. cbn in IH.
  rewrite Nat.add_1_r in IH.
  destruct (test s) eqn:Ht.
  - rewrite filter_cons_True by exact Ht. cbn [omap list_omap map].
    rewrite lookup_app_r, Nat.sub_diag by lia. cbn. by rewrite IH.
  - rewrite filter_cons_False by (by rewrite Ht). exact IH.
Qed.

(** X25. The two views of the contributors agree.  When no section lists a
    contributor twice, the titles that [get_contributions_by_contributor]
    files under a contributor are the titles of the sections that
    [get_contributor_sections] returns for that contributor, in the same
    order; and a contributor has no key exactly when no section lists them. *)
Theorem contributions_by_contributor_spec p c :
  (forall s, s ∈ DP.sections p -> NoDup (PS.contributor_ids s)) ->
  default [] (DP.get_contributions_by_contributor p !! c)
  = DP.titles_of (DP.get_contributor_sections c p) p
  /\ (DP.get_contributions_by_contributor p !! c = None
      <-> DP.get_contributor_sections c p = []).
Proof.
  intros Hnodup.
  destruct (contributions_outer c (DP.sections p) ∅ Hnodup) as [Hlist Hnone].
  cbv zeta in Hlist, Hnone.
  assert (Htitles : DP.titles_of (DP.get_contributor_sections c p) p
                    = map PS.title (filter (fun s => c ∈ PS.contributor_ids s) (DP.sections p))).
  { unfold DP.titles_of, DP.get_contributor_sections, DP.select.
    rewrite (select_from_titles PS.title _ (DP.sections p) []).
    f_equal. apply list_filter_iff. intros s. apply bool_decide_eq_true. }
  unfold DP.get_contributions_by_contributor. split.
  - rewrite Hlist, Htitles. by rewrite lookup_empty.
  - rewrite Hnone, lookup_empty.
    assert (Hlen : length (DP.titles_of (DP.get_contributor_sections c p) p)
                   = length (DP.get_contributor_sections c p)).
    { unfold DP.titles_of. clear. 
      assert (H : forall i, i ∈ DP.get_contributor_sections c p ->
                    is_Some (DP.sections p !! i)).
      { intros i Hi. apply select_iff in Hi as (s & Hs & _). by exists s. }
      induction (DP.get_contributor_sections c p) as [| i refs IH]; [reflexivity |].
      cbn. destruct (H i ltac:(by left)) as [s Hs].
      assert (Hs' : DP.sections p !! i = Some s) by exact Hs.
      unfold DP.section_ref in *. rewrite Hs'. cbn. f_equal.
      apply IH. intros k Hk. apply H. by right. }
    rewrite <- Htitles. split.
    + intros [_ Hnil]. rewrite Hnil in Hlen. symmetry in Hlen.
      by apply nil_length_inv in Hlen.
    + intros Hnil. split; [reflexivity |]. by rewrite Hnil.
Qed.

(** X25 at work on [projection_two_contributors]. *)
Lemma contributions_by_contributor_spec_witness :
  default [] (DP.get_contributions_by_contributor projection_two_contributors !! "ann")
  = DP.titles_of (DP.get_contributor_sections "ann" projection_two_contributors)
      projection_two_contributors.
Proof.
  apply contributions_by_contributor_spec.
  intros s Hs. cbn in Hs.
  repeat (apply elem_of_cons in Hs as [-> | Hs]); cbn.
  - apply (bool_decide_unpack _). by vm_compute.
  - apply NoDup_singleton.
  - by apply elem_of_nil in Hs.
Defined.

(** ** A pass after a pass *)

(** In every mode but APPEND, [_update_section] leaves the section not
    stale against the ids of the items it was given. *)
Lemma update_section_settles svc p mode items s w :
  mode <> APPEND ->
  PS.is_stale (map ContentItem.id items)
    (fst (Svc._update_section svc p mode (Some items) s w)) = false.
Proof.
  intros Hmode. destruct mode; try done.
  - apply update_section_not_stale. by left.
  - unfold Svc._update_section. run_monad. apply update_content_not_stale.
  - apply update_section_not_stale. by right.
Qed.

(** After a pass in a mode other than APPEND, when every id of the pool has
    its item in the cache, every section is locked, in draft, or not
    stale. *)
Lemma pass_settles svc mode p w pool (j : nat) s' :
  Svc._content_pools svc !! DP.project_id p = Some pool ->
  (forall cid, cid ∈ ContentPool.content_ids pool ->
     exists item, Svc._content_items svc !! cid = Some item /\ ContentItem.id item = cid) ->
  mode <> APPEND ->
  DP.sections (fst (Svc.update_projection svc mode p w)) !! j = Some s' ->
  PS.can_regenerate s' && PS.is_stale (ContentPool.content_ids pool) s' = false.
Proof.
  intros Hpool Hcached Hmode Hj.
  destruct (update_projection_sections svc mode p w pool Hpool) as (p1 & w1 & Hp1 & Hsec).
  rewrite Hsec in Hj.
  assert (Hlen : is_Some (DP.sections p1 !! j)).
  { apply lookup_lt_is_Some. apply lookup_lt_Some in Hj.
    by rewrite update_loop_length in Hj. }
  destruct Hlen as [s Hs].
  pose (Q := fun s0 : PS.t =>
               PS.can_regenerate s0 && PS.is_stale (ContentPool.content_ids pool) s0 = false).
  destruct (for_each_update_touched Q
              (fun p0 => Svc._update_section svc p0 mode
                           (Some (Svc.items_of svc (ContentPool.content_ids pool)))))
    with (cands := Svc.sections_to_update mode (ContentPool.content_ids pool) p1)
         (p := p1) (w := w1) (j := j) as (s0 & Hs0 & HQ).
  - intros p0 s1 w0. unfold Q. apply andb_false_iff. right.
    rewrite <- (items_of_ids svc (ContentPool.content_ids pool) Hcached) at 1.
    by apply update_section_settles.
  - destruct (decide (j ∈ Svc.sections_to_update mode (ContentPool.content_ids pool) p1))
      as [Hin | Hout]; [left; split; [exact Hin | by exists s] | right].
    exists s. split; [exact Hs |]. unfold Q.
    destruct (PS.can_regenerate s && PS.is_stale (ContentPool.content_ids pool) s) eqn:Hc;
      [| reflexivity].
    exfalso. apply Hout. apply andb_true_iff in Hc as [Hreg Hstale].
    unfold Svc.sections_to_update, DP.get_regeneratable_sections, DP.get_stale_sections.
    destruct mode; apply select_iff; exists s; (split; [exact Hs |]);
      try exact Hreg; by rewrite Hreg, Hstale.
  - assert (Heq : Some s0 = Some s') by (rewrite <- Hs0; exact Hj).
    injection Heq as <-. exact HQ.
Qed.

(** X26. Updates converge.  After a pass in mode REGENERATE, EVOLVE or
    REFRESH, when every id of the pool has its item in the cache, no section
    of the projection is stale against the pool; a following pass in any
    mode but REGENERATE then leaves every section exactly as it is. *)
Theorem second_pass_is_idle svc mode mode' p w w' pool :
  Svc._content_pools svc !! DP.project_id p = Some pool ->
  (forall cid, cid ∈ ContentPool.content_ids pool ->
     exists item, Svc._content_items svc !! cid = Some item /\ ContentItem.id item = cid) ->
  mode <> APPEND ->
  mode' <> REGENERATE ->
  let p1 := fst (Svc.update_projection svc mode p w) in
  DP.get_stale_sections (ContentPool.content_ids pool) p1 = []
  /\ DP.sections (fst (Svc.update_projection svc mode' p1 w')) = DP.sections p1.
Proof.
  intros Hpool Hcached Hmode Hmode'. cbv zeta.
  set (p1 := fst (Svc.update_projection svc mode p w)).
  assert (Hstale : DP.get_stale_sections (ContentPool.content_ids pool) p1 = []).
  { apply elem_of_nil_inv. intros j Hin.
    apply select_iff in Hin as (s' & Hs' & Htest).
    rewrite (pass_settles svc mode p w pool j s' Hpool Hcached Hmode Hs') in Htest.
    discriminate. }
  split; [exact Hstale |].
  assert (Hpool1 : Svc._content_pools svc !! DP.project_id p1 = Some pool).
  { destruct (update_projection_shape svc mode p w pool Hpool)
      as (p2 & w2 & summary & context & Hrun & Hmeta & _).
    unfold p1. rewrite Hrun.
    destruct (mark_updated_meta (ContentPool.content_ids pool) mode summary p2 w2)
      as (_ & -> & _).
    assert (Hproj : DP.project_id p2 = DP.project_id p)
      by exact (f_equal DP.project_id Hmeta).
    by rewrite Hproj. }
  destruct (update_projection_sections svc mode' p1 w' pool Hpool1) as (q & wq & Hq & ->).
  rewrite (sections_to_update_ext mode' (ContentPool.content_ids pool) q p1 Hq).
  replace (Svc.sections_to_update mode' (ContentPool.content_ids pool) p1)
    with (@nil DP.section_ref); [exact Hq |].
  symmetry. destruct mode'; try done; exact Hstale.
Qed.

(** X26 at work: REFRESH after REGENERATE on [projection_family]. *)
Lemma second_pass_is_idle_witness :
  DP.get_stale_sections (ContentPool.content_ids pool_c1_c2)
    (fst (Svc.update_projection (service_two_items None) REGENERATE projection_family w0)) = []
  /\ DP.sections
       (fst (Svc.update_projection (service_two_items None) REFRESH
               (fst (Svc.update_projection (service_two_items None) REGENERATE
                       projection_family w0)) w0))
     = DP.sections
         (fst (Svc.update_projection (service_two_items None) REGENERATE projection_family w0)).
Proof.
  apply (second_pass_is_idle (service_two_items None) REGENERATE REFRESH
           projection_family w0 w0 pool_c1_c2); [reflexivity | | done | done].
  intros cid Hin. cbn in Hin.
  repeat (apply elem_of_cons in Hin as [-> | Hin]).
  - exists item_c1. by split.
  - exists item_c2. by split.
  - by apply elem_of_nil in Hin.
Defined.

(** ** How often the model is called *)

Lemma sends_ret {A : Type} (a : A) : sends_at_most 0 (ret a).
Proof. intros w. exists []. by rewrite app_nil_r. Qed.

Lemma sends_utc_now : sends_at_most 0 utc_now.
Proof. intros w. exists []. by rewrite app_nil_r. Qed.

Lemma sends_ask oracle call : sends_at_most 1 (ask oracle call).
Proof. intros w. by exists [call]. Qed.

Lemma sends_bind {A B : Type} (n m : nat) (f : M A) (k : A -> M B) :
  sends_at_most n f -> (forall a, sends_at_most m (k a)) ->
  sends_at_most (n + m) (bind f k).
Proof.
  intros Hf Hk w. rewrite bind_run.
  destruct (Hf w) as (sent1 & H1 & Hlen1).
  destruct (Hk (fst (f w)) (snd (f w))) as (sent2 & H2 & Hlen2).
  exists (sent1 ++ sent2). rewrite H2, H1, app_assoc, length_app. split; [reflexivity | lia].
Qed.

Lemma sends_bind_run {A B : Type} (n m : nat) (f : M A) (k : A -> M B) :
  sends_at_most n f -> (forall w, sends_at_most m (k (fst (f w)))) ->
  sends_at_most (n + m) (bind f k).
Proof.
  intros Hf Hk w. rewrite bind_run.
  destruct (Hf w) as (sent1 & H1 & Hlen1).
  destruct (Hk w (snd (f w))) as (sent2 & H2 & Hlen2).
  exists (sent1 ++ sent2). rewrite H2, H1, app_assoc, length_app. split; [reflexivity | lia].
Qed.

Lemma sends_weaken {A : Type} (n m : nat) (f : M A) :
  (n <= m)%nat -> sends_at_most n f -> sends_at_most m f.
Proof.
  intros Hnm Hf w. destruct (Hf w) as (sent & H & Hlen). exists sent. split; [exact H | lia].
Qed.

Lemma sends_for_each {A S : Type} (n : nat) (xs : list A) (body : A -> S -> M S) :
  (forall x s, sends_at_most n (body x s)) ->
  forall s, sends_at_most (length xs * n) (for_each xs body s).
Proof.
  intros Hbody. induction xs as [| x xs IH]; intros s; cbn [for_each length].
  - apply sends_ret.
  - apply (sends_bind n (length xs * n)); [apply Hbody | exact IH].
Qed.

Lemma sends_save_to_history trigger user_id s :
  sends_at_most 0 (PS._save_to_history trigger user_id s).
Proof.
  unfold PS._save_to_history. destruct (negb (str_truthy (PS.content s)));
    [apply sends_ret |].
  apply (sends_bind 0 0); [apply sends_utc_now | intros now; apply sends_ret].
Qed.

Lemma sends_update_content new_content ids trigger s :
  sends_at_most 0 (PS.update_content new_content ids trigger s).
Proof.
  unfold PS.update_content. apply (sends_bind 0 0).
  - destruct (str_truthy (PS.content s)); [apply sends_save_to_history | apply sends_ret].
  - intros s1. apply (sends_bind 0 0); [apply sends_utc_now | intros now; apply sends_ret].
Qed.

Lemma sends_generate svc topic items config context :
  sends_at_most (call_cost svc)
    (Svc._generate_section_content svc topic items config context).
Proof.
  unfold Svc._generate_section_content, call_cost.
  destruct items as [| item items]; [apply (sends_weaken 0); [lia | apply sends_ret] |].
  destruct (Svc._extract_texts (item :: items));
    [apply (sends_weaken 0); [lia | apply sends_ret] |].
  destruct (Svc._ai svc) as [oracle |]; [| apply sends_ret].
  apply (sends_bind 1 0); [apply sends_ask |].
  intros reply. destruct reply; apply sends_ret.
Qed.

Lemma sends_evolve svc topic existing items config context :
  sends_at_most (call_cost svc)
    (Svc._evolve_section_content svc topic existing items config context).
Proof.
  unfold Svc._evolve_section_content, call_cost.
  destruct items as [| item items]; [apply (sends_weaken 0); [lia | apply sends_ret] |].
  destruct (Svc._ai svc) as [oracle |]; [| apply sends_ret].
  destruct (str_truthy existing); [| apply (sends_weaken 0); [lia | apply sends_ret]].
  apply (sends_bind 1 0); [apply sends_ask |].
  intros reply. destruct reply; apply sends_ret.
Qed.

Lemma sends_update_section svc p mode items s :
  sends_at_most (call_cost svc) (Svc._update_section svc p mode items s).
Proof.
  unfold Svc._update_section.
  destruct mode.
  - replace (call_cost svc) with (call_cost svc + 0)%nat by lia.
    apply sends_bind; [apply sends_generate | intros c; apply sends_update_content].
  - replace (call_cost svc) with (call_cost svc + 0)%nat by lia.
    apply sends_bind; [apply sends_evolve | intros c; apply sends_update_content].
  - match goal with |- context [filter ?P ?l] => destruct (filter P l) end;
      [apply (sends_weaken 0); [lia | apply sends_ret] |].
    replace (call_cost svc) with (call_cost svc + 0)%nat by lia.
    apply sends_bind; [apply sends_generate | intros c; apply sends_update_content].
  - match goal with |- context [PS.is_stale ?a ?b] => destruct (PS.is_stale a b) end;
      [| apply (sends_weaken 0); [lia | apply sends_ret]].
    replace (call_cost svc) with (call_cost svc + 0)%nat by lia.
    apply sends_bind; [apply sends_generate | intros c; apply sends_update_content].
Qed.

Lemma sends_update_section_at (n : nat) (i : nat) (f : PS.t -> M PS.t) p :
  (forall s, sends_at_most n (f s)) -> sends_at_most n (DP.update_section_at i f p).
Proof.
  intros Hf. unfold DP.update_section_at.
  match goal with |- context [match ?x with _ => _ end] => destruct x end;
    [| apply (sends_weaken 0); [lia | apply sends_ret]].
  replace n with (n + 0)%nat by lia.
  apply sends_bind; [apply Hf | intros s'; apply sends_ret].
Qed.

Lemma sends_update_narrative_context svc context items :
  sends_at_most (call_cost svc) (Svc._update_narrative_context svc context items).
Proof.
  unfold Svc._update_narrative_context, call_cost.
  destruct items as [| item items]; [apply (sends_weaken 0); [lia | apply sends_ret] |].
  assert (Hupdate : forall c, sends_at_most 0 (NC.update c)).
  { intros c. unfold NC.update.
    apply (sends_bind 0 0); [apply sends_utc_now | intros now; apply sends_ret]. }
  destruct (Svc._ai svc) as [oracle |].
  - apply (sends_bind 1 0); [| exact Hupdate].
    apply (sends_bind 1 0); [apply sends_ask |].
    intros reply. destruct reply; apply sends_ret.
  - apply (sends_bind 0 0); [apply sends_ret | exact Hupdate].
Qed.

Lemma sends_mark_updated content_ids mode summary p :
  sends_at_most 0 (DP.mark_updated content_ids mode summary p).
Proof.
  unfold DP.mark_updated, DP._save_version, DP._update_stats.
  repeat first
    [ apply sends_ret
    | apply sends_utc_now
    | apply (sends_bind 0 0); [| intros ?] ].
Qed.

(** The candidates of a pass are among the sections that can be
    regenerated. *)
Lemma candidates_bound mode content_ids p p1 :
  DP.sections p1 = DP.sections p ->
  (length (Svc.sections_to_update mode content_ids p1)
   <= length (DP.get_regeneratable_sections p))%nat.
Proof.
  intros Hsec.
  unfold Svc.sections_to_update, DP.get_stale_sections, DP.get_regeneratable_sections,
    DP.select.
  rewrite Hsec.
  destruct mode; apply select_from_length_le; intros s Hs; try exact Hs;
    by apply andb_true_iff in Hs as [? _].
Qed.

(** X27. The model is called sparingly.  An update pass sends at most one
    call for the themes and one per section that can be regenerated, so
    locked sections and drafts cost nothing; the calls logged before stay in
    the log, in place.  A service without a model sends none. *)
Theorem model_call_budget svc mode p w :
  exists sent,
    calls (snd (Svc.update_projection svc mode p w)) = calls w ++ sent
    /\ (length sent
        <= call_cost svc * (1 + length (DP.get_regeneratable_sections p)))%nat
    /\ (Svc._ai svc = None -> sent = []).
Proof.
  assert (H : sends_at_most
                (call_cost svc * (1 + length (DP.get_regeneratable_sections p)))
                (Svc.update_projection svc mode p)).
  { unfold Svc.update_projection.
    destruct (Svc._content_pools svc !! DP.project_id p) as [pool |];
      [| apply (sends_weaken 0); [lia | apply sends_ret]].
    unfold ContentPool.get_filtered_ids.
    apply (sends_weaken
             (call_cost svc
              + (length (DP.get_regeneratable_sections p) * call_cost svc + 0))); [lia |].
    apply sends_bind_run.
    - destruct (ContentPool.get_new_content_ids (DP.content_snapshot_ids p) pool);
        [apply (sends_weaken 0); [lia | apply sends_ret] |].
      replace (call_cost svc) with (call_cost svc + 0)%nat by lia.
      apply sends_bind; [apply sends_update_narrative_context | intros c; apply sends_ret].
    - intros w1.
      match goal with |- context [fst (?c w1)] =>
        assert (Hsec : DP.sections (fst (c w1)) = DP.sections p)
          by (destruct (ContentPool.get_new_content_ids (DP.content_snapshot_ids p) pool);
              run_monad; reflexivity);
        generalize dependent (fst (c w1))
      end.
      intros p1 Hsec.
      apply sends_bind; [| intros p2; apply sends_mark_updated].
      apply (sends_weaken
               (length (Svc.sections_to_update mode (ContentPool.content_ids pool) p1)
                * call_cost svc)).
      { apply Nat.mul_le_mono_r. by apply candidates_bound. }
      apply sends_for_each. intros i p0. apply sends_update_section_at.
      intros s. apply sends_update_section. }
  destruct (H w) as (sent & Hsent & Hlen). exists sent.
  split; [exact Hsent |]. split; [exact Hlen |].
  intros Hnone. unfold call_cost in Hlen. rewrite Hnone in Hlen.
  destruct sent; [reflexivity | cbn in Hlen; lia].
Qed.
